(* ===== verification/_CoqProject ===== *)
-Q . S2P
Prelude.v
JsRuntime.v
Web3Api.v
Endpoints.v
Dashboard.v
Async.v
View.v
Format.v
Phases.v
Amounts.v
Observations.v
Page.v
Config.v
Controller.v
