(* ===== verification/Prelude.v ===== *)
(** * A verification development of the defiportfolio dashboard

    The repository is a Next.js page ([src/src/app/page/page.tsx]) that
    wraps a header ([src/src/app/component/header/page.tsx]) and a
    dashboard ([src/src/app/component/dashboard/page.tsx]) in a Solana
    wallet provider loaded with [next/dynamic].  The program's logic is
    in the dashboard: a fallback loop over a fixed list of RPC endpoints
    ([tryRPCEndpoints], lines 10-14 and 40-53), a fetch cycle
    ([fetchAllData], 85-112) that runs four portfolio queries under
    [Promise.all] and then the transaction query, a reset ([resetState],
    75-83), a visibility toggle ([toggleBalance], 55-57), two identical
    [useEffect] hooks keyed on the wallet's [(connected, publicKey)]
    (67-73 and 114-120), and a render function (122-246).  The wallet
    provider feeds the dashboard; the fetchers of [../web3/portfolio]
    and [../web3/fetchTransaction] talk to remote services.

    ** Files, in dependency order

    - [Prelude] (this file): JavaScript string helpers ([str_repeat] for
      [String.prototype.repeat], [string_of_nat] for [String(n)],
      [is_truthy_str] and [is_some] for truthiness), their length lemmas,
      and the hint databases [dash] (constructors of the relations) and
      [dash_rw] (run lemmas of the effect model and the view).
    - [JsRuntime]: the effect model.  An [async] function is a value of
      [JS S A := world S -> world S * result A]: it threads the component
      state [S] and a trace of observable events ([ev_connect],
      [ev_rpc], [ev_http], [ev_console_error], [ev_console_log]) and
      ends in [Ok v] or [Throw e].  [js_bind] is [await], [try_catch],
      [try_finally], [promise_all4] (with its pure outcome [all4]) and
      [setState] are the constructs the component uses, with notation in
      [js_scope].
    - [Web3Api]: the data types ([TokenAccount], [StakeAccount] of the
      dashboard; [SimplifiedTransactionDetail], [Connection],
      [PublicKey]) and the fetchers [getSolBalance], [getSolPriceInUSD],
      [getTokenAccounts], [getStakeAccounts], [fetchTransactions].  Their
      modules are not under [src/]: they are modelled from spec 4.2-4.3
      as one request each against the record [Remote] of the answers the
      services give per endpoint and account.  [Remote] is the interface between the dashboard and
      the services: every theorem quantifies over it.
    - [Endpoints]: [RPC_ENDPOINTS], [truthy] ([if (endpoint)]),
      [new_Connection] and the loop [tryRPCEndpoints_from], with the
      executable reference [first_success] and the contract [fallback]
      of spec 4.1 as an inductive relation.  Theorems: the loop computes
      the reference ([tryRPCEndpoints_from_query]) and refines the
      contract ([tryRPCEndpoints_refines]); the first success is
      returned and no later endpoint is tried; when all fail the loop
      rejects after trying and logging each present endpoint; at most
      three connections per call.
    - [Dashboard]: [DashboardState] (the eight [useState] hooks), the
      setters, [toggleBalance], [resetState], [fetchAllData] composed of
      its segments ([fetch_start], [portfolio_batch], [apply_portfolio],
      [tx_fetch], [fetch_catch], [fetch_finally]).  [fetch_spec] and
      [cycle_events] state what one cycle computes from the services'
      [answers]; [fetchAllData_run] proves the cycle computes them.
      Theorems on every branch: ready, portfolio failure (the previous
      data stays), transaction failure (a mix of two cycles), reset,
      toggle.  The two [useEffect] hooks call [fetchAllData] without
      awaiting it, so they are modelled in [Async] ([run_hooks]).
    - [Async]: the interleaving semantics.  [fetchAllData] runs in three
      atomic segments separated by its two [await]s; a suspended cycle
      is a [task] holding its closure's key and the outcome its pending
      promise will deliver.  The labelled relation [astep] has a rule for
      a wallet change (both hooks, when the dependencies changed), a
      click on the toggle, and the resumption of any suspended cycle;
      [steps] is its closure along a list of labels and [reachable]
      starts from [init_astate].  [step_fun] and [run_schedule] are an
      executable scheduler proved sound.  Theorems: two invariants of
      every reachable state (the error is absent or the fixed message;
      a set loading flag means a cycle is in flight), liveness (the
      suspended cycles can always be run to a settled state with the
      spinner off), only the toggle changes the visibility, a
      disconnect makes both hooks reset and start nothing, one
      uninterrupted cycle ends in the state and trace the cycle's
      specification [fetch_spec]/[cycle_events] prescribes, the two
      identical cycles of one wallet change converge to the sequential
      result under every interleaving (proved with overwrite masks:
      each resumption copies some fields of the target state), and the
      two races of spec 5: a stale cycle of the previous wallet, or of a
      disconnected one, lands last.
    - [View]: [render] as a tree of [vnode]s with enumerated attribute
      names, [obfuscateValue], and [toFixed2] for [toFixed(2)].
      Theorems: with the balance hidden the view does not depend on the
      portfolio (non-interference); the links are exactly the
      transactions' explorer links when the list is shown; React's key
      requirement holds exactly when the shown signatures are distinct
      ([keys_wf]); the error is shown beside the stale balance; the
      wallet button always reads ["Connected"].
    - [Format]: [read_decimal], [Number(s)] on the strings [toFixed]
      prints, built on the Standard Library's decimal parser.  Theorem:
      the shown balance card prints the net worth and the balance, each
      reading back within half a cent.
    - [Phases]: two abstractions of [Async].  The [weight] of the cycles
      in flight drops by exactly one per resumption (termination: no
      schedule resumes forever).  [phase_of] maps a state to the phases
      of spec 4.4 and [phase_step] is the spec's machine with the event
      of each transition (a connected key, a disconnect, a click, the
      resumption of a cycle whose fetches all succeeded or one failed):
      in every reachable state each step of the code is a transition of
      it; its two transitions the spec does not list, a disconnect while
      loading and a stale failure moving Ready to Failed, are shown to
      happen.  Along any run the resumptions made
      are at most four per wallet change ([run_work_bound]).
    - [Amounts]: the class [NonNegRemote], spec 4.2's promise of
      non-negative balances and prices from the services, stated as an
      interface the dashboard's theorems assume and the concrete remotes
      discharge.  Theorems: every reachable state holds non-negative
      amounts, and the shown amounts print without a sign.
    - [Observations]: what the outside sees of every reachable state.
      [event_ok] says a recorded request targets a present entry of
      [RPC_ENDPOINTS] (or is the price query); every reachable trace
      satisfies it.  The duplicated hook: every interleaving of the two
      cycles of one wallet change issues each request and log line of
      one cycle exactly twice (a permutation of two copies of
      [cycle_events]).  The view of each phase: the spinner and no link
      while loading, the error and no link after a failure, the
      explorer links when ready.
    - [Page]: the header ([Header], its markup [header_tree] and its
      [console.log]), [next/dynamic] with [ssr: false] ([dynamic],
      [WalletMultiButton]), the provider's context [wallet_ctx] (from
      spec 6: [useWallet] and [useConnection]), and the home page as an
      executable step function [page_step] over [page_state]: modules
      arriving, wallet changes, and the dashboard's own steps.
      Theorems: the page projects onto [Async] (every mounted dashboard
      is reachable and ran its hooks on the current wallet); the page is
      blank and silent before the provider arrives; the provider's
      [Connection] never reaches the dashboard.
    - [Config]: the environment override.  [same_present] (two endpoint
      lists walk the same present endpoints) and [env_equiv] (two values
      of [REACT_APP_SOLANA_RPC_ENDPOINT] are equally truthy) are
      equivalences coarser than equality; the runner, the queries, the
      answers of a cycle, the hooks' prefixes, the resumptions, [astep]
      and [reachable] are [Proper] for them.  Theorems: the sequential
      fetch cycle and every run of the interleaving semantics are the
      same for equivalent values (an empty variable behaves as an unset
      one).
    - [Controller]: the cycle guard of spec 9 as an abstract controller
      [atomic_step] (one sequential cycle per connected wallet change,
      [resetState] otherwise, the toggle for a click).  A run is
      [guarded] when no wallet change happens while a cycle is
      suspended; [run_guarded] is an executable scheduler for such runs.
      Theorem: every guarded run between settled states ends in the
      state of the atomic controller on the same labels (a simulation
      [sim] built on the overwrite masks of [Async]), clicks inside a
      cycle included; the races of [Async] show the guard is needed.
      [spec44_fetch] is spec 4.4's own cycle, whose Error state
      discards the prior data; a theorem characterises exactly when
      [fetchAllData] ends in the state it prescribes (all five fetches
      succeed, or the batch fails on a dashboard without data).

    ** Choices of the model

    Numbers are [Q]: the product and the comparisons of the dashboard
    are exact there, and [toFixed2] rounds the exact value (JavaScript
    rounds the nearest double, which differs on some ties, and prints
    exponent notation from 1e21 on).  The remote services are
    deterministic functions of the endpoint and the account; in [Async]
    a request is issued when its promise starts and its outcome is
    delivered at a resumption the scheduler chooses, so the requests of
    overlapping cycles and the order of their deliveries are explicit.
    [Promise.all] is modelled as settling after all four promises (the
    four requests are always issued); its rejection is the first one in
    array order, which only reaches the log, and since the scheduler may
    deliver the batch's outcome at any time its early rejection needs no
    segment of its own.  React's batched state updates are applied in
    order at once: the component never reads its state between two
    setters of one segment.  A component's effects run after a render
    whose dependencies changed ([deps_changed], [dash_render]); a
    component without props or state (the header) renders once when
    mounted.  There is no fuel: every function is structural, a cycle
    ends after at most two resumptions ([uninterrupted_cycle_refines]),
    and the cycles in flight end after [weight] resumptions
    ([resumes_terminate]).

    [new Connection(endpoint)] (line 44) is modelled as never throwing:
    web3.js rejects a URL without an [http:] or [https:] scheme, which
    only the environment override could supply; such a value would be
    caught and logged like a failed request.

    Not modelled: the wallet adapter's handshake and modal (a library
    outside [src/]; only the context it exposes is modelled); the
    normalisation of instructions into transaction messages inside
    [../web3/fetchTransaction] (the spec does not give it); styling and
    the pie chart's drawing (its static data is rendered); the
    [console.log] of the home page's imports and the CSS import.

    ** Further work

    1. Weaken the guard of [Controller]: a wallet change may overlap
       cycles of the key it switches to (a disconnect and reconnect of
       one wallet); extend [sim] to such runs.
    2. The page's own invariants over [page_step]: the header's log has
       one line per mount of the provider. *)

From Stdlib Require Import String List Lia ZArith.
From Stdlib Require Import DecimalString DecimalNat DecimalN.
Import ListNotations.
Open Scope string_scope.

Create HintDb dash discriminated.
Create Rewrite HintDb dash_rw.

(** ** Strings of the JavaScript runtime *)

(** [s.repeat(n)] *)
Fixpoint str_repeat (s : string) (n : nat) : string :=
  match n with
  | O => ""
  | S n' => s ++ str_repeat s n'
  end.

Lemma string_length_app (a b : string) :
  String.length (a ++ b) = String.length a + String.length b.
Proof. induction a as [|c a IH]; simpl; [reflexivity|]. now rewrite IH. Qed.

Lemma length_str_repeat s n : String.length (str_repeat s n) = n * String.length s.
Proof. induction n as [|n IH]; simpl; [reflexivity|]. now rewrite string_length_app, IH. Qed.

(** Decimal printing of a non-negative integer, as [String(n)]. *)
Definition string_of_nat (n : nat) : string :=
  NilEmpty.string_of_uint (Nat.to_uint n).

Definition string_of_N (n : N) : string :=
  NilEmpty.string_of_uint (N.to_uint n).

(** JavaScript truthiness of a nullable object reference. *)
Definition is_some {A} (o : option A) : bool :=
  match o with Some _ => true | None => false end.

(** JavaScript truthiness of a string: only [""] is falsy. *)
Definition is_truthy_str (s : string) : bool := negb (String.eqb s "").
