(* ===== verification/JsRuntime.v ===== *)
(** * The JavaScript effect model

    An [async] function of the component is a value of [JS S A]: from a
    [world] (the component state [S] and the trace of observable events
    so far) it produces the next world and either [Ok v] (the promise
    resolves with [v]) or [Throw e] (it rejects with the [Error] [e]).
    Events are appended to the trace in the order they happen.  The
    combinators are the constructs [dashboard/page.tsx] uses: [await]
    (bind), [throw], [try/catch], [finally], [Promise.all] of four
    promises, [console.error], [console.log], and React's state setters. *)

From Stdlib Require Import String List.
From S2P Require Import Prelude.
Import ListNotations.
Open Scope string_scope.

(** JavaScript [Error] objects: [new Error(message)]. *)
Inductive exn := Error (message : string).

Inductive result (A : Type) :=
| Ok (v : A)
| Throw (e : exn).
Arguments Ok {A} v.
Arguments Throw {A} e.

(** What the outside world sees of a run. *)
Inductive event :=
| ev_connect (endpoint : string)            (** [new Connection(endpoint)] *)
| ev_rpc (endpoint : string) (method : string)  (** a JSON-RPC request *)
| ev_http (url : string)                    (** an HTTP request (price API) *)
| ev_console_error (msg : string) (e : exn)  (** [console.error(msg, e)] *)
| ev_console_log (msg : string).            (** [console.log(msg)] *)

Record world (S : Type) := mk_world { w_state : S; w_trace : list event }.
Arguments mk_world {S} w_state w_trace.
Arguments w_state {S} w.
Arguments w_trace {S} w.

Definition JS (S A : Type) := world S -> world S * result A.

Section Combinators.
Context {S : Type}.

Definition js_ret {A} (a : A) : JS S A := fun w => (w, Ok a).

Definition js_bind {A B} (m : JS S A) (k : A -> JS S B) : JS S B :=
  fun w =>
    match m w with
    | (w', Ok a) => k a w'
    | (w', Throw e) => (w', Throw e)
    end.

Definition js_throw {A} (e : exn) : JS S A := fun w => (w, Throw e).

(** [try { m } catch (e) { h(e) }] *)
Definition try_catch {A} (m : JS S A) (h : exn -> JS S A) : JS S A :=
  fun w =>
    match m w with
    | (w', Ok a) => (w', Ok a)
    | (w', Throw e) => h e w'
    end.

(** [try { m } finally { f }]: [f] runs on both paths; an exception of
    [f] replaces the outcome of [m]. *)
Definition try_finally {A} (m : JS S A) (f : JS S unit) : JS S A :=
  fun w =>
    match m w with
    | (w', r) =>
        match f w' with
        | (w'', Ok _) => (w'', r)
        | (w'', Throw e) => (w'', Throw e)
        end
    end.

Definition emit (e : event) : JS S unit :=
  fun w => (mk_world (w_state w) (w_trace w ++ [e]), Ok tt).

(** [console.error(msg, e)] *)
Definition console_error (msg : string) (e : exn) : JS S unit :=
  emit (ev_console_error msg e).

(** [console.log(msg)] *)
Definition console_log (msg : string) : JS S unit := emit (ev_console_log msg).

(** A React state setter with an updater; plain [setX(v)] is
    [setState (fun s => s with x := v)]. *)
Definition setState (f : S -> S) : JS S unit :=
  fun w => (mk_world (f (w_state w)) (w_trace w), Ok tt).

(** Turn the outcome of a remote service into a resolved or rejected
    promise. *)
Definition of_result {A} (r : result A) : JS S A := fun w => (w, r).

(** The outcome of [Promise.all] over four settled promises: the four
    values, or the first rejection in array order. *)
Definition all4 {A B C D} (ra : result A) (rb : result B) (rc : result C)
    (rd : result D) : result (A * B * C * D) :=
  match ra, rb, rc, rd with
  | Ok va, Ok vb, Ok vc, Ok vd => Ok (va, vb, vc, vd)
  | Throw e, _, _, _ => Throw e
  | _, Throw e, _, _ => Throw e
  | _, _, Throw e, _ => Throw e
  | _, _, _, Throw e => Throw e
  end.

(** [Promise.all([a, b, c, d])]: the four calls are made when the array
    is built, before anything is awaited, so all four run whatever the
    others do. *)
Definition promise_all4 {A B C D} (a : JS S A) (b : JS S B) (c : JS S C)
    (d : JS S D) : JS S (A * B * C * D) :=
  fun w =>
    let '(w1, ra) := a w in
    let '(w2, rb) := b w1 in
    let '(w3, rc) := c w2 in
    let '(w4, rd) := d w3 in
    (w4, all4 ra rb rc rd).

End Combinators.

Declare Scope js_scope.
Delimit Scope js_scope with js.
Notation "x <- c1 ;; c2" := (js_bind c1 (fun x => c2))
  (at level 61, c1 at next level, right associativity) : js_scope.
Notation "' pat <- c1 ;; c2" :=
  (js_bind c1 (fun x => match x with pat => c2 end))
  (at level 61, pat pattern, c1 at next level, right associativity) : js_scope.
Notation "c1 ;; c2" := (js_bind c1 (fun _ => c2))
  (at level 61, right associativity) : js_scope.

(** ** Laws *)

Section Laws.
Context {S : Type}.

Lemma js_bind_ret_l {A B} (a : A) (k : A -> JS S B) w :
  js_bind (js_ret a) k w = k a w.
Proof. reflexivity. Qed.

Lemma setState_run (f : S -> S) w :
  setState f w = (mk_world (f (w_state w)) (w_trace w), Ok tt).
Proof. reflexivity. Qed.

End Laws.

#[export] Hint Rewrite @js_bind_ret_l @setState_run : dash_rw.
