(* ===== verification/Web3Api.v ===== *)
(** * The data of the dashboard and the web3 modules it imports

    [TokenAccount] and [StakeAccount] are the interfaces of
    [dashboard/page.tsx].  The fetchers [getSolBalance],
    [getSolPriceInUSD], [getTokenAccounts], [getStakeAccounts]
    ([../web3/portfolio]) and the function returned by
    [useFetchTransactions] ([../web3/fetchTransaction]) live outside
    [src/]; they are modelled from the spec (4.2, 4.3) as single remote
    queries against a deterministic oracle [Remote]: each records the
    request it issues and resolves or rejects with the oracle's answer. *)

From Stdlib Require Import String List QArith.
From S2P Require Import Prelude JsRuntime.
Import ListNotations.
Open Scope string_scope.
Local Open Scope js_scope.

(** A base58 public key; [publicKey.toBase58()] is the identity. *)
Definition PublicKey := string.

(** [new Connection(endpoint)] keeps the endpoint URL. *)
Record Connection := mkConnection { rpcEndpoint : string }.

Record TokenAccount := mkTokenAccount { ta_address : string; ta_balance : Q }.

Record StakeAccount := mkStakeAccount { sa_address : string; sa_balance : Q }.

Record SimplifiedTransactionDetail := mkTx {
  signature : string;
  message : string;
  status : string;
  date : string
}.

(** The answers of the remote services, per endpoint and account. *)
Record Remote := mkRemote {
  rpc_getBalance : string -> PublicKey -> result Q;
  price_api : result Q;
  rpc_getTokenAccounts : string -> PublicKey -> result (list TokenAccount);
  rpc_getStakeAccounts : string -> PublicKey -> result (list StakeAccount);
  rpc_getTransactions : string -> PublicKey -> result (list SimplifiedTransactionDetail)
}.

Section Fetchers.
Context {S : Type} (R : Remote).

(** One JSON-RPC request [method] on the connection's endpoint. *)
Definition rpc_query {A} (method : string) (q : string -> result A)
    (c : Connection) : JS S A :=
  emit (ev_rpc (rpcEndpoint c) method);;
  of_result (q (rpcEndpoint c)).

Definition getSolBalance (pk : PublicKey) : Connection -> JS S Q :=
  rpc_query "getBalance" (fun ep => rpc_getBalance R ep pk).

Definition getSolPriceInUSD : JS S Q :=
  emit (ev_http "getSolPriceInUSD");;
  of_result (price_api R).

Definition getTokenAccounts (pk : PublicKey) : Connection -> JS S (list TokenAccount) :=
  rpc_query "getParsedTokenAccountsByOwner" (fun ep => rpc_getTokenAccounts R ep pk).

Definition getStakeAccounts (pk : PublicKey) : Connection -> JS S (list StakeAccount) :=
  rpc_query "getParsedProgramAccounts" (fun ep => rpc_getStakeAccounts R ep pk).

(** [useFetchTransactions()] returns a function of the connection; the
    hook reads the wallet's key from the wallet context of the render. *)
Definition fetchTransactions (pk : PublicKey)
    : Connection -> JS S (list SimplifiedTransactionDetail) :=
  rpc_query "getSignaturesForAddress" (fun ep => rpc_getTransactions R ep pk).

End Fetchers.
