(* ===== verification/Endpoints.v ===== *)
(** * The endpoint fallback runner

    [RPC_ENDPOINTS] and [tryRPCEndpoints] of [dashboard/page.tsx]
    (lines 10-14 and 40-53).  The loop skips falsy entries (an unset or
    empty environment variable), opens a [Connection] on each present
    endpoint in order, returns the first result, logs each failure and
    throws ["All RPC endpoints failed"] when the list is exhausted.

    [first_success] is the executable reference of a run against a
    remote query, and [fallback] is the contract of spec 4.1 as an
    inductive relation; the implementation is proved equal to the
    reference and to refine the contract, and the theorems of spec 8
    follow from the contract. *)

From Stdlib Require Import String List Lia.
From S2P Require Import Prelude JsRuntime Web3Api.
Import ListNotations.
Open Scope string_scope.
Open Scope list_scope.
Local Open Scope js_scope.

Definition helius_endpoint : string :=
  "https://mainnet.helius-rpc.com/?api-key=4c4a4f43-145d-4406-b89c-36ad977bb738".

(** [clusterApiUrl] of [@solana/web3.js] for the public clusters. *)
Definition clusterApiUrl (cluster : string) : string :=
  ("https://api." ++ cluster ++ ".solana.com")%string.

(** The first entry is [process.env.REACT_APP_SOLANA_RPC_ENDPOINT],
    which is [undefined] when the variable is unset. *)
Definition RPC_ENDPOINTS (REACT_APP_SOLANA_RPC_ENDPOINT : option string)
    : list (option string) :=
  [REACT_APP_SOLANA_RPC_ENDPOINT; Some helius_endpoint;
   Some (clusterApiUrl "mainnet-beta")].

(** [if (endpoint)]: [undefined] and [""] are falsy. *)
Definition truthy (endpoint : option string) : option string :=
  match endpoint with
  | Some s => if String.eqb s "" then None else Some s
  | None => None
  end.

Definition all_failed : exn := Error "All RPC endpoints failed".

Definition endpoint_error_msg (endpoint : string) : string :=
  ("Error with endpoint " ++ endpoint ++ ":")%string.

Definition new_Connection {S} (endpoint : string) : JS S Connection :=
  emit (ev_connect endpoint);;
  js_ret (mkConnection endpoint).

(** The [for ... of] loop; [Some result] is the early [return result],
    [None] falls through to the next endpoint. *)
Fixpoint tryRPCEndpoints_from {S A} (fetchFunction : Connection -> JS S A)
    (endpoints : list (option string)) : JS S A :=
  match endpoints with
  | [] => js_throw all_failed
  | endpoint :: rest =>
      match truthy endpoint with
      | None => tryRPCEndpoints_from fetchFunction rest
      | Some ep =>
          r <- try_catch
                 (tempConnection <- new_Connection ep;;
                  result <- fetchFunction tempConnection;;
                  js_ret (Some result))
                 (fun error => console_error (endpoint_error_msg ep) error;;
                               js_ret None);;
          match r with
          | Some result => js_ret result
          | None => tryRPCEndpoints_from fetchFunction rest
          end
      end
  end.

Definition tryRPCEndpoints {S A} (env : option string)
    (fetchFunction : Connection -> JS S A) : JS S A :=
  tryRPCEndpoints_from fetchFunction (RPC_ENDPOINTS env).

(** ** Reference and contract *)

(** The present endpoints, in order. *)
Fixpoint present_endpoints (endpoints : list (option string)) : list string :=
  match endpoints with
  | [] => []
  | e :: rest =>
      match truthy e with
      | Some ep => ep :: present_endpoints rest
      | None => present_endpoints rest
      end
  end.

Section Reference.
Context {A : Type} (q : string -> result A).

(** The failed attempts in order, and the first success if any. *)
Fixpoint first_success (endpoints : list (option string))
    : list (string * exn) * option (string * A) :=
  match endpoints with
  | [] => ([], None)
  | e :: rest =>
      match truthy e with
      | None => first_success rest
      | Some ep =>
          match q ep with
          | Ok v => ([], Some (ep, v))
          | Throw x => let '(fs, s) := first_success rest in ((ep, x) :: fs, s)
          end
      end
  end.

(** Spec 4.1: [fallback endpoints tried outcome]. *)
Inductive fallback : list (option string) -> list string -> result A -> Prop :=
| fallback_exhausted : fallback [] [] (Throw all_failed)
| fallback_skip e rest tried r :
    truthy e = None -> fallback rest tried r -> fallback (e :: rest) tried r
| fallback_hit e ep rest v :
    truthy e = Some ep -> q ep = Ok v -> fallback (e :: rest) [ep] (Ok v)
| fallback_next e ep rest x tried r :
    truthy e = Some ep -> q ep = Throw x -> fallback rest tried r ->
    fallback (e :: rest) (ep :: tried) r.

(** Every present endpoint of the list fails. *)
Definition all_fail (endpoints : list (option string)) : Prop :=
  forall ep, In ep (present_endpoints endpoints) -> exists x, q ep = Throw x.

End Reference.

#[export] Hint Constructors fallback : dash.

Definition failure_events (method : string) (f : string * exn) : list event :=
  [ev_connect (fst f); ev_rpc (fst f) method;
   ev_console_error (endpoint_error_msg (fst f)) (snd f)].

Definition success_events {A} (method : string) (s : option (string * A)) : list event :=
  match s with
  | Some (ep, _) => [ev_connect ep; ev_rpc ep method]
  | None => []
  end.

Definition outcome_of {A} (s : option (string * A)) : result A :=
  match s with
  | Some (_, v) => Ok v
  | None => Throw all_failed
  end.

(** The endpoints a trace opened a connection to. *)
Fixpoint connections (tr : list event) : list string :=
  match tr with
  | [] => []
  | ev_connect ep :: tr' => ep :: connections tr'
  | _ :: tr' => connections tr'
  end.

(** ** The runner against a remote query *)

Section Runner.
Context {S A : Type} (method : string) (q : string -> result A).

(** The runner computes the reference: the trace gains the failed
    attempts' events and then the success's, and the outcome is the
    first success or [all_failed]; the component state is untouched. *)
Lemma tryRPCEndpoints_from_query (endpoints : list (option string)) (w : world S) :
  tryRPCEndpoints_from (rpc_query method q) endpoints w =
  let '(fs, s) := first_success q endpoints in
  (mk_world (w_state w)
     (w_trace w ++ flat_map (failure_events method) fs ++ success_events method s),
   outcome_of s).
Proof.
  revert w; induction endpoints as [|e rest IH]; intros [st tr]; simpl.
  - rewrite app_nil_r. reflexivity.
  - destruct (truthy e) as [ep|]; [|apply IH].
    unfold js_bind, try_catch, new_Connection, rpc_query, emit, of_result,
      js_ret, console_error; simpl.
    destruct (q ep) as [v|x]; simpl.
    + rewrite <- !app_assoc. reflexivity.
    + rewrite IH. destruct (first_success q rest) as [fs s]; simpl.
      rewrite <- !app_assoc. reflexivity.
Qed.

Lemma connections_attempts fs (s : option (string * A)) :
  connections (flat_map (failure_events method) fs ++ success_events method s) =
  map fst fs ++ match s with Some (ep, _) => [ep] | None => [] end.
Proof.
  induction fs as [|[ep x] fs IH]; simpl; [|now rewrite IH].
  destruct s as [[ep v]|]; reflexivity.
Qed.

Lemma first_success_fallback endpoints :
  let '(fs, s) := first_success q endpoints in
  fallback q endpoints
    (map fst fs ++ match s with Some (ep, _) => [ep] | None => [] end)
    (outcome_of s).
Proof.
  induction endpoints as [|e rest IH]; simpl; [constructor|].
  destruct (first_success q rest) as [fs s].
  destruct (truthy e) as [ep|] eqn:He; [|now constructor].
  destruct (q ep) as [v|x] eqn:Hq; simpl; eauto with dash.
Qed.

End Runner.

(** Two facts [truthy e = _] about the same entry agree. *)
Ltac same_truthy :=
  repeat match goal with
  | H : truthy ?e = _, H' : truthy ?e = _ |- _ =>
      rewrite H in H';
      first [ discriminate H' | injection H' as H'; subst | clear H' ]
  end.

Ltac fallback_close := same_truthy; try solve [congruence | split; congruence].

Section Contract.
Context {A : Type} (q : string -> result A).

Lemma fallback_functional endpoints t1 r1 t2 r2 :
  fallback q endpoints t1 r1 -> fallback q endpoints t2 r2 -> t1 = t2 /\ r1 = r2.
Proof.
  intros H1; revert t2 r2.
  induction H1 as [|e rest tried r He H IH|e ep rest v He Hq
                  |e ep rest x tried r He Hq H IH];
    intros t2 r2 H2; inversion H2; subst; fallback_close;
    match goal with
    | IH : forall t r, fallback _ ?l t r -> _, H : fallback _ ?l _ _ |- _ =>
        destruct (IH _ _ H) as [-> ->]; auto
    end.
Qed.

(** Spec 8: when every present endpoint before [e] fails and [e]
    succeeds, the outcome is [e]'s value and exactly the present
    endpoints of the prefix and [e] are tried, none after it. *)
Lemma fallback_first_success pre e ep post v tried r :
  all_fail q pre -> truthy e = Some ep -> q ep = Ok v ->
  fallback q (pre ++ e :: post) tried r ->
  tried = present_endpoints pre ++ [ep] /\ r = Ok v.
Proof.
  unfold all_fail. revert tried r.
  induction pre as [|e' pre IH]; simpl; intros tried r Hfail He Hq H.
  - inversion H; subst; fallback_close.
  - destruct (truthy e') as [ep'|] eqn:He'.
    + destruct (Hfail ep' (or_introl eq_refl)) as [x Hx].
      inversion H; subst; fallback_close.
      destruct (IH tried0 r) as [-> ->]; auto.
      intros ep1 Hin. apply Hfail. now right.
    + inversion H; subst; fallback_close. now apply IH.
Qed.

(** Spec 8: when every present endpoint fails, the outcome is
    [all_failed] after trying each present endpoint once, in order. *)
Lemma fallback_all_fail endpoints tried r :
  all_fail q endpoints -> fallback q endpoints tried r ->
  tried = present_endpoints endpoints /\ r = Throw all_failed.
Proof.
  unfold all_fail. intros Hfail H.
  induction H as [|e rest tried r He H IH|e ep rest v He Hq
                 |e ep rest x tried r He Hq H IH]; simpl in *; rewrite ?He in *.
  - auto.
  - now apply IH.
  - destruct (Hfail ep (or_introl eq_refl)). congruence.
  - assert (Hrest : forall ep', In ep' (present_endpoints rest) ->
                                exists x', q ep' = Throw x')
      by (intros; apply Hfail; now right).
    destruct (IH Hrest) as [-> ->]. auto.
Qed.

End Contract.

(** The messages of the [console.error] lines of a trace. *)
Fixpoint console_lines (tr : list event) : list string :=
  match tr with
  | [] => []
  | ev_console_error msg _ :: tr' => msg :: console_lines tr'
  | _ :: tr' => console_lines tr'
  end.

Lemma console_lines_attempts {A} method fs (s : option (string * A)) :
  console_lines (flat_map (failure_events method) fs ++ success_events method s) =
  map (fun f => endpoint_error_msg (fst f)) fs.
Proof.
  induction fs as [|[ep x] fs IH]; simpl; [|now rewrite IH].
  destruct s as [[ep v]|]; reflexivity.
Qed.

Lemma fallback_length {A} (q : string -> result A) endpoints tried r :
  fallback q endpoints tried r -> length tried <= length (present_endpoints endpoints).
Proof.
  induction 1; simpl; rewrite ?H; simpl; lia.
Qed.

(** ** Theorems of the runner *)

Section RunnerTheorems.
Context {S A : Type} (method : string) (q : string -> result A).

(** C3. The runner refines the contract of spec 4.1: it leaves the
    component state alone, only appends to the trace, and the endpoints
    it connects to and its outcome are related by [fallback]. *)
Theorem tryRPCEndpoints_refines (endpoints : list (option string)) (w : world S) :
  let '(w', r) := tryRPCEndpoints_from (rpc_query method q) endpoints w in
  w_state w' = w_state w /\
  exists new, w_trace w' = w_trace w ++ new /\ fallback q endpoints (connections new) r.
Proof.
  rewrite tryRPCEndpoints_from_query.
  pose proof (first_success_fallback q endpoints) as Hf.
  destruct (first_success q endpoints) as [fs s]; simpl.
  split; [reflexivity|]. eexists; split; [reflexivity|].
  now rewrite connections_attempts.
Qed.

Lemma tryRPCEndpoints_attempts endpoints (w : world S) :
  let '(w', r) := tryRPCEndpoints_from (rpc_query method q) endpoints w in
  exists fs s, w' = mk_world (w_state w) (w_trace w ++ flat_map (failure_events method) fs
                                                    ++ success_events method s)
          /\ r = outcome_of s
          /\ fallback q endpoints (map fst fs ++ match s with Some (ep, _) => [ep] | None => [] end) r.
Proof.
  rewrite tryRPCEndpoints_from_query.
  pose proof (first_success_fallback q endpoints) as Hf.
  destruct (first_success q endpoints) as [fs s]. eauto.
Qed.

(** C1. Spec 8, first clause: when the present endpoints before [e] fail
    and [e] answers [v], the runner resolves with [v], connects to the
    present endpoints of the prefix and to [e] and to none after it,
    and logs one error line per failed endpoint. *)
Theorem tryRPCEndpoints_first_success pre e ep post v (w : world S) :
  all_fail q pre -> truthy e = Some ep -> q ep = Ok v ->
  let '(w', r) := tryRPCEndpoints_from (rpc_query method q) (pre ++ e :: post) w in
  r = Ok v /\ w_state w' = w_state w /\
  exists new, w_trace w' = w_trace w ++ new /\
              connections new = present_endpoints pre ++ [ep] /\
              console_lines new = map endpoint_error_msg (present_endpoints pre).
Proof.
  intros Hfail He Hq.
  pose proof (tryRPCEndpoints_attempts (pre ++ e :: post) w) as Ha.
  destruct (tryRPCEndpoints_from _ _ w) as [w' r].
  destruct Ha as (fs & s & -> & -> & Hf).
  destruct (fallback_first_success q pre e ep post v _ _ Hfail He Hq Hf) as [Ht Hr].
  destruct s as [[ep' v']|]; simpl in Ht, Hr; [|discriminate].
  apply app_inj_tail in Ht as [Hfs ->].
  repeat split; auto. eexists; split; [reflexivity|].
  rewrite connections_attempts, console_lines_attempts, <- Hfs, map_map. auto.
Qed.

(** C2. Spec 8, second clause: when every present endpoint fails the runner
    rejects with [all_failed] after connecting to each present endpoint
    once, in order, and logging each failure. *)
Theorem tryRPCEndpoints_all_fail endpoints (w : world S) :
  all_fail q endpoints ->
  let '(w', r) := tryRPCEndpoints_from (rpc_query method q) endpoints w in
  r = Throw all_failed /\ w_state w' = w_state w /\
  exists new, w_trace w' = w_trace w ++ new /\
              connections new = present_endpoints endpoints /\
              console_lines new = map endpoint_error_msg (present_endpoints endpoints).
Proof.
  intros Hfail.
  pose proof (tryRPCEndpoints_attempts endpoints w) as Ha.
  destruct (tryRPCEndpoints_from _ _ w) as [w' r].
  destruct Ha as (fs & s & -> & -> & Hf).
  destruct (fallback_all_fail q endpoints _ _ Hfail Hf) as [Ht Hr].
  destruct s as [[ep' v']|]; simpl in Ht, Hr; [discriminate|].
  rewrite app_nil_r in Ht.
  repeat split; auto. eexists; split; [reflexivity|].
  rewrite connections_attempts, console_lines_attempts, app_nil_r, <- Ht, map_map. auto.
Qed.

(** C39. Bound: one call of [tryRPCEndpoints] opens at most three
    connections, two when the environment variable is unset or empty. *)
Theorem tryRPCEndpoints_connections_bound env (w : world S) :
  let '(w', _) := tryRPCEndpoints env (rpc_query method q) w in
  exists new, w_trace w' = w_trace w ++ new /\
    length (connections new) <= match truthy env with Some _ => 3 | None => 2 end.
Proof.
  pose proof (tryRPCEndpoints_attempts (RPC_ENDPOINTS env) w) as H.
  unfold tryRPCEndpoints. destruct (tryRPCEndpoints_from _ _ w) as [w' r].
  destruct H as (fs & s & -> & _ & Hf). eexists; split; [reflexivity|].
  rewrite connections_attempts. apply fallback_length in Hf. simpl in Hf.
  destruct (truthy env); simpl in *; lia.
Qed.

End RunnerTheorems.

(** The events and the outcome of one run, as seen by a caller. *)
Definition query_events {A} (method : string) (q : string -> result A)
    (endpoints : list (option string)) : list event :=
  let '(fs, s) := first_success q endpoints in
  flat_map (failure_events method) fs ++ success_events method s.

Definition query_outcome {A} (q : string -> result A)
    (endpoints : list (option string)) : result A :=
  outcome_of (snd (first_success q endpoints)).

Lemma tryRPCEndpoints_from_run {S A} method (q : string -> result A) endpoints (w : world S) :
  tryRPCEndpoints_from (rpc_query method q) endpoints w =
  (mk_world (w_state w) (w_trace w ++ query_events method q endpoints),
   query_outcome q endpoints).
Proof.
  rewrite tryRPCEndpoints_from_query. unfold query_events, query_outcome.
  destruct (first_success q endpoints). reflexivity.
Qed.

(** ** The scenarios of spec 8 *)

(** Endpoint ["A"] is down, ["B"] answers [7]. *)
Definition scenario_query (ep : string) : result nat :=
  if String.eqb ep "B" then Ok 7 else Throw (Error "503 Service Unavailable").

(** [absent, "A", "B"]: the absent entry is skipped, ["A"] is tried and
    logged, ["B"]'s value is returned. *)
Lemma tryRPCEndpoints_first_success_witness :
  let '(w', r) := tryRPCEndpoints_from (S := unit) (rpc_query "getBalance" scenario_query)
                    ([None; Some "A"] ++ [Some "B"]) (mk_world tt []) in
  r = Ok 7 /\ connections (w_trace w') = ["A"; "B"] /\
  console_lines (w_trace w') = [endpoint_error_msg "A"].
Proof.
  assert (Hf : all_fail scenario_query [None; Some "A"])
    by (intros ep Hin; simpl in Hin; destruct Hin as [<-|[]]; eexists; reflexivity).
  pose proof (tryRPCEndpoints_first_success (S := unit) "getBalance" scenario_query
                [None; Some "A"] (Some "B") "B" [] 7 (mk_world tt []) Hf eq_refl eq_refl) as H.
  destruct (tryRPCEndpoints_from _ _ _) as [w' r].
  destruct H as (Hr & _ & new & Htr & Hc & Hl). simpl in Htr. rewrite Htr.
  split; [exact Hr | split; [exact Hc | exact Hl]].
Defined.

(** An empty environment variable and two failing endpoints: [""] is
    skipped, ["A"] and ["C"] are tried, the runner rejects. *)
Lemma tryRPCEndpoints_all_fail_witness :
  let '(w', r) := tryRPCEndpoints_from (S := unit) (rpc_query "getBalance" scenario_query)
                    [Some ""; Some "A"; None; Some "C"] (mk_world tt []) in
  r = Throw all_failed /\ connections (w_trace w') = ["A"; "C"].
Proof.
  assert (Hf : all_fail scenario_query [Some ""; Some "A"; None; Some "C"])
    by (intros ep Hin; simpl in Hin; destruct Hin as [<-|[<-|[]]]; eexists; reflexivity).
  pose proof (tryRPCEndpoints_all_fail (S := unit) "getBalance" scenario_query
                [Some ""; Some "A"; None; Some "C"] (mk_world tt []) Hf) as H.
  destruct (tryRPCEndpoints_from _ _ _) as [w' r].
  destruct H as (Hr & _ & new & Htr & Hc & _). simpl in Htr. rewrite Htr.
  split; [exact Hr | exact Hc].
Defined.
