(* ===== verification/Dashboard.v ===== *)
(** * The dashboard component: state, handlers and the fetch cycle

    [DashboardState] holds the eight [useState] hooks of
    [dashboard/page.tsx] (lines 29-36).  The handlers are [JS] programs
    over it: [toggleBalance] (55-57), [resetState] (75-83),
    [fetchAllData] (85-112).  The two identical [useEffect] hooks
    (67-73 and 114-120) call [fetchAllData] without awaiting it, so both
    run their synchronous prefix before either cycle resumes: they are
    modelled in [Async] ([run_hook], [run_hooks]).  The remote oracle
    [R] and the environment variable [env] are section variables.

    [fetch_spec] and [cycle_events] describe the final state and the
    events of one cycle from the answers of the remote services; the
    cycle is proved to compute them, and the theorems about each branch
    (ready, portfolio failure, transaction failure) follow. *)

From Stdlib Require Import String List Bool QArith.
From S2P Require Import Prelude JsRuntime Web3Api Endpoints.
Import ListNotations.
Open Scope string_scope.
Open Scope list_scope.
Local Open Scope js_scope.

Record DashboardState := mkState {
  solBalance : option Q;
  solPrice : option Q;
  tokenAccounts : list TokenAccount;
  stakeAccounts : list StakeAccount;
  loading : bool;
  error : option string;
  showBalance : bool;
  transactions : list SimplifiedTransactionDetail
}.

(** The initial values of the [useState] calls. *)
Definition initialState : DashboardState :=
  mkState None None [] [] false None false [].

(** ** The state setters *)

Definition with_solBalance v s :=
  mkState v (solPrice s) (tokenAccounts s) (stakeAccounts s) (loading s) (error s)
    (showBalance s) (transactions s).
Definition with_solPrice v s :=
  mkState (solBalance s) v (tokenAccounts s) (stakeAccounts s) (loading s) (error s)
    (showBalance s) (transactions s).
Definition with_tokenAccounts v s :=
  mkState (solBalance s) (solPrice s) v (stakeAccounts s) (loading s) (error s)
    (showBalance s) (transactions s).
Definition with_stakeAccounts v s :=
  mkState (solBalance s) (solPrice s) (tokenAccounts s) v (loading s) (error s)
    (showBalance s) (transactions s).
Definition with_loading v s :=
  mkState (solBalance s) (solPrice s) (tokenAccounts s) (stakeAccounts s) v (error s)
    (showBalance s) (transactions s).
Definition with_error v s :=
  mkState (solBalance s) (solPrice s) (tokenAccounts s) (stakeAccounts s) (loading s) v
    (showBalance s) (transactions s).
Definition with_showBalance v s :=
  mkState (solBalance s) (solPrice s) (tokenAccounts s) (stakeAccounts s) (loading s)
    (error s) v (transactions s).
Definition with_transactions v s :=
  mkState (solBalance s) (solPrice s) (tokenAccounts s) (stakeAccounts s) (loading s)
    (error s) (showBalance s) v.

Definition setSolBalance v : JS DashboardState unit := setState (with_solBalance v).
Definition setSolPrice v : JS DashboardState unit := setState (with_solPrice v).
Definition setTokenAccounts v : JS DashboardState unit := setState (with_tokenAccounts v).
Definition setStakeAccounts v : JS DashboardState unit := setState (with_stakeAccounts v).
Definition setLoading v : JS DashboardState unit := setState (with_loading v).
Definition setError v : JS DashboardState unit := setState (with_error v).
Definition setShowBalance (f : bool -> bool) : JS DashboardState unit :=
  setState (fun s => with_showBalance (f (showBalance s)) s).
Definition setTransactions v : JS DashboardState unit := setState (with_transactions v).

(** ** Handlers *)

Definition toggleBalance : JS DashboardState unit :=
  setShowBalance (fun prevShowBalance => negb prevShowBalance).

Definition resetState : JS DashboardState unit :=
  setSolBalance None;;
  setSolPrice None;;
  setTokenAccounts [];;
  setStakeAccounts [];;
  setTransactions [];;
  setError None;;
  setLoading false.

Definition fetch_error_msg : string := "Error fetching data. Please try again later.".

Section Cycle.
Variable R : Remote.
Variable env : option string.

(** The segments of [fetchAllData] between its [await]s, named so that
    the interleaving semantics of [Async] can run them one at a time. *)
Definition fetch_start : JS DashboardState unit :=
  setLoading true;;
  setError None.

Definition portfolio_batch (pk : PublicKey)
    : JS DashboardState (Q * Q * list TokenAccount * list StakeAccount) :=
  promise_all4
    (tryRPCEndpoints env (getSolBalance R pk))
    (getSolPriceInUSD R)
    (tryRPCEndpoints env (getTokenAccounts R pk))
    (tryRPCEndpoints env (getStakeAccounts R pk)).

Definition apply_portfolio (v : Q * Q * list TokenAccount * list StakeAccount)
    : JS DashboardState unit :=
  let '(balance, price, tokenData, stakeData) := v in
  setSolBalance (Some balance);;
  setSolPrice (Some price);;
  setTokenAccounts tokenData;;
  setStakeAccounts stakeData.

Definition tx_fetch (pk : PublicKey) : JS DashboardState (list SimplifiedTransactionDetail) :=
  tryRPCEndpoints env (fetchTransactions R pk).

Definition fetch_catch (err : exn) : JS DashboardState unit :=
  console_error "Error fetching data:" err;;
  setError (Some fetch_error_msg).

Definition fetch_finally : JS DashboardState unit := setLoading false.

Definition fetchAllData (publicKey : option PublicKey) : JS DashboardState unit :=
  match publicKey with
  | None => js_ret tt
  | Some pk =>
      fetch_start;;
      try_finally
        (try_catch
           (v <- portfolio_batch pk;;
            apply_portfolio v;;
            txData <- tx_fetch pk;;
            setTransactions txData)
           fetch_catch)
        fetch_finally
  end.

End Cycle.

(** ** What one cycle computes *)

(** The answers the remote services give to one cycle. *)
Record answers := mkAnswers {
  ans_balance : result Q;
  ans_price : result Q;
  ans_tokens : result (list TokenAccount);
  ans_stakes : result (list StakeAccount);
  ans_txs : result (list SimplifiedTransactionDetail)
}.

Section CycleSpec.
Variable R : Remote.
Variable env : option string.

Definition cycle_answers (pk : PublicKey) : answers :=
  mkAnswers
    (query_outcome (fun ep => rpc_getBalance R ep pk) (RPC_ENDPOINTS env))
    (price_api R)
    (query_outcome (fun ep => rpc_getTokenAccounts R ep pk) (RPC_ENDPOINTS env))
    (query_outcome (fun ep => rpc_getStakeAccounts R ep pk) (RPC_ENDPOINTS env))
    (query_outcome (fun ep => rpc_getTransactions R ep pk) (RPC_ENDPOINTS env)).

Definition portfolio_events (pk : PublicKey) : list event :=
  query_events "getBalance" (fun ep => rpc_getBalance R ep pk) (RPC_ENDPOINTS env) ++
  [ev_http "getSolPriceInUSD"] ++
  query_events "getParsedTokenAccountsByOwner"
    (fun ep => rpc_getTokenAccounts R ep pk) (RPC_ENDPOINTS env) ++
  query_events "getParsedProgramAccounts"
    (fun ep => rpc_getStakeAccounts R ep pk) (RPC_ENDPOINTS env).

Definition tx_events (pk : PublicKey) : list event :=
  query_events "getSignaturesForAddress" (fun ep => rpc_getTransactions R ep pk)
    (RPC_ENDPOINTS env).

Definition portfolio_answer (a : answers) :=
  all4 (ans_balance a) (ans_price a) (ans_tokens a) (ans_stakes a).

Definition cycle_events (pk : PublicKey) : list event :=
  portfolio_events pk ++
  match portfolio_answer (cycle_answers pk) with
  | Throw e => [ev_console_error "Error fetching data:" e]
  | Ok _ =>
      tx_events pk ++
      match ans_txs (cycle_answers pk) with
      | Ok _ => []
      | Throw e => [ev_console_error "Error fetching data:" e]
      end
  end.

End CycleSpec.

(** The state after the portfolio batch resolved with [v]. *)
Definition with_portfolio (v : Q * Q * list TokenAccount * list StakeAccount) s :=
  let '(b, p, t, st) := v in
  with_stakeAccounts st (with_tokenAccounts t (with_solPrice (Some p) (with_solBalance (Some b) s))).

Definition fetch_spec (s : DashboardState) (a : answers) : DashboardState :=
  let s0 := with_error None (with_loading true s) in
  match portfolio_answer a with
  | Throw _ => with_loading false (with_error (Some fetch_error_msg) s0)
  | Ok v =>
      let s1 := with_portfolio v s0 in
      match ans_txs a with
      | Ok tx => with_loading false (with_transactions tx s1)
      | Throw _ => with_loading false (with_error (Some fetch_error_msg) s1)
      end
  end.

(** ** Runs of the segments *)

Section Runs.
Variable R : Remote.
Variable env : option string.

Lemma portfolio_batch_run pk (w : world DashboardState) :
  portfolio_batch R env pk w =
  (mk_world (w_state w) (w_trace w ++ portfolio_events R env pk),
   portfolio_answer (cycle_answers R env pk)).
Proof.
  destruct w as [st tr].
  unfold portfolio_batch, promise_all4, tryRPCEndpoints, getSolBalance,
    getTokenAccounts, getStakeAccounts.
  rewrite tryRPCEndpoints_from_run. cbn -[tryRPCEndpoints_from RPC_ENDPOINTS].
  rewrite tryRPCEndpoints_from_run. cbn -[tryRPCEndpoints_from RPC_ENDPOINTS].
  rewrite tryRPCEndpoints_from_run. cbn -[tryRPCEndpoints_from RPC_ENDPOINTS query_events].
  unfold portfolio_events. rewrite <- !app_assoc. reflexivity.
Qed.

Lemma tx_fetch_run pk (w : world DashboardState) :
  tx_fetch R env pk w =
  (mk_world (w_state w) (w_trace w ++ tx_events R env pk), ans_txs (cycle_answers R env pk)).
Proof. unfold tx_fetch, tryRPCEndpoints, fetchTransactions. apply tryRPCEndpoints_from_run. Qed.

End Runs.

(** ** Runs of the handlers *)

Section Handlers.
Variable R : Remote.
Variable env : option string.

(** One cycle ends in the state [fetch_spec] describes, after the events
    [cycle_events]; it never rejects: its [catch] takes every error. *)
Lemma fetchAllData_run pk (w : world DashboardState) :
  fetchAllData R env (Some pk) w =
  (mk_world (fetch_spec (w_state w) (cycle_answers R env pk))
            (w_trace w ++ cycle_events R env pk), Ok tt).
Proof.
  destruct w as [st tr].
  unfold fetchAllData, fetch_start, try_finally, try_catch, js_bind at 1 2 3.
  cbn -[portfolio_batch tx_fetch cycle_answers cycle_events fetch_spec].
  rewrite portfolio_batch_run.
  unfold fetch_spec, cycle_events.
  destruct (portfolio_answer (cycle_answers R env pk)) as [v|e].
  - destruct v as [[[b p] t] s].
    cbn -[tx_fetch cycle_answers]. unfold js_bind. rewrite tx_fetch_run.
    destruct (ans_txs (cycle_answers R env pk));
      cbn; rewrite ?app_nil_r, <- ?app_assoc; reflexivity.
  - cbn. rewrite <- ?app_assoc. reflexivity.
Qed.

Lemma fetch_spec_idem s a : fetch_spec (fetch_spec s a) a = fetch_spec s a.
Proof.
  destruct s. unfold fetch_spec.
  destruct (portfolio_answer a) as [[[[b p] t] st]|e]; [destruct (ans_txs a)|];
    reflexivity.
Qed.

(** The state [resetState] leaves: everything cleared but the toggle. *)
Definition cleared (s : DashboardState) : DashboardState :=
  mkState None None [] [] false None (showBalance s) [].

Lemma resetState_run (w : world DashboardState) :
  resetState w = (mk_world (cleared (w_state w)) (w_trace w), Ok tt).
Proof. destruct w as [[] tr]. reflexivity. Qed.

End Handlers.

(** ** Theorems of the component *)

Section Theorems.
Variable R : Remote.
Variable env : option string.

(** C38. Spec 8: toggling the balance flips [showBalance], changes nothing
    else of the state and issues no request; toggling twice is the
    identity. *)
Theorem toggleBalance_spec (w : world DashboardState) :
  let s := w_state w in
  toggleBalance w =
  (mk_world (mkState (solBalance s) (solPrice s) (tokenAccounts s) (stakeAccounts s)
                     (loading s) (error s) (negb (showBalance s)) (transactions s))
            (w_trace w), Ok tt) /\
  js_bind toggleBalance (fun _ => toggleBalance) w = (w, Ok tt).
Proof.
  destruct w as [[b p t st l e sb tx] tr]; destruct sb; split; reflexivity.
Qed.

(** C37. Spec 8: [resetState] clears the portfolio, the transactions, the
    error and the loading flag from any state, keeps the toggle, and
    issues no request. *)
Theorem resetState_clears (w : world DashboardState) :
  let '(w', r) := resetState w in
  r = Ok tt /\ w_trace w' = w_trace w /\
  solBalance (w_state w') = None /\ solPrice (w_state w') = None /\
  tokenAccounts (w_state w') = [] /\ stakeAccounts (w_state w') = [] /\
  transactions (w_state w') = [] /\ error (w_state w') = None /\
  loading (w_state w') = false /\ showBalance (w_state w') = showBalance (w_state w).
Proof. rewrite resetState_run. repeat split. Qed.

(** C4. Spec 4.4, Loading -> Ready: when the five answers succeed, the cycle
    ends with the new portfolio and transactions, no error, not loading,
    and the toggle as it was. *)
Theorem fetchAllData_ready pk b p t st tx (w : world DashboardState) :
  cycle_answers R env pk = mkAnswers (Ok b) (Ok p) (Ok t) (Ok st) (Ok tx) ->
  w_state (fst (fetchAllData R env (Some pk) w)) =
  mkState (Some b) (Some p) t st false None (showBalance (w_state w)) tx.
Proof.
  intros Ha. rewrite fetchAllData_run, Ha. reflexivity.
Qed.

(** C5. When one of the four portfolio queries fails, the cycle sets the
    error and clears the loading flag but keeps the portfolio and the
    transactions of the previous cycle: the code does not discard prior
    data, contrary to spec 4.4 and 7. *)
Theorem fetchAllData_portfolio_failure pk e (w : world DashboardState) :
  portfolio_answer (cycle_answers R env pk) = Throw e ->
  let s := w_state w in
  w_state (fst (fetchAllData R env (Some pk) w)) =
  mkState (solBalance s) (solPrice s) (tokenAccounts s) (stakeAccounts s)
          false (Some fetch_error_msg) (showBalance s) (transactions s).
Proof.
  intros Hp. rewrite fetchAllData_run. simpl. unfold fetch_spec. rewrite Hp. reflexivity.
Qed.

(** C6. When the portfolio batch succeeds and the transaction query fails,
    the state mixes two cycles: the new portfolio beside the previous
    cycle's transactions, with the error set.  Spec 8 says the portfolio
    is cleared too. *)
Theorem fetchAllData_tx_failure pk v e (w : world DashboardState) :
  portfolio_answer (cycle_answers R env pk) = Ok v ->
  ans_txs (cycle_answers R env pk) = Throw e ->
  let s := w_state w in
  w_state (fst (fetchAllData R env (Some pk) w)) =
  with_portfolio v (mkState (solBalance s) (solPrice s) (tokenAccounts s) (stakeAccounts s)
                            false (Some fetch_error_msg) (showBalance s) (transactions s)).
Proof.
  intros Hp Ht. rewrite fetchAllData_run. simpl. unfold fetch_spec. rewrite Hp, Ht.
  destruct v as [[[b p] t] st]. reflexivity.
Qed.

End Theorems.

(** ** The scenarios of spec 8 *)

Definition sample_tx : SimplifiedTransactionDetail :=
  mkTx "5VERv8NMvzbJMEkV8xnrLkEaWRtSz9CosKDYjCJjBRnb" "Transfer" "success" "6/1/2024".

(** A wallet with 0.82 SOL and no token or stake account. *)
Definition zero_accounts_remote : Remote :=
  mkRemote (fun _ _ => Ok (41 # 50)) (Ok 150) (fun _ _ => Ok []) (fun _ _ => Ok [])
           (fun _ _ => Ok [sample_tx]).

(** Every RPC endpoint rate-limits the balance query. *)
Definition balance_down_remote : Remote :=
  mkRemote (fun _ _ => Throw (Error "429 Too Many Requests")) (Ok 150)
           (fun _ _ => Ok []) (fun _ _ => Ok []) (fun _ _ => Ok [sample_tx]).

(** Every RPC endpoint fails the transaction query. *)
Definition tx_down_remote : Remote :=
  mkRemote (fun _ _ => Ok (41 # 50)) (Ok 150) (fun _ _ => Ok []) (fun _ _ => Ok [])
           (fun _ _ => Throw (Error "504 Gateway Timeout")).

(** The state of an earlier cycle for another wallet. *)
Definition earlier_state : DashboardState :=
  mkState (Some 3) (Some 140) [mkTokenAccount "TokA" 5] [] false None true
          [mkTx "3xPr" "Swap" "success" "5/30/2024"].

(** Zero token and zero stake accounts is a successful cycle. *)
Lemma fetchAllData_ready_witness :
  w_state (fst (fetchAllData zero_accounts_remote None (Some "Wallet1")
                             (mk_world initialState []))) =
  mkState (Some (41 # 50)) (Some 150) [] [] false None false [sample_tx].
Proof.
  apply (fetchAllData_ready zero_accounts_remote None "Wallet1" _ _ [] [] [sample_tx]).
  reflexivity.
Defined.

(** A failed balance query leaves the earlier cycle's data in place. *)
Lemma fetchAllData_portfolio_failure_witness :
  w_state (fst (fetchAllData balance_down_remote None (Some "Wallet1")
                             (mk_world earlier_state []))) =
  mkState (Some 3) (Some 140) [mkTokenAccount "TokA" 5] [] false
          (Some fetch_error_msg) true [mkTx "3xPr" "Swap" "success" "5/30/2024"].
Proof.
  apply (fetchAllData_portfolio_failure balance_down_remote None "Wallet1" all_failed).
  reflexivity.
Defined.

(** Spec 8's last scenario: the portfolio succeeds, the transaction query
    exhausts the endpoints; the new balance is shown beside the earlier
    cycle's transactions. *)
Lemma fetchAllData_tx_failure_witness :
  w_state (fst (fetchAllData tx_down_remote None (Some "Wallet1")
                             (mk_world earlier_state []))) =
  mkState (Some (41 # 50)) (Some 150) [] [] false (Some fetch_error_msg) true
          [mkTx "3xPr" "Swap" "success" "5/30/2024"].
Proof.
  apply (fetchAllData_tx_failure tx_down_remote None "Wallet1" (41 # 50, 150, [], [])
           all_failed); reflexivity.
Defined.

