(* ===== verification/Async.v ===== *)
(** * The interleaving semantics of the dashboard

    JavaScript runs one segment of an [async] function at a time, between
    two [await]s.  [fetchAllData] has three segments: the synchronous
    prefix (lines 86-97: guard, [setLoading(true)], [setError(null)], and
    the four calls of [Promise.all], which issue their requests), the
    resumption after [Promise.all] (99-104: the portfolio setters and the
    transaction call) and the resumption after the transaction fetch
    (105-111).  A rejection jumps to [catch] and [finally].

    An [astate] is the component's world, the dependencies
    [(connected, publicKey)] of the last render that ran the effects, and
    the cycles suspended at an [await], each with the key its closure
    captured and the outcome its pending promise will deliver (the
    remote oracle is deterministic, so the outcome is known when the
    request is issued; only the moment it is delivered is not).  The
    labelled relation [astep] has one rule per event: a wallet change
    runs both [useEffect] hooks, a click runs [toggleBalance], and any
    suspended cycle may resume.  [steps] is its reflexive-transitive
    closure along a list of labels.

    The theorems: invariants of every reachable state, liveness, the
    refinement of the sequential [fetchAllData] by one uninterrupted
    cycle, the convergence of the duplicated cycles of one wallet, and
    the races that a wallet change or a disconnect opens. *)

From Stdlib Require Import String List Bool QArith.
From S2P Require Import Prelude JsRuntime Web3Api Endpoints Dashboard.
Import ListNotations.
Open Scope string_scope.
Open Scope list_scope.
Local Open Scope js_scope.

Definition deps := (bool * option PublicKey)%type.

Definition deps_eq_dec (x y : deps) : {x = y} + {x <> y}.
Proof. repeat decide equality; apply string_dec. Defined.

(** React runs the effects when a dependency changed since the last
    render that ran them, and on the first render. *)
Definition deps_changed (last : option deps) (d : deps) : bool :=
  match last with
  | Some d' => if deps_eq_dec d' d then false else true
  | None => true
  end.

(** What a suspended cycle waits for. *)
Inductive pending :=
| AwaitPortfolio (r : result (Q * Q * list TokenAccount * list StakeAccount))
| AwaitTransactions (r : result (list SimplifiedTransactionDetail)).

Record task := mkTask { t_key : PublicKey; t_pending : pending }.

Record astate := mkAState {
  ui : world DashboardState;
  rendered : option deps;
  tasks : list task
}.

(** Before the first render: initial state, no effect run yet. *)
Definition init_astate : astate := mkAState (mk_world initialState []) None [].

Inductive label :=
| l_wallet (connected : bool) (publicKey : option PublicKey)
| l_toggle
| l_resume (pk : PublicKey).

Section Semantics.
Variable R : Remote.
Variable env : option string.

(** The synchronous prefix of [fetchAllData(pk)]. *)
Definition start_cycle (pk : PublicKey) (w : world DashboardState)
    : world DashboardState * task :=
  let '(w1, _) := fetch_start w in
  let '(w2, r) := portfolio_batch R env pk w1 in
  (w2, mkTask pk (AwaitPortfolio r)).

(** One hook body up to its first [await]. *)
Definition run_hook (connected : bool) (publicKey : option PublicKey)
    (c : world DashboardState * list task) : world DashboardState * list task :=
  let '(w, ts) := c in
  match connected, publicKey with
  | true, Some pk => let '(w', t) := start_cycle pk w in (w', ts ++ [t])
  | _, _ => (fst (resetState w), ts)
  end.

(** Both hooks, in declaration order. *)
Definition run_hooks (connected : bool) (publicKey : option PublicKey)
    (c : world DashboardState * list task) : world DashboardState * list task :=
  run_hook connected publicKey (run_hook connected publicKey c).

(** Where the promise rejects: [catch] then [finally]. *)
Definition settle_error (e : exn) (w : world DashboardState) : world DashboardState :=
  fst (try_finally (fetch_catch e) fetch_finally w).

(** The resumption of a suspended cycle: the next world, and the cycle
    if it suspends again. *)
Definition resume (t : task) (w : world DashboardState)
    : world DashboardState * option task :=
  match t_pending t with
  | AwaitPortfolio (Ok v) =>
      let '(w1, _) := apply_portfolio v w in
      let '(w2, r) := tx_fetch R env (t_key t) w1 in
      (w2, Some (mkTask (t_key t) (AwaitTransactions r)))
  | AwaitPortfolio (Throw e) => (settle_error e w, None)
  | AwaitTransactions (Ok txData) =>
      (fst (try_finally (setTransactions txData) fetch_finally w), None)
  | AwaitTransactions (Throw e) => (settle_error e w, None)
  end.

Definition option_to_list {A} (o : option A) : list A :=
  match o with Some x => [x] | None => [] end.

Inductive astep : astate -> label -> astate -> Prop :=
| astep_wallet s connected publicKey w' ts' :
    deps_changed (rendered s) (connected, publicKey) = true ->
    run_hooks connected publicKey (ui s, tasks s) = (w', ts') ->
    astep s (l_wallet connected publicKey)
          (mkAState w' (Some (connected, publicKey)) ts')
| astep_toggle s :
    astep s l_toggle (mkAState (fst (toggleBalance (ui s))) (rendered s) (tasks s))
| astep_resume s pre t post w' next :
    tasks s = pre ++ t :: post ->
    resume t (ui s) = (w', next) ->
    astep s (l_resume (t_key t))
          (mkAState w' (rendered s) (pre ++ option_to_list next ++ post)).

Inductive steps : astate -> list label -> astate -> Prop :=
| steps_refl s : steps s [] s
| steps_cons s l s' ls s'' : astep s l s' -> steps s' ls s'' -> steps s (l :: ls) s''.

Definition reachable (s : astate) : Prop := exists ls, steps init_astate ls s.

(** ** An executable scheduler *)

(** A scheduling choice: a wallet change, a click, or the resumption of
    the [i]-th suspended cycle. *)
Inductive choice :=
| c_wallet (connected : bool) (publicKey : option PublicKey)
| c_toggle
| c_resume (i : nat).

Definition step_fun (s : astate) (ch : choice) : option (label * astate) :=
  match ch with
  | c_wallet connected publicKey =>
      if deps_changed (rendered s) (connected, publicKey) then
        let '(w', ts') := run_hooks connected publicKey (ui s, tasks s) in
        Some (l_wallet connected publicKey, mkAState w' (Some (connected, publicKey)) ts')
      else None
  | c_toggle => Some (l_toggle, mkAState (fst (toggleBalance (ui s))) (rendered s) (tasks s))
  | c_resume i =>
      match nth_error (tasks s) i with
      | None => None
      | Some t =>
          let '(w', next) := resume t (ui s) in
          Some (l_resume (t_key t),
                mkAState w' (rendered s)
                  (firstn i (tasks s) ++ option_to_list next ++ skipn (S i) (tasks s)))
      end
  end.
End Semantics.

#[export] Hint Constructors steps : dash.

(** ** What each segment does to the state *)

(** The state a resumption leaves, as a function of what it delivers. *)
Definition resume_effect (p : pending) (s : DashboardState) : DashboardState :=
  match p with
  | AwaitPortfolio (Ok v) => with_portfolio v s
  | AwaitPortfolio (Throw _) | AwaitTransactions (Throw _) =>
      with_loading false (with_error (Some fetch_error_msg) s)
  | AwaitTransactions (Ok txData) => with_loading false (with_transactions txData s)
  end.

(** The cycle a resumption suspends again, if any. *)
Definition resume_next (env_R : Remote * option string) (t : task) : option task :=
  match t_pending t with
  | AwaitPortfolio (Ok _) =>
      Some (mkTask (t_key t)
              (AwaitTransactions (ans_txs (cycle_answers (fst env_R) (snd env_R) (t_key t)))))
  | _ => None
  end.

Section Runs.
Variable R : Remote.
Variable env : option string.

Lemma start_cycle_run pk (w : world DashboardState) :
  start_cycle R env pk w =
  (mk_world (with_error None (with_loading true (w_state w)))
            (w_trace w ++ portfolio_events R env pk),
   mkTask pk (AwaitPortfolio (portfolio_answer (cycle_answers R env pk)))).
Proof.
  destruct w as [st tr]. unfold start_cycle. cbn -[portfolio_batch].
  rewrite portfolio_batch_run. reflexivity.
Qed.

Lemma apply_portfolio_run v (w : world DashboardState) :
  apply_portfolio v w = (mk_world (with_portfolio v (w_state w)) (w_trace w), Ok tt).
Proof. destruct v as [[[b p] t] st]. destruct w as [[] tr]. reflexivity. Qed.

Lemma resume_run t (w : world DashboardState) :
  w_state (fst (resume R env t w)) = resume_effect (t_pending t) (w_state w) /\
  snd (resume R env t w) = resume_next (R, env) t.
Proof.
  destruct t as [pk [[v|e]|[tx|e]]]; unfold resume; simpl;
    [rewrite apply_portfolio_run; simpl; rewrite tx_fetch_run|..];
    destruct w as [[] tr]; split; reflexivity.
Qed.

Lemma run_hook_run connected publicKey w ts :
  run_hook R env connected publicKey (w, ts) =
  match connected, publicKey with
  | true, Some pk =>
      (mk_world (with_error None (with_loading true (w_state w)))
                (w_trace w ++ portfolio_events R env pk),
       ts ++ [mkTask pk (AwaitPortfolio (portfolio_answer (cycle_answers R env pk)))])
  | _, _ => (mk_world (cleared (w_state w)) (w_trace w), ts)
  end.
Proof.
  unfold run_hook.
  destruct connected, publicKey; rewrite ?start_cycle_run, ?resetState_run; reflexivity.
Qed.

End Runs.

(** [nth_error] splits the list around the chosen element. *)
Lemma nth_error_split_firstn {A} (l : list A) i x :
  nth_error l i = Some x -> l = firstn i l ++ x :: skipn (S i) l.
Proof.
  revert i; induction l as [|y l IH]; intros [|i] H; simpl in *; try discriminate.
  - injection H as ->. reflexivity.
  - f_equal. now apply IH.
Qed.

Section Scheduler.
Variable R : Remote.
Variable env : option string.

Lemma step_fun_sound s ch l s' :
  step_fun R env s ch = Some (l, s') -> astep R env s l s'.
Proof.
  destruct ch as [c pk| |i]; simpl.
  - destruct (deps_changed (rendered s) (c, pk)) eqn:Hd; [|discriminate].
    destruct (run_hooks R env c pk (ui s, tasks s)) as [w' ts'] eqn:Hr.
    intros H; injection H as <- <-. now constructor.
  - intros H; injection H as <- <-. constructor.
  - destruct (nth_error (tasks s) i) as [t|] eqn:Hn; [|discriminate].
    destruct (resume R env t (ui s)) as [w' next] eqn:Hr.
    intros H; injection H as <- <-.
    eapply astep_resume; [|exact Hr]. now apply nth_error_split_firstn.
Qed.

(** Run a list of scheduling choices; [None] when one is not enabled. *)
Fixpoint run_schedule (s : astate) (chs : list choice) : option (list label * astate) :=
  match chs with
  | [] => Some ([], s)
  | ch :: chs' =>
      match step_fun R env s ch with
      | None => None
      | Some (l, s1) =>
          match run_schedule s1 chs' with
          | None => None
          | Some (ls, s2) => Some (l :: ls, s2)
          end
      end
  end.

Lemma run_schedule_sound s chs ls s' :
  run_schedule s chs = Some (ls, s') -> steps R env s ls s'.
Proof.
  revert s ls; induction chs as [|ch chs IH]; intros s ls; simpl.
  - intros H; injection H as <- <-. constructor.
  - destruct (step_fun R env s ch) as [[l s1]|] eqn:Hs; [|discriminate].
    destruct (run_schedule s1 chs) as [[ls1 s2]|] eqn:Hr; [|discriminate].
    intros H; injection H as <- <-.
    econstructor; [eapply step_fun_sound; exact Hs | now apply IH].
Qed.

Lemma steps_trans s ls s' ls' s'' :
  steps R env s ls s' -> steps R env s' ls' s'' -> steps R env s (ls ++ ls') s''.
Proof. induction 1; simpl; eauto with dash. Qed.

End Scheduler.

(** ** Invariants of the reachable states *)

Definition error_wf (s : DashboardState) : Prop :=
  error s = None \/ error s = Some fetch_error_msg.

Definition inv (s : astate) : Prop :=
  error_wf (w_state (ui s)) /\ (loading (w_state (ui s)) = true -> tasks s <> []).

Lemma resume_effect_error p s :
  error_wf s -> error_wf (resume_effect p s).
Proof. unfold error_wf. destruct p as [[[[[b pr] t] st]|e]|[tx|e]]; simpl; auto. Qed.

Lemma resume_effect_showBalance p s :
  showBalance (resume_effect p s) = showBalance s.
Proof. destruct p as [[[[[b pr] t] st]|e]|[tx|e]]; reflexivity. Qed.

Section Invariants.
Variable R : Remote.
Variable env : option string.

Lemma run_hooks_run connected publicKey w ts :
  exists w' ts', run_hooks R env connected publicKey (w, ts) = (w', ts') /\
    showBalance (w_state w') = showBalance (w_state w) /\
    error (w_state w') = None /\
    (loading (w_state w') = true -> ts' <> []).
Proof.
  unfold run_hooks. rewrite !run_hook_run.
  destruct connected, publicKey; rewrite ?run_hook_run; simpl;
    do 2 eexists; (split; [reflexivity|]); simpl; repeat split;
    try discriminate; intros _ Hnil; apply app_eq_nil in Hnil as [_ ?]; discriminate.
Qed.

Lemma astep_inv s l s' : inv s -> astep R env s l s' -> inv s'.
Proof.
  intros [He Hl] Hs; unfold inv.
  destruct Hs as [s c pk w' ts' _ Hr|s|s pre t post w' next Ht Hr]; simpl.
  - destruct (run_hooks_run c pk (ui s) (tasks s)) as (w2 & ts2 & Hr2 & _ & Herr & Hload).
    rewrite Hr in Hr2. injection Hr2 as -> ->. split; [left; exact Herr | exact Hload].
  - destruct (ui s) as [[] tr]. split; [exact He | exact Hl].
  - destruct (resume_run R env t (ui s)) as [Hst Hnext].
    rewrite Hr in Hst, Hnext. simpl in Hst, Hnext. rewrite Hst.
    split; [now apply resume_effect_error|].
    destruct t as [pk [[v|e]|[tx|e]]]; simpl in *; subst next;
      [intros _ Hnil; destruct pre; discriminate | discriminate ..].
Qed.

Lemma steps_inv s ls s' : inv s -> steps R env s ls s' -> inv s'.
Proof. intros Hs H; induction H; eauto using astep_inv. Qed.

Lemma reachable_inv s : reachable R env s -> inv s.
Proof.
  intros [ls H]. eapply steps_inv; [|exact H].
  split; [left; reflexivity | discriminate].
Qed.

End Invariants.

(** ** Theorems of the interleaving semantics *)

Section Theorems.
Variable R : Remote.
Variable env : option string.

Lemma schedule_reachable chs ls s :
  run_schedule R env init_astate chs = Some (ls, s) -> reachable R env s.
Proof. intros H. exists ls. eapply run_schedule_sound; exact H. Qed.

(** C19. In every reachable state the error is absent or the one fixed
    message of the catch block (spec 7: no per-field error). *)
Theorem reachable_error_wf s :
  reachable R env s ->
  error (w_state (ui s)) = None \/ error (w_state (ui s)) = Some fetch_error_msg.
Proof. intros H. exact (proj1 (reachable_inv R env s H)). Qed.

(** C20. In every reachable state, a set loading flag means some cycle is
    suspended: the spinner never stays on with nothing in flight. *)
Theorem reachable_loading_has_task s :
  reachable R env s -> loading (w_state (ui s)) = true -> tasks s <> [].
Proof. intros H. exact (proj2 (reachable_inv R env s H)). Qed.

(** C36. Spec 8: only the toggle changes the balance visibility; wallet
    changes and fetch cycles never do. *)
Theorem astep_showBalance s l s' :
  astep R env s l s' -> l <> l_toggle ->
  showBalance (w_state (ui s')) = showBalance (w_state (ui s)).
Proof.
  intros Hs Hl; destruct Hs as [s c pk w' ts' _ Hr|s|s pre t post w' next Ht Hr]; simpl.
  - destruct (run_hooks_run R env c pk (ui s) (tasks s)) as (w2 & ts2 & Hr2 & Hsb & _).
    rewrite Hr in Hr2. injection Hr2 as -> ->. exact Hsb.
  - congruence.
  - destruct (resume_run R env t (ui s)) as [Hst _].
    rewrite Hr in Hst. simpl in Hst. rewrite Hst. apply resume_effect_showBalance.
Qed.

(** C7. Refinement of the cycle's specification: a cycle whose segments
    run with nothing in between ends, after at most two resumptions and
    without suspending again, in the state [fetch_spec] prescribes for
    the services' answers (ready, portfolio failure or transaction
    failure, each with the loading flag off) after exactly the requests
    and logs of [cycle_events]. *)
Theorem uninterrupted_cycle_refines pk (w : world DashboardState) :
  let '(w1, t) := start_cycle R env pk w in
  let '(w2, next) := resume R env t w1 in
  match next with
  | None => w2
  | Some t' => fst (resume R env t' w2)
  end = mk_world (fetch_spec (w_state w) (cycle_answers R env pk))
                 (w_trace w ++ cycle_events R env pk) /\
  match next with
  | None => True
  | Some t' => snd (resume R env t' w2) = None
  end.
Proof.
  rewrite start_cycle_run. destruct w as [st tr].
  unfold fetch_spec, cycle_events, resume.
  cbn -[cycle_answers portfolio_answer tx_fetch apply_portfolio].
  destruct (portfolio_answer (cycle_answers R env pk)) as [v|e];
    cbn -[cycle_answers tx_fetch apply_portfolio].
  - rewrite apply_portfolio_run, tx_fetch_run. cbn -[cycle_answers].
    destruct (ans_txs (cycle_answers R env pk)); cbn -[cycle_answers];
      rewrite ?app_nil_r, <- ?app_assoc; split; reflexivity.
  - rewrite <- ?app_assoc. split; reflexivity.
Qed.

(** C18. Spec 8: on a disconnected wallet or a missing key both hooks
    run [resetState]: the state is cleared (not loading, no error, no
    portfolio, no transactions, the toggle kept), no request is issued
    and no cycle is started; the cycles already suspended stay. *)
Theorem run_hooks_disconnected_reset connected publicKey w ts :
  connected && is_some publicKey = false ->
  run_hooks R env connected publicKey (w, ts) =
  (mk_world (cleared (w_state w)) (w_trace w), ts).
Proof.
  destruct connected, publicKey; intros H; [discriminate H|..];
    unfold run_hooks; rewrite !run_hook_run; reflexivity.
Qed.

End Theorems.

(** ** Races *)

Section Races.
Variable R : Remote.
Variable env : option string.

(** The state a cycle leaves when it is resumed to its end. *)
Definition finish_effect (t : task) (s : DashboardState) : DashboardState :=
  match t_pending t with
  | AwaitPortfolio (Ok v) =>
      resume_effect (AwaitTransactions (ans_txs (cycle_answers R env (t_key t))))
                    (with_portfolio v s)
  | p => resume_effect p s
  end.

Definition cycle_task (pk : PublicKey) : task :=
  mkTask pk (AwaitPortfolio (portfolio_answer (cycle_answers R env pk))).

(** Any suspended cycle can be run to its end, in one or two steps,
    whatever else is suspended. *)
Definition resumes_only (ls : list label) : Prop :=
  Forall (fun l => exists pk, l = l_resume pk) ls.

Lemma task_completes s pre t post :
  tasks s = pre ++ t :: post ->
  exists ls s', steps R env s ls s' /\ resumes_only ls /\ tasks s' = pre ++ post /\
    rendered s' = rendered s /\ w_state (ui s') = finish_effect t (w_state (ui s)).
Proof.
  intros Ht.
  destruct (resume R env t (ui s)) as [w1 next] eqn:Hr.
  destruct (resume_run R env t (ui s)) as [Hst Hnext]. rewrite Hr in Hst, Hnext.
  simpl in Hst, Hnext.
  pose proof (astep_resume R env s pre t post w1 next Ht Hr) as Hs1.
  unfold finish_effect.
  destruct t as [pk [[v|e]|[tx|e]]]; simpl in Hnext |- *; subst next;
    [|exists [l_resume pk], (mkAState w1 (rendered s) (pre ++ [] ++ post));
      split; [eapply steps_cons; [exact Hs1 | constructor]|];
      split; [repeat constructor; eauto|]; simpl; rewrite ?Hst; auto ..].
  set (t' := mkTask pk (AwaitTransactions (ans_txs (cycle_answers R env pk)))) in *.
  set (s1 := mkAState w1 (rendered s) (pre ++ [t'] ++ post)) in *.
  destruct (resume R env t' w1) as [w2 next2] eqn:Hr2.
  destruct (resume_run R env t' w1) as [Hst2 Hnext2]. rewrite Hr2 in Hst2, Hnext2.
  simpl in Hst2, Hnext2.
  pose proof (astep_resume R env s1 pre t' post w2 next2 eq_refl Hr2) as Hs2.
  exists [l_resume pk; l_resume pk], (mkAState w2 (rendered s) (pre ++ option_to_list next2 ++ post)).
  split; [eapply steps_cons; [exact Hs1 | eapply steps_cons; [exact Hs2 | constructor]]|].
  split; [repeat constructor; eauto|]. simpl. rewrite Hst2, Hst. unfold t' in Hnext2 |- *.
  destruct (ans_txs (cycle_answers R env pk)); simpl in Hnext2; subst next2; auto.
Qed.

Lemma run_hooks_connected pk w ts :
  exists w', run_hooks R env true (Some pk) (w, ts) = (w', ts ++ [cycle_task pk; cycle_task pk]).
Proof.
  unfold run_hooks. rewrite !run_hook_run. eexists. rewrite <- app_assoc. reflexivity.
Qed.

Lemma run_hooks_disconnected w ts :
  exists w', run_hooks R env false None (w, ts) = (w', ts).
Proof. unfold run_hooks. rewrite !run_hook_run. eexists. reflexivity. Qed.

Lemma finish_effect_ready pk b p t st tx s :
  cycle_answers R env pk = mkAnswers (Ok b) (Ok p) (Ok t) (Ok st) (Ok tx) ->
  finish_effect (cycle_task pk) s =
  with_loading false (with_transactions tx (with_portfolio (b, p, t, st) s)).
Proof. intros Ha. unfold finish_effect, cycle_task. cbn [t_key t_pending]. rewrite Ha. reflexivity. Qed.

(** C8. A wallet switch from [pkA] to [pkB] while [pkA]'s cycles are in
    flight: the cycles for [pkB] may finish first, and [pkA]'s land
    last, so the settled dashboard of wallet [pkB] shows [pkA]'s balance
    and transactions (spec 5 and 9: last write wins, no cycle guard). *)
Theorem stale_cycle_after_wallet_switch pkA pkB b p t st tx :
  pkA <> pkB ->
  cycle_answers R env pkA = mkAnswers (Ok b) (Ok p) (Ok t) (Ok st) (Ok tx) ->
  exists ls s, steps R env init_astate ls s /\
    rendered s = Some (true, Some pkB) /\ tasks s = [] /\ loading (w_state (ui s)) = false /\
    solBalance (w_state (ui s)) = Some b /\ transactions (w_state (ui s)) = tx.
Proof.
  intros Hne Ha.
  destruct (run_hooks_connected pkA (ui init_astate) []) as [w1 H1].
  pose proof (astep_wallet R env init_astate true (Some pkA) w1 _ eq_refl H1) as S1.
  set (s1 := mkAState w1 (Some (true, Some pkA)) _) in S1.
  destruct (run_hooks_connected pkB w1 (tasks s1)) as [w2 H2].
  assert (Hd : deps_changed (rendered s1) (true, Some pkB) = true).
  { unfold s1; cbn [rendered deps_changed].
    destruct (deps_eq_dec _ _) as [E|E]; [injection E; congruence | reflexivity]. }
  pose proof (astep_wallet R env s1 true (Some pkB) w2 _ Hd H2) as S2.
  set (s2 := mkAState w2 _ _) in S2.
  destruct (task_completes s2 [cycle_task pkA; cycle_task pkA] (cycle_task pkB) [cycle_task pkB]
              eq_refl) as (ls3 & s3 & S3 & _ & T3 & R3 & _).
  destruct (task_completes s3 [cycle_task pkA; cycle_task pkA] (cycle_task pkB) []
              T3) as (ls4 & s4 & S4 & _ & T4 & R4 & _).
  destruct (task_completes s4 [] (cycle_task pkA) [cycle_task pkA] T4)
    as (ls5 & s5 & S5 & _ & T5 & R5 & _).
  destruct (task_completes s5 [] (cycle_task pkA) [] T5) as (ls6 & s6 & S6 & _ & T6 & R6 & E6).
  exists (l_wallet true (Some pkA) :: l_wallet true (Some pkB) :: ls3 ++ ls4 ++ ls5 ++ ls6), s6.
  split.
  - eapply steps_cons; [exact S1|]. eapply steps_cons; [exact S2|].
    eapply steps_trans; [exact S3|]. eapply steps_trans; [exact S4|].
    eapply steps_trans; [exact S5 | exact S6].
  - rewrite E6, (finish_effect_ready pkA b p t st tx _ Ha), R6, R5, R4, R3.
    repeat split; assumption.
Qed.

(** C9. A disconnect while a cycle is in flight: both hooks reset the state,
    then the cycle lands, so the disconnected dashboard holds the wallet's
    portfolio again (spec 8: disconnecting always clears the data). *)
Theorem stale_cycle_after_disconnect pk b p t st tx :
  cycle_answers R env pk = mkAnswers (Ok b) (Ok p) (Ok t) (Ok st) (Ok tx) ->
  exists ls s, steps R env init_astate ls s /\
    rendered s = Some (false, None) /\ tasks s = [] /\
    solBalance (w_state (ui s)) = Some b /\ transactions (w_state (ui s)) = tx.
Proof.
  intros Ha.
  destruct (run_hooks_connected pk (ui init_astate) []) as [w1 H1].
  pose proof (astep_wallet R env init_astate true (Some pk) w1 _ eq_refl H1) as S1.
  set (s1 := mkAState w1 (Some (true, Some pk)) _) in S1.
  destruct (run_hooks_disconnected w1 (tasks s1)) as [w2 H2].
  assert (Hd : deps_changed (rendered s1) (false, None) = true).
  { unfold s1; cbn [rendered deps_changed].
    destruct (deps_eq_dec _ _) as [E|E]; [discriminate E | reflexivity]. }
  pose proof (astep_wallet R env s1 false None w2 _ Hd H2) as S2.
  set (s2 := mkAState w2 _ _) in S2.
  destruct (task_completes s2 [] (cycle_task pk) [cycle_task pk] eq_refl)
    as (ls3 & s3 & S3 & _ & T3 & R3 & _).
  destruct (task_completes s3 [] (cycle_task pk) [] T3) as (ls4 & s4 & S4 & _ & T4 & R4 & E4).
  exists (l_wallet true (Some pk) :: l_wallet false None :: ls3 ++ ls4), s4.
  split.
  - eapply steps_cons; [exact S1|]. eapply steps_cons; [exact S2|].
    eapply steps_trans; [exact S3 | exact S4].
  - rewrite E4, (finish_effect_ready pk b p t st tx _ Ha), R4, R3.
    repeat split; assumption.
Qed.

End Races.

(** ** Settling *)

Section Settling.
Variable R : Remote.
Variable env : option string.

Lemma steps_reachable s ls s' :
  reachable R env s -> steps R env s ls s' -> reachable R env s'.
Proof. intros [ls0 H0] H. exists (ls0 ++ ls). eapply steps_trans; eauto. Qed.

(** Resuming the suspended cycles one after the other empties the list. *)
Lemma settle_all s :
  exists ls s', steps R env s ls s' /\ resumes_only ls /\ tasks s' = [] /\
                rendered s' = rendered s.
Proof.
  remember (tasks s) as ts eqn:Hts. revert s Hts.
  induction ts as [|t ts IH]; intros s Hts.
  - exists [], s. repeat split; [constructor | constructor | auto].
  - destruct (task_completes R env s [] t ts (eq_sym Hts)) as (ls1 & s1 & S1 & O1 & T1 & R1 & _).
    destruct (IH s1 (eq_sym T1)) as (ls2 & s2 & S2 & O2 & T2 & R2).
    exists (ls1 ++ ls2), s2.
    repeat split; [eapply steps_trans; eauto | apply Forall_app; auto | auto | congruence].
Qed.

(** C21. Liveness: from every reachable state, resumptions alone reach a
    settled state, with no cycle in flight and the loading flag off,
    without any wallet change. *)
Theorem reachable_settles s :
  reachable R env s ->
  exists ls s', steps R env s ls s' /\ resumes_only ls /\
    tasks s' = [] /\ loading (w_state (ui s')) = false /\ rendered s' = rendered s.
Proof.
  intros Hr. destruct (settle_all s) as (ls & s' & S & O & T & Rd).
  exists ls, s'. repeat split; auto.
  destruct (loading (w_state (ui s'))) eqn:Hl; [|reflexivity].
  exfalso. apply (proj2 (reachable_inv R env s' (steps_reachable s ls s' Hr S)) Hl T).
Qed.

End Settling.

(** ** The duplicated cycles of one wallet converge *)

(** The fields a resumption overwrites: the portfolio (four fields set
    together), the loading flag, the error, the transactions. *)
Inductive field := f_portfolio | f_loading | f_error | f_tx.

Definition mask := field -> bool.

Definition no_mask : mask := fun _ => false.

Definition mask_or (m1 m2 : mask) : mask := fun f => m1 f || m2 f.

Definition mask_le (m1 m2 : mask) : Prop := forall f, m1 f = true -> m2 f = true.

(** [s] with the fields of [m] taken from [T]. *)
Definition overwrite (m : mask) (T s : DashboardState) : DashboardState :=
  mkState (if m f_portfolio then solBalance T else solBalance s)
          (if m f_portfolio then solPrice T else solPrice s)
          (if m f_portfolio then tokenAccounts T else tokenAccounts s)
          (if m f_portfolio then stakeAccounts T else stakeAccounts s)
          (if m f_loading then loading T else loading s)
          (if m f_error then error T else error s)
          (showBalance s)
          (if m f_tx then transactions T else transactions s).

Lemma overwrite_compose m1 m2 T s :
  overwrite m1 T (overwrite m2 T s) = overwrite (mask_or m1 m2) T s.
Proof.
  unfold overwrite, mask_or; simpl.
  destruct (m1 f_portfolio), (m2 f_portfolio), (m1 f_loading), (m2 f_loading),
    (m1 f_error), (m2 f_error), (m1 f_tx), (m2 f_tx); reflexivity.
Qed.

Lemma overwrite_no_mask T s : overwrite no_mask T s = s.
Proof. destruct s; reflexivity. Qed.

(** [overwrite] only looks at the bits of the mask. *)
Lemma overwrite_ext m1 m2 T s :
  (forall f, m1 f = m2 f) -> overwrite m1 T s = overwrite m2 T s.
Proof.
  intros H. unfold overwrite. rewrite (H f_portfolio), (H f_loading), (H f_error), (H f_tx).
  reflexivity.
Qed.

Definition pending_mask (p : pending) : mask :=
  match p with
  | AwaitPortfolio (Ok _) => fun f => match f with f_portfolio => true | _ => false end
  | AwaitPortfolio (Throw _) | AwaitTransactions (Throw _) =>
      fun f => match f with f_loading | f_error => true | _ => false end
  | AwaitTransactions (Ok _) => fun f => match f with f_loading | f_tx => true | _ => false end
  end.

(** Case analysis on the five answers of a cycle. *)
Ltac split_answers a :=
  unfold portfolio_answer in *;
  destruct a as [[?b|?e] [?p|?e] [?tk|?e] [?sk|?e] [?tx|?e]];
  simpl in *; try discriminate.

Section Convergence.
Variable R : Remote.
Variable env : option string.
Variable pk : PublicKey.
(** The state of the settled dashboard when the wallet [pk] connects. *)
Variable S0 : DashboardState.
(** The answers the services give to the cycles of [pk]. *)
Variable a : answers.
Hypothesis Ha : cycle_answers R env pk = a.

Definition target : DashboardState := fetch_spec S0 a.

(** The state after both hooks ran their synchronous prefix. *)
Definition started : DashboardState :=
  with_error None (with_loading true (with_error None (with_loading true S0))).

Definition first_half : task := mkTask pk (AwaitPortfolio (portfolio_answer a)).
Definition follow_up : task := mkTask pk (AwaitTransactions (ans_txs a)).

(** What is left to overwrite for a suspended cycle of [pk]. *)
Definition rem (t : task) : mask :=
  match t_pending t with
  | AwaitPortfolio (Ok _) => mask_or (pending_mask (t_pending t)) (pending_mask (t_pending follow_up))
  | p => pending_mask p
  end.

Definition full : mask := rem first_half.

Definition tasks_mask (ts : list task) : mask := fold_right mask_or no_mask (map rem ts).

Definition ours (t : task) : Prop :=
  t = first_half \/ (t = follow_up /\ exists v, portfolio_answer a = Ok v).

Definition conv_inv (s : astate) : Prop :=
  Forall ours (tasks s) /\
  exists m, w_state (ui s) = overwrite m target started /\ mask_le m full /\
            mask_le full (mask_or m (tasks_mask (tasks s))).

(** Each resumption of a cycle of [pk] overwrites fields with the
    values of the sequential result. *)
Lemma resume_effect_overwrite t st :
  ours t -> resume_effect (t_pending t) st = overwrite (pending_mask (t_pending t)) target st.
Proof.
  intros [->|[-> [v Hv]]]; unfold first_half, follow_up, target, fetch_spec in *;
    cbn [t_pending]; split_answers a; try (injection Hv as <-); destruct st; reflexivity.
Qed.

Lemma resume_next_ours t :
  ours t -> resume_next (R, env) t = None \/
            (resume_next (R, env) t = Some follow_up /\ exists v, portfolio_answer a = Ok v).
Proof.
  intros [->|[-> _]]; [|left; reflexivity].
  unfold first_half, follow_up, resume_next; cbn [t_pending t_key fst snd]. rewrite Ha.
  destruct (portfolio_answer a) as [v|e]; [right; eauto | left; auto].
Qed.

(** Bit accounting: the mask a resumption writes and what stays to do
    cover what the cycle had left, and stay within [full]. *)
Lemma rem_split t : ours t ->
  mask_le (rem t) (mask_or (pending_mask (t_pending t))
                           (tasks_mask (option_to_list (resume_next (R, env) t)))) /\
  mask_le (pending_mask (t_pending t)) full.
Proof.
  intros [->|[-> [v Hv]]];
  unfold full, mask_le, rem, tasks_mask, mask_or, no_mask, first_half, follow_up, resume_next in *;
  cbn [t_pending t_key fst snd] in *; rewrite ?Ha;
  split_answers a; split; intros []; auto.
Qed.

Lemma tasks_mask_app l1 l2 f :
  tasks_mask (l1 ++ l2) f = (tasks_mask l1 f || tasks_mask l2 f)%bool.
Proof.
  induction l1 as [|t l1 IH]; [reflexivity|].
  change (tasks_mask ((t :: l1) ++ l2) f) with (rem t f || tasks_mask (l1 ++ l2) f)%bool.
  change (tasks_mask (t :: l1) f) with (rem t f || tasks_mask l1 f)%bool.
  rewrite IH. apply orb_assoc.
Qed.

Lemma started_full : overwrite full target started = target.
Proof.
  unfold full, rem, first_half, follow_up, target, fetch_spec, started; cbn [t_pending].
  split_answers a; destruct S0; reflexivity.
Qed.

Lemma conv_inv_resume s l s' :
  conv_inv s -> astep R env s l s' -> (exists k, l = l_resume k) ->
  conv_inv s' /\ rendered s' = rendered s.
Proof.
  intros [Hall [m (Hst & Hle & Hcov)]] Hs [k ->].
  inversion Hs as [| |s0 pre t post w' next Ht Hr]; subst.
  destruct (resume_run R env t (ui s)) as [Hw Hn]. rewrite Hr in Hw, Hn.
  simpl in Hw, Hn. subst next.
  rewrite Ht in Hall. apply Forall_app in Hall as [Hpre Hrest].
  inversion Hrest as [|? ? Hours Hpost]; subst.
  destruct (rem_split t Hours) as [Hrem Hpm].
  split; [|reflexivity]. split.
  - apply Forall_app; split; [exact Hpre|]. apply Forall_app; split; [|exact Hpost].
    destruct (resume_next_ours t Hours) as [->|[-> Hv]]; simpl;
      [constructor | constructor; [right; split; auto | constructor]].
  - exists (mask_or (pending_mask (t_pending t)) m). simpl. split; [|split].
    + rewrite Hw, Hst, (resume_effect_overwrite t _ Hours). apply overwrite_compose.
    + intros f. specialize (Hle f). specialize (Hpm f). unfold mask_or.
      destruct (pending_mask (t_pending t) f), (m f); simpl; auto.
    + intros f Hf. specialize (Hcov f Hf). specialize (Hrem f). rewrite Ht in Hcov.
      unfold mask_or in *. rewrite !tasks_mask_app in *.
      change (tasks_mask (t :: post) f) with (rem t f || tasks_mask post f)%bool in Hcov.
      destruct (m f), (pending_mask (t_pending t) f), (rem t f), (tasks_mask pre f),
        (tasks_mask post f), (tasks_mask (option_to_list (resume_next (R, env) t)) f);
        simpl in *; auto.
Qed.

Lemma conv_inv_steps s ls s' :
  conv_inv s -> steps R env s ls s' -> resumes_only ls ->
  conv_inv s' /\ rendered s' = rendered s.
Proof.
  intros Hinv H; induction H as [|s l s1 ls s2 Hs Hsteps IH]; intros Hr; [auto|].
  inversion Hr as [|? ? Hl Hls]; subst.
  destruct (conv_inv_resume s l s1 Hinv Hs Hl) as [Hinv1 Hr1].
  destruct (IH Hinv1 Hls) as [Hinv2 Hr2]. split; congruence.
Qed.

Lemma conv_inv_start (w w' : world DashboardState) ts' r :
  w_state w = S0 -> run_hooks R env true (Some pk) (w, []) = (w', ts') ->
  conv_inv (mkAState w' r ts').
Proof.
  intros Hw H. unfold run_hooks in H. rewrite !run_hook_run in H.
  injection H as <- <-. simpl. rewrite Hw.
  unfold cycle_task. rewrite Ha. fold first_half.
  split; [repeat constructor; left; reflexivity|].
  exists no_mask. split; [|split].
  - rewrite overwrite_no_mask. reflexivity.
  - intros f Hf; discriminate.
  - intros f Hf. unfold full in Hf.
    change (no_mask f || (rem first_half f || (rem first_half f || no_mask f)) = true)%bool.
    rewrite Hf. reflexivity.
Qed.

(** A settled run from the start is the sequential result. *)
Lemma conv_inv_settled s : conv_inv s -> tasks s = [] -> w_state (ui s) = target.
Proof.
  intros [_ [m (Hst & Hle & Hcov)]] Ht. rewrite Hst.
  transitivity (overwrite full target started); [|apply started_full].
  apply overwrite_ext. intros f. specialize (Hle f). specialize (Hcov f).
  rewrite Ht in Hcov. unfold mask_or, tasks_mask, no_mask in Hcov. simpl in Hcov.
  rewrite orb_false_r in Hcov.
  destruct (m f), (full f); try reflexivity;
    [discriminate (Hle eq_refl) | discriminate (Hcov eq_refl)].
Qed.

End Convergence.

(** C10. From a settled state, a wallet change to [pk] starts two identical
    cycles (the duplicated hook); every interleaving of their
    resumptions that settles ends in exactly the state of one sequential
    cycle.  The duplicated hook costs requests, not correctness, as long
    as the wallet does not change (compare
    [stale_cycle_after_wallet_switch]). *)
Theorem duplicate_cycles_converge R env pk s s1 ls s' :
  tasks s = [] -> astep R env s (l_wallet true (Some pk)) s1 ->
  steps R env s1 ls s' -> resumes_only ls -> tasks s' = [] ->
  w_state (ui s') = fetch_spec (w_state (ui s)) (cycle_answers R env pk) /\
  rendered s' = Some (true, Some pk).
Proof.
  intros Hs Hw Hsteps Hr Ht.
  inversion Hw as [? ? ? w1 ts1 _ Hrun| |]; subst. rewrite Hs in Hrun.
  pose proof (conv_inv_start R env pk (w_state (ui s)) _ eq_refl (ui s) w1 ts1
                (Some (true, Some pk)) eq_refl Hrun) as Hinv.
  destruct (conv_inv_steps R env pk _ _ eq_refl _ _ _ Hinv Hsteps Hr) as [Hinv' Hr'].
  split; [|exact Hr'].
  exact (conv_inv_settled R env pk _ _ eq_refl s' Hinv' Ht).
Qed.

(** ** Concrete runs *)

(** Two wallets with different balances and histories. *)
Definition two_wallets_remote : Remote :=
  mkRemote (fun _ pk => if String.eqb pk "WalletA" then Ok 3 else Ok (41 # 50)) (Ok 150)
           (fun _ _ => Ok []) (fun _ _ => Ok [])
           (fun _ pk => if String.eqb pk "WalletA"
                        then Ok [mkTx "3xPr" "Swap" "success" "5/30/2024"]
                        else Ok [sample_tx]).

(** Connect, then let the first cycle fail. *)
Definition failing_schedule : list choice := [c_wallet true (Some "Wallet1"); c_resume 0].

Definition final_state (R : Remote) (chs : list choice) : astate :=
  match run_schedule R None init_astate chs with
  | Some (_, s) => s
  | None => init_astate
  end.

Lemma final_state_reachable R chs :
  run_schedule R None init_astate chs <> None -> reachable R None (final_state R chs).
Proof.
  unfold final_state. destruct (run_schedule R None init_astate chs) as [[ls s]|] eqn:H.
  - intros _. eapply schedule_reachable; exact H.
  - intros []; reflexivity.
Qed.

Lemma reachable_error_wf_witness :
  error (w_state (ui (final_state balance_down_remote failing_schedule))) = None \/
  error (w_state (ui (final_state balance_down_remote failing_schedule))) = Some fetch_error_msg.
Proof.
  apply (reachable_error_wf balance_down_remote None).
  apply final_state_reachable. vm_compute. discriminate.
Defined.

Lemma reachable_loading_has_task_witness :
  tasks (final_state zero_accounts_remote [c_wallet true (Some "Wallet1")]) <> [].
Proof.
  apply (reachable_loading_has_task zero_accounts_remote None).
  - apply final_state_reachable. vm_compute. discriminate.
  - vm_compute. reflexivity.
Defined.

Lemma astep_showBalance_witness :
  match step_fun zero_accounts_remote None (mkAState (mk_world earlier_state []) None [])
                 (c_wallet false None) with
  | Some (l, s') => showBalance (w_state (ui s')) = showBalance earlier_state
  | None => False
  end.
Proof.
  destruct (step_fun zero_accounts_remote None (mkAState (mk_world earlier_state []) None [])
                     (c_wallet false None)) as [[l s']|] eqn:H;
    [|vm_compute in H; discriminate].
  apply (astep_showBalance zero_accounts_remote None
           (mkAState (mk_world earlier_state []) None []) l s');
    [exact (step_fun_sound _ _ _ _ _ _ H) |].
  vm_compute in H. injection H as <- _. discriminate.
Defined.

(** Connected to ["WalletB"], settled, showing ["WalletA"]'s 3 SOL. *)
Lemma stale_cycle_after_wallet_switch_witness :
  exists ls s, steps two_wallets_remote None init_astate ls s /\
    rendered s = Some (true, Some "WalletB") /\ tasks s = [] /\
    loading (w_state (ui s)) = false /\ solBalance (w_state (ui s)) = Some 3 /\
    transactions (w_state (ui s)) = [mkTx "3xPr" "Swap" "success" "5/30/2024"].
Proof.
  apply (stale_cycle_after_wallet_switch two_wallets_remote None "WalletA" "WalletB"
           3 150 [] [] [mkTx "3xPr" "Swap" "success" "5/30/2024"]);
    [discriminate | reflexivity].
Defined.

Lemma stale_cycle_after_disconnect_witness :
  exists ls s, steps two_wallets_remote None init_astate ls s /\
    rendered s = Some (false, None) /\ tasks s = [] /\
    solBalance (w_state (ui s)) = Some 3 /\
    transactions (w_state (ui s)) = [mkTx "3xPr" "Swap" "success" "5/30/2024"].
Proof.
  apply (stale_cycle_after_disconnect two_wallets_remote None "WalletA"
           3 150 [] [] [mkTx "3xPr" "Swap" "success" "5/30/2024"]).
  reflexivity.
Defined.

(** After connecting, the two cycles in flight can be run to the end. *)
Lemma reachable_settles_witness :
  exists ls s', steps zero_accounts_remote None
                  (final_state zero_accounts_remote [c_wallet true (Some "Wallet1")]) ls s' /\
    resumes_only ls /\ tasks s' = [] /\ loading (w_state (ui s')) = false /\
    rendered s' = rendered (final_state zero_accounts_remote [c_wallet true (Some "Wallet1")]).
Proof.
  apply (reachable_settles zero_accounts_remote None).
  apply final_state_reachable. vm_compute. discriminate.
Defined.

(** Connect, then interleave the two cycles' resumptions. *)
Definition connected_state : astate :=
  final_state zero_accounts_remote [c_wallet true (Some "Wallet1")].

Definition interleaved_run : option (list label * astate) :=
  run_schedule zero_accounts_remote None connected_state
    [c_resume 0; c_resume 1; c_resume 1; c_resume 0].

Definition interleaved_labels : list label :=
  match interleaved_run with Some (ls, _) => ls | None => [] end.

Definition interleaved_state : astate :=
  match interleaved_run with Some (_, s) => s | None => connected_state end.

Lemma duplicate_cycles_converge_witness :
  w_state (ui interleaved_state) =
  fetch_spec initialState (cycle_answers zero_accounts_remote None "Wallet1") /\
  rendered interleaved_state = Some (true, Some "Wallet1").
Proof.
  apply (duplicate_cycles_converge zero_accounts_remote None "Wallet1" init_astate
           connected_state interleaved_labels interleaved_state).
  - reflexivity.
  - apply (step_fun_sound zero_accounts_remote None init_astate
             (c_wallet true (Some "Wallet1"))). vm_compute. reflexivity.
  - apply (run_schedule_sound zero_accounts_remote None connected_state
             [c_resume 0; c_resume 1; c_resume 1; c_resume 0]). vm_compute. reflexivity.
  - vm_compute. repeat constructor; eexists; reflexivity.
  - vm_compute. reflexivity.
Defined.

(** A disconnect resets a dashboard that showed data, and keeps the
    cycles in flight. *)
Lemma run_hooks_disconnected_reset_witness :
  run_hooks zero_accounts_remote None false (Some "Wallet1")
    (mk_world earlier_state [], [cycle_task zero_accounts_remote None "Wallet1"]) =
  (mk_world (mkState None None [] [] false None true []) [],
   [cycle_task zero_accounts_remote None "Wallet1"]).
Proof. apply (run_hooks_disconnected_reset zero_accounts_remote None false). reflexivity. Defined.
