(* ===== verification/View.v ===== *)
(** * The render function of the dashboard

    [render] is the JSX of [dashboard/page.tsx] (lines 122-246) as a tree
    of [vnode]s: elements with their tag, the attributes the code sets
    (class names, links, keys) and their children; icons and the pie
    chart are leaf elements.  React's rendering of [{cond && x}] (nothing
    for [false] and [null], the string itself for [""]), of numbers
    (decimal text) and of [toFixed(2)] are written out.  [obfuscateValue]
    is line 65.

    The theorems: with the balance hidden the view does not depend on
    the balance, the price or the numbers of accounts; the explorer
    links are exactly the transactions' signatures, and only when
    neither loading nor failed; the wallet button's label is always
    ["Connected"]; an error is shown beside the balance of stale data. *)

From Stdlib Require Import String List Bool QArith Qround ZArith.
From S2P Require Import Prelude JsRuntime Web3Api Dashboard.
Import ListNotations.
Open Scope string_scope.
Open Scope list_scope.

Local Set Warnings "-register-all".

(** The JSX attributes the component sets. *)
Inductive attr_name :=
| className | key | href | target | rel | src | alt | height
| data_id | data_value | data_color | data_label.

Inductive vnode :=
| text (s : string)
| elem (tag : string) (attrs : list (attr_name * string)) (children : list vnode).

Definition cls (c : string) : list (attr_name * string) := [(className, c)].

(** [value.length] stars. *)
Definition obfuscateValue (value : string) : string := str_repeat "*" (String.length value).

(** [x.toFixed(2)] on the exact value [x]: [n] is the integer closest to
    [100 |x|] (the larger one on a tie), printed with at least three
    digits and a point before the last two; a negative [x] gets a
    minus sign. *)
Definition toFixed2 (x : Q) : string :=
  let neg := negb (Qle_bool 0 x) in
  let ax := if neg then Qopp x else x in
  let digits := string_of_N (Z.to_N (Qfloor (ax * 100 + (1 # 2)))) in
  let m := (str_repeat "0" (3 - String.length digits) ++ digits)%string in
  let k := String.length m in
  ((if neg then "-" else "") ++ substring 0 (k - 2) m ++ "." ++ substring (k - 2) 2 m)%string.

Definition explorer_url (sig : string) : string :=
  ("https://explorer.solana.com/tx/" ++ sig)%string.

(** One [<li>] of the transaction list (lines 198-209). *)
Definition tx_item (tx : SimplifiedTransactionDetail) : vnode :=
  elem "li" [(key, signature tx); (className, "transaction-item")]
    [elem "span" [] [text (message tx)];
     elem "span" [] [text (status tx)];
     elem "a" [(href, explorer_url (signature tx)); (target, "_blank");
               (rel, "noopener noreferrer")]
       [text (substring 0 8 (signature tx)); text "..."];
     elem "span" [] [text (date tx)]].

(** The three balance cards (lines 143-170), rendered when both the
    balance and the price are known. *)
Definition balance_cards (s : DashboardState) (solBalance solPrice : Q) : vnode :=
  elem "div" (cls "balance")
    [elem "div" (cls "balance-card")
       [elem "h1" []
          [text "$";
           text (if showBalance s then toFixed2 (solBalance * solPrice)
                 else obfuscateValue "1000")];
        elem "p" []
          [elem "span" []
             [text (if showBalance s then toFixed2 solBalance
                    else obfuscateValue "0.82456098")];
           text " "; text "SOL"]];
     elem "div" (cls "balance-card")
       [elem "h1" []
          [text (if showBalance s then string_of_nat (length (tokenAccounts s))
                 else obfuscateValue "10");
           text " NFTs"]];
     elem "div" (cls "balance-card")
       [elem "h1" []
          [text (if showBalance s then string_of_nat (length (stakeAccounts s))
                 else obfuscateValue "10");
           text " Stakes"]]].

(** [{error && <p>{error}</p>}]: [""] is falsy and rendered as itself. *)
Definition error_line (error : option string) : list vnode :=
  match error with
  | Some e => if is_truthy_str e then [elem "p" [] [text e]] else [text ""]
  | None => []
  end.

Definition pie_data : list (nat * nat * string * string) :=
  [(0, 10, "#8cff05", "series A"); (1, 15, "#4e9002", "series B");
   (2, 20, "#1f3a00", "series C")]%nat.

Definition pie_chart : vnode :=
  elem "div" (cls "charts")
    [elem "PieChart" [(height, "200")]
       (map (fun '(id, value, color, label) =>
               elem "slice" [(data_id, string_of_nat id); (data_value, string_of_nat value);
                             (data_color, color); (data_label, label)] [])
            pie_data)].

Definition render (s : DashboardState) (connected : bool) (publicKey : option PublicKey)
    : vnode :=
  if negb connected then elem "h1" [] [text "Please connect your wallet"] else
  elem "div" (cls "project")
    [elem "section" (cls "section")
      [elem "section" (cls "titletext")
         [elem "h1" [] [text "Dashboard"];
          elem "span" [] [elem "FaTachometerAlt" [] []]];
       elem "div" (cls "pcontainer")
         [elem "div" (cls "projectcard")
            ([elem "p" (cls "titletxt") [text "Net Worth:"];
              elem "button" (cls "toggle-btn")
                [if showBalance s then elem "FaEyeSlash" [] [] else elem "FaEye" [] [];
                 text " ";
                 text (if showBalance s then "Hide Balance" else "View Balance")]] ++
             match solBalance s, solPrice s with
             | Some b, Some p => [balance_cards s b p]
             | _, _ => []
             end ++
             (if loading s then [elem "p" [] [text "Loading..."]] else []) ++
             error_line (error s) ++
             [elem "div" []
                [elem "button" (cls "con-btn2")
                   [text (if connected then "Connected" else "Connect Wallet")];
                 elem "p" (cls "titletxt") [text "Wallet Address"];
                 elem "div" (cls "balance2")
                   match publicKey with
                   | Some pk => [elem "p" [] [text pk]]
                   | None => []
                   end;
                 elem "div" (cls "profile-pic-frame")
                   [elem "img" [(src, "https://via.placeholder.com/100"); (alt, "Profile")] []]]]);
          elem "div" (cls "projectcard")
            [elem "p" (cls "titletxt") [text "Transactions "; elem "span" [] []];
             if loading s then elem "p" [] [text "Loading transactions..."]
             else match error s with
                  | Some e => if is_truthy_str e then elem "p" [] [text "Error: "; text e]
                              else elem "ul" (cls "transaction-list") (map tx_item (transactions s))
                  | None => elem "ul" (cls "transaction-list") (map tx_item (transactions s))
                  end];
          elem "div" (cls "projectcard") [pie_chart]]]].

(** ** Observations of a view *)

Definition has_class (c : string) (attrs : list (attr_name * string)) : bool :=
  existsb (fun kv => match fst kv with className => String.eqb (snd kv) c | _ => false end)
          attrs.

(** The elements carrying class [c], outermost first. *)
Fixpoint find_class (c : string) (n : vnode) : list vnode :=
  match n with
  | text _ => []
  | elem tag attrs children =>
      (if has_class c attrs then [n] else []) ++ flat_map (find_class c) children
  end.

(** The link targets of a view, in document order. *)
Fixpoint hrefs (n : vnode) : list string :=
  match n with
  | text _ => []
  | elem _ attrs children =>
      flat_map (fun kv => match fst kv with href => [snd kv] | _ => [] end) attrs ++
      flat_map hrefs children
  end.

(** The texts of a view, in document order. *)
Fixpoint texts (n : vnode) : list string :=
  match n with
  | text s => [s]
  | elem _ _ children => flat_map texts children
  end.

(** Whether the transaction list is rendered (lines 191-212). *)
Definition list_shown (s : DashboardState) : bool :=
  negb (loading s) &&
  match error s with Some e => negb (is_truthy_str e) | None => true end.

(** The [key] of an element, if it has one. *)
Definition node_key (n : vnode) : list string :=
  match n with
  | text _ => []
  | elem _ attrs _ =>
      flat_map (fun kv => match fst kv with key => [snd kv] | _ => [] end) attrs
  end.

(** No two strings of the list are equal. *)
Fixpoint nodupb (l : list string) : bool :=
  match l with
  | [] => true
  | x :: l' => negb (existsb (String.eqb x) l') && nodupb l'
  end.

(** React's requirement on lists: the keyed children of every element
    have distinct keys. *)
Fixpoint keys_wf (n : vnode) : bool :=
  match n with
  | text _ => true
  | elem _ _ children => nodupb (flat_map node_key children) && forallb keys_wf children
  end.

Lemma nodupb_spec l : nodupb l = true <-> NoDup l.
Proof.
  induction l as [|x l IH]; simpl.
  - split; constructor.
  - rewrite andb_true_iff, negb_true_iff, IH. split.
    + intros [Hx Hl]. constructor; [|exact Hl]. intros Hin.
      assert (existsb (String.eqb x) l = true)
        by (apply existsb_exists; exists x; split; [exact Hin | apply String.eqb_refl]).
      congruence.
    + intros Hnd. inversion Hnd as [|? ? Hx Hl]; subst. split; [|exact Hl].
      destruct (existsb (String.eqb x) l) eqn:E; [|reflexivity].
      apply existsb_exists in E as (y & Hy & Exy). apply String.eqb_eq in Exy. subst. contradiction.
Qed.

Lemma node_key_tx_items txs : flat_map node_key (map tx_item txs) = map signature txs.
Proof. induction txs as [|tx txs IH]; simpl; [reflexivity|]. now rewrite IH. Qed.

Lemma keys_wf_tx_items txs : forallb keys_wf (map tx_item txs) = true.
Proof. induction txs as [|tx txs IH]; simpl; [reflexivity|]. exact IH. Qed.

Lemma hrefs_tx_items txs :
  flat_map hrefs (map tx_item txs) = map (fun tx => explorer_url (signature tx)) txs.
Proof. induction txs as [|tx txs IH]; simpl; [reflexivity|]. now rewrite IH. Qed.

(** No transaction item carries the classes the theorems look for. *)
Lemma find_class_tx_items c txs :
  In c ["con-btn2"; "balance"] ->
  flat_map (find_class c) (map tx_item txs) = [].
Proof.
  intros Hc. induction txs as [|tx txs IH]; simpl; [reflexivity|].
  rewrite IH. destruct Hc as [<-|[<-|[]]]; reflexivity.
Qed.

Lemma flat_map_app_distr {A B} (f : A -> list B) l1 l2 :
  flat_map f (l1 ++ l2) = flat_map f l1 ++ flat_map f l2.
Proof. induction l1 as [|x l1 IH]; simpl; [reflexivity|]. now rewrite IH, app_assoc. Qed.

#[export] Hint Rewrite hrefs_tx_items @flat_map_app_distr node_key_tx_items keys_wf_tx_items
  : dash_rw.

(** Case analysis on the fields the render function branches on. *)
Ltac split_view :=
  repeat match goal with
  | |- context [is_truthy_str ?e] => destruct (is_truthy_str e)
  | |- context [loading ?s] => destruct (loading s)
  | |- context [showBalance ?s] => destruct (showBalance s)
  | |- context [error ?s] => destruct (error s)
  | |- context [solBalance ?s] => destruct (solBalance s)
  | |- context [solPrice ?s] => destruct (solPrice s)
  | |- context [match ?o with Some _ => _ | None => _ end] => destruct o
  end.

(** The balance cards are the only elements of class ["balance"]. *)
Lemma find_class_balance s publicKey b p :
  solBalance s = Some b -> solPrice s = Some p ->
  find_class "balance" (render s true publicKey) = [balance_cards s b p].
Proof.
  intros Hb Hp. unfold render. rewrite Hb, Hp.
  unfold balance_cards, error_line, pie_chart.
  cbn -[toFixed2 obfuscateValue string_of_nat explorer_url tx_item].
  split_view; cbn -[toFixed2 obfuscateValue string_of_nat explorer_url tx_item];
    rewrite ?(find_class_tx_items "balance") by (simpl; auto); reflexivity.
Qed.

(** The links of a connected view. *)
Lemma hrefs_render s publicKey :
  hrefs (render s true publicKey) =
  if list_shown s then map (fun tx => explorer_url (signature tx)) (transactions s) else [].
Proof.
  unfold render, list_shown, balance_cards, error_line, pie_chart.
  cbn -[is_truthy_str toFixed2 obfuscateValue string_of_nat explorer_url].
  split_view; cbn -[is_truthy_str toFixed2 obfuscateValue string_of_nat explorer_url];
    autorewrite with dash_rw; rewrite ?app_nil_r; reflexivity.
Qed.

(** ** Theorems of the view *)

(** C27. Spec 6: with the balance hidden, the view does not depend on the
    balance, the price, or the numbers of token and stake accounts:
    two states that agree on everything else render the same. *)
Theorem render_hidden_noninterference s1 s2 publicKey :
  showBalance s1 = false -> showBalance s2 = false ->
  is_some (solBalance s1) && is_some (solPrice s1) =
  is_some (solBalance s2) && is_some (solPrice s2) ->
  loading s1 = loading s2 -> error s1 = error s2 -> transactions s1 = transactions s2 ->
  render s1 true publicKey = render s2 true publicKey.
Proof.
  intros H1 H2 Hp Hl He Ht. unfold render, balance_cards. cbn [negb].
  rewrite H1, H2, Hl, He, Ht.
  destruct (solBalance s1), (solPrice s1), (solBalance s2), (solPrice s2);
    simpl in Hp; try discriminate; reflexivity.
Qed.

(** C28. The links of the view are exactly the explorer links of the
    transactions, in order, when the list is shown, and there are none
    while loading or after an error. *)
Theorem render_explorer_links s publicKey :
  hrefs (render s true publicKey) =
  if list_shown s then map (fun tx => explorer_url (signature tx)) (transactions s) else [].
Proof. apply hrefs_render. Qed.

(** C35. The wallet button always reads ["Connected"]: its ["Connect Wallet"]
    branch (line 176) is only reached when [connected] is true, after
    the early return of line 122. *)
Theorem render_wallet_button_label s connected publicKey :
  find_class "con-btn2" (render s connected publicKey) =
  if connected then [elem "button" (cls "con-btn2") [text "Connected"]] else [].
Proof.
  destruct connected; [|reflexivity].
  unfold render, balance_cards, error_line, pie_chart.
  cbn -[is_truthy_str toFixed2 obfuscateValue string_of_nat explorer_url].
  split_view; cbn -[is_truthy_str toFixed2 obfuscateValue string_of_nat explorer_url tx_item];
    rewrite ?(find_class_tx_items "con-btn2") by (simpl; auto); reflexivity.
Qed.

(** C31. After a failed cycle the view shows the error message and, beside
    it, the balance cards of the data still in state (spec 4.4: the
    error state discards the data). *)
Theorem render_error_with_balance s publicKey b p :
  solBalance s = Some b -> solPrice s = Some p -> error s = Some fetch_error_msg ->
  find_class "balance" (render s true publicKey) = [balance_cards s b p] /\
  In fetch_error_msg (texts (render s true publicKey)).
Proof.
  intros Hb Hp He. split; [now apply find_class_balance|].
  unfold render. rewrite Hb, Hp, He. unfold error_line.
  cbn -[toFixed2 obfuscateValue string_of_nat explorer_url tx_item balance_cards pie_chart].
  destruct (loading s); simpl; rewrite !in_app_iff; simpl; tauto.
Qed.

(** C30. Well-formedness of the view for React: the keyed children of
    every element of the rendered tree have distinct keys exactly when
    the transaction list is hidden or its signatures are distinct (the
    list items are keyed by [tx.signature], line 198; spec 3 says
    signatures are unique). *)
Theorem render_keys_wf s publicKey :
  keys_wf (render s true publicKey) = true <->
  list_shown s = false \/ NoDup (map signature (transactions s)).
Proof.
  rewrite <- nodupb_spec. unfold render, list_shown, balance_cards, error_line, pie_chart.
  cbn -[is_truthy_str toFixed2 obfuscateValue string_of_nat explorer_url tx_item].
  split_view; cbn -[is_truthy_str toFixed2 obfuscateValue string_of_nat explorer_url tx_item];
    autorewrite with dash_rw; rewrite ?andb_true_r;
    destruct (nodupb (map signature (transactions s))); intuition congruence.
Qed.

(** ** Concrete views *)

(** A large and a small portfolio, both hidden. *)
Definition hidden_rich : DashboardState :=
  mkState (Some 1000) (Some 150) [mkTokenAccount "TokA" 5; mkTokenAccount "TokB" 7]
          [mkStakeAccount "Stk1" 32] false None false [sample_tx].

Definition hidden_poor : DashboardState :=
  mkState (Some (1 # 100)) (Some 150) [] [] false None false [sample_tx].

Lemma render_hidden_noninterference_witness :
  render hidden_rich true (Some "Wallet1") = render hidden_poor true (Some "Wallet1").
Proof. apply render_hidden_noninterference; reflexivity. Defined.

(** The state after a cycle whose balance query failed everywhere,
    starting from an earlier wallet's data. *)
Definition failed_cycle_state : DashboardState :=
  w_state (fst (fetchAllData balance_down_remote None (Some "Wallet1")
                             (mk_world earlier_state []))).

Lemma render_error_with_balance_witness :
  find_class "balance" (render failed_cycle_state true (Some "Wallet1")) =
  [balance_cards failed_cycle_state 3 140] /\
  In fetch_error_msg (texts (render failed_cycle_state true (Some "Wallet1"))).
Proof. apply render_error_with_balance; vm_compute; reflexivity. Defined.

(** A list with a repeated signature breaks React's key requirement. *)
Definition duplicate_tx_state : DashboardState :=
  mkState None None [] [] false None false [sample_tx; sample_tx].

Lemma render_keys_wf_witness :
  keys_wf (render duplicate_tx_state true (Some "Wallet1")) = false /\
  (keys_wf (render duplicate_tx_state true (Some "Wallet1")) = true <->
   list_shown duplicate_tx_state = false \/
   NoDup (map signature (transactions duplicate_tx_state))).
Proof. split; [vm_compute; reflexivity | apply render_keys_wf]. Defined.
