(* ===== verification/Format.v ===== *)
(** * [toFixed(2)] reads back within half a cent

    The dashboard prints the net worth and the balance with
    [toFixed(2)] ([View.toFixed2], lines 151 and 158).  [read_decimal]
    is [Number(s)] on the strings [toFixed] prints: an optional minus
    sign, digits, a point and digits, read with the Standard Library's
    decimal parser [NilEmpty.uint_of_string].  The lemmas: the printed
    string always has two digits after the point and reads back within
    [1/200] of the number.  The theorem: the balance card prints the net
    worth and the balance, each within half a cent. *)

From Stdlib Require Import String Ascii List QArith Qround Qabs ZArith Lia Lqa.
From Stdlib Require Import DecimalString DecimalN DecimalFacts.
From S2P Require Import Prelude Web3Api Dashboard View.
Import ListNotations.
Open Scope nat_scope.
Open Scope string_scope.

(** ** Reading a decimal string back *)

(** The digits before the first point, and those after it if any. *)
Fixpoint split_point (s : string) : string * option string :=
  match s with
  | EmptyString => (EmptyString, None)
  | String c s' =>
      if Ascii.eqb c "." then (EmptyString, Some s')
      else let '(a, b) := split_point s' in (String c a, b)
  end.

Definition read_unsigned (s : string) : option Q :=
  let '(ip, fp) := split_point s in
  let fp := match fp with Some f => f | None => EmptyString end in
  match NilEmpty.uint_of_string (ip ++ fp) with
  | Some u =>
      Some (inject_Z (Z.of_N (N.of_uint u)) / inject_Z (10 ^ Z.of_nat (String.length fp)))%Q
  | None => None
  end.

Definition read_decimal (s : string) : option Q :=
  match s with
  | String c s' => if Ascii.eqb c "-" then option_map Qopp (read_unsigned s') else read_unsigned s
  | EmptyString => read_unsigned s
  end.

(** The amount [toFixed2] prints, in cents: [|x|] rounded half up. *)
Definition cents (x : Q) : Z :=
  Qfloor ((if Qle_bool 0 x then x else - x) * 100 + (1 # 2))%Q.

Lemma Qle_bool_nonneg_false x : Qle_bool 0 x = false -> (x < 0)%Q.
Proof.
  intros H. apply Qnot_le_lt. intros H'. apply Qle_bool_iff in H'. congruence.
Qed.

Lemma abs_nonneg x : (0 <= (if Qle_bool 0 x then x else - x))%Q.
Proof.
  destruct (Qle_bool 0 x) eqn:H; [apply Qle_bool_iff in H|apply Qle_bool_nonneg_false in H]; lra.
Qed.

Lemma cents_nonneg x : (0 <= cents x)%Z.
Proof.
  assert (Hx := abs_nonneg x).
  apply (Qfloor_resp_le 0 ((if Qle_bool 0 x then x else - x) * 100 + (1 # 2))). lra.
Qed.

(** ** Strings of digits *)

Definition is_digit (c : ascii) : bool := Ascii.leb "0" c && Ascii.leb c "9".

Fixpoint no_point (s : string) : bool :=
  match s with
  | EmptyString => true
  | String c s' => is_digit c && no_point s'
  end.

Lemma is_digit_not c c' : is_digit c = true -> is_digit c' = false -> Ascii.eqb c c' = false.
Proof.
  intros H H'. destruct (Ascii.eqb c c') eqn:E; [|reflexivity].
  apply Ascii.eqb_eq in E. congruence.
Qed.

Lemma split_point_app a b : no_point a = true -> split_point (a ++ String "." b) = (a, Some b).
Proof.
  induction a as [|c a IH]; simpl; [reflexivity|].
  intros H; apply andb_prop in H as [Hc Ha].
  now rewrite (is_digit_not c "." Hc eq_refl), IH.
Qed.

Lemma no_point_app a b : no_point (a ++ b) = no_point a && no_point b.
Proof. induction a as [|c a IH]; simpl; [reflexivity|]. now rewrite IH, andb_assoc. Qed.

Lemma no_point_substring n m s : no_point s = true -> no_point (substring n m s) = true.
Proof.
  revert n m; induction s as [|c s IH]; intros [|n] [|m] H; simpl in *; auto;
    apply andb_prop in H as [Hc Hs]; auto.
  now rewrite Hc, IH.
Qed.

Lemma no_point_uint u : no_point (NilEmpty.string_of_uint u) = true.
Proof. induction u; simpl; auto. Qed.

Lemma no_point_zeros n : no_point (str_repeat "0" n) = true.
Proof. induction n; simpl; auto. Qed.

Lemma substring_full s : substring 0 (String.length s) s = s.
Proof. induction s as [|c s IH]; simpl; [reflexivity|]. now rewrite IH. Qed.

Lemma length_substring_tail n s :
  n <= String.length s -> String.length (substring n (String.length s - n) s) = String.length s - n.
Proof.
  revert n; induction s as [|c s IH]; intros [|n] Hn; simpl in *; try lia.
  - now rewrite substring_full.
  - apply IH. lia.
Qed.

Lemma substring_split n s :
  n <= String.length s -> substring 0 n s ++ substring n (String.length s - n) s = s.
Proof.
  revert n; induction s as [|c s IH]; intros [|n] Hn; simpl in *; try lia.
  - reflexivity.
  - now rewrite substring_full.
  - f_equal. apply IH. lia.
Qed.

Lemma uint_of_string_zeros n s :
  NilEmpty.uint_of_string (str_repeat "0" n ++ s) =
  option_map (Nat.iter n Decimal.D0) (NilEmpty.uint_of_string s).
Proof.
  induction n as [|n IH]; simpl.
  - now destruct (NilEmpty.uint_of_string s).
  - rewrite IH. now destruct (NilEmpty.uint_of_string s).
Qed.

Lemma of_uint_D0 d : N.of_uint (Decimal.D0 d) = N.of_uint d.
Proof.
  rewrite <- (DecimalN.Unsigned.of_uint_norm (Decimal.D0 d)), <- (DecimalN.Unsigned.of_uint_norm d).
  reflexivity.
Qed.

Lemma of_uint_zeros n d : N.of_uint (Nat.iter n Decimal.D0 d) = N.of_uint d.
Proof.
  induction n as [|n IH]; [reflexivity|].
  change (Nat.iter (S n) Decimal.D0 d) with (Decimal.D0 (Nat.iter n Decimal.D0 d)).
  now rewrite of_uint_D0.
Qed.

Lemma read_unsigned_point s j :
  no_point s = true -> j <= String.length s ->
  read_unsigned (substring 0 j s ++ String "." (substring j (String.length s - j) s)) =
  option_map (fun u => inject_Z (Z.of_N (N.of_uint u)) /
                       inject_Z (10 ^ Z.of_nat (String.length s - j)))%Q
             (NilEmpty.uint_of_string s).
Proof.
  intros Hs Hj. unfold read_unsigned.
  rewrite split_point_app by now apply no_point_substring.
  cbv beta iota. rewrite substring_split, length_substring_tail by exact Hj.
  now destruct (NilEmpty.uint_of_string s).
Qed.

Lemma read_decimal_digit_head t j R :
  (exists c s, t = String c s /\ is_digit c = true) ->
  read_decimal (substring 0 (S j) t ++ R) = read_unsigned (substring 0 (S j) t ++ R).
Proof. intros (c & s & -> & Hc). simpl. now rewrite (is_digit_not c "-" Hc eq_refl). Qed.

(** ** The printed string *)

Section Printed.
Variable x : Q.

Let digits := string_of_N (Z.to_N (cents x)).
Let m := (str_repeat "0" (3 - String.length digits) ++ digits)%string.

Lemma toFixed2_shape :
  toFixed2 x = ((if negb (Qle_bool 0 x) then "-" else "") ++
                substring 0 (String.length m - 2) m ++ "." ++
                substring (String.length m - 2) 2 m)%string.
Proof.
  unfold toFixed2, m, digits, cents. now destruct (Qle_bool 0 x).
Qed.

Lemma length_m : 3 <= String.length m.
Proof.
  unfold m. rewrite string_length_app, length_str_repeat.
  change (String.length "0") with 1. lia.
Qed.

Lemma read_unsigned_m :
  read_unsigned (substring 0 (String.length m - 2) m ++ "." ++
                 substring (String.length m - 2) 2 m) =
  Some (inject_Z (cents x) / 100)%Q.
Proof.
  assert (Hk := length_m).
  assert (Hnp : no_point m = true)
    by (unfold m; rewrite no_point_app, no_point_zeros; apply no_point_uint).
  replace (substring (String.length m - 2) 2 m)
    with (substring (String.length m - 2) (String.length m - (String.length m - 2)) m)
    by (f_equal; lia).
  change ("." ++ ?b)%string with (String "." b).
  rewrite read_unsigned_point by (assumption || lia).
  replace (String.length m - (String.length m - 2)) with 2 by lia.
  unfold m at 1, digits, string_of_N.
  rewrite uint_of_string_zeros, NilEmpty.usu. simpl.
  rewrite of_uint_zeros, DecimalN.Unsigned.of_to, Z2N.id; [reflexivity|].
  apply cents_nonneg.
Qed.

Lemma m_head : exists c s, m = String c s /\ is_digit c = true.
Proof.
  assert (Hk := length_m).
  assert (Hnp : no_point m = true)
    by (unfold m; rewrite no_point_app, no_point_zeros; apply no_point_uint).
  destruct m as [|c s]; simpl in Hk; [lia|]. apply andb_prop in Hnp as [Hc _]. eauto.
Qed.

(** A non-negative amount is printed without a sign: a digit first. *)
Lemma toFixed2_nonneg_head :
  Qle_bool 0 x = true -> exists c s, toFixed2 x = String c s /\ is_digit c = true.
Proof.
  intros Hx. rewrite toFixed2_shape, Hx. cbn [negb]. change ("" ++ ?y)%string with y.
  assert (Hk := length_m). destruct m_head as (c & s & Hm & Hc).
  destruct (String.length m - 2) as [|j] eqn:E; [lia|].
  rewrite Hm. simpl. eauto.
Qed.

Lemma read_decimal_toFixed2 :
  read_decimal (toFixed2 x) =
  Some (if Qle_bool 0 x then inject_Z (cents x) / 100 else - (inject_Z (cents x) / 100))%Q.
Proof.
  rewrite toFixed2_shape. pose proof read_unsigned_m as H. assert (Hk := length_m).
  destruct (Qle_bool 0 x).
  - cbn [negb]. change ("" ++ ?y)%string with y.
    destruct (String.length m - 2) as [|j] eqn:E; [lia|].
    rewrite read_decimal_digit_head by exact m_head. exact H.
  - cbn [negb]. change ("-" ++ ?y)%string with (String "-" y).
    unfold read_decimal. rewrite Ascii.eqb_refl, H. reflexivity.
Qed.

End Printed.

(** Rounding half up: the cents are within half a cent of [100 |x|]. *)
Lemma cents_bound x :
  let a := (if Qle_bool 0 x then x else - x)%Q in
  (a * 100 - (1 # 2) < inject_Z (cents x) <= a * 100 + (1 # 2))%Q.
Proof.
  intros a. unfold cents. fold a.
  assert (H1 := Qfloor_le (a * 100 + (1 # 2))).
  assert (H2 := Qlt_floor (a * 100 + (1 # 2))). rewrite inject_Z_plus in H2.
  change (inject_Z 1) with 1%Q in H2. lra.
Qed.

(** ** Theorems *)

(** [toFixed2 x] always reads back as a decimal within half a cent of
    [x]. *)
Lemma toFixed2_read_back x :
  exists q, read_decimal (toFixed2 x) = Some q /\ (Qabs (q - x) <= 1 # 200)%Q.
Proof.
  eexists. split; [apply read_decimal_toFixed2|].
  apply Qabs_Qle_condition. assert (H := cents_bound x). simpl in H.
  change (inject_Z (cents x) / 100)%Q with (inject_Z (cents x) * (1 # 100))%Q.
  destruct (Qle_bool 0 x); split; lra.
Qed.

(** C26. Bounds of the view: with the balance shown, the first balance
    card reads ["$"], the net worth, the balance, [" "], ["SOL"], and
    the two amounts read back within half a cent of [balance * price]
    and of [balance]. *)
Theorem render_amounts_within_half_cent s publicKey b p :
  showBalance s = true -> solBalance s = Some b -> solPrice s = Some p ->
  exists t1 t2 rest,
    flat_map texts (find_class "balance" (render s true publicKey)) =
      "$" :: t1 :: t2 :: " " :: "SOL" :: rest /\
    (exists q1, read_decimal t1 = Some q1 /\ (Qabs (q1 - b * p) <= 1 # 200)%Q) /\
    (exists q2, read_decimal t2 = Some q2 /\ (Qabs (q2 - b) <= 1 # 200)%Q).
Proof.
  intros Hs Hb Hp. rewrite (find_class_balance s publicKey b p Hb Hp).
  unfold balance_cards. rewrite Hs. simpl.
  do 3 eexists. split; [reflexivity|].
  split; apply toFixed2_read_back.
Qed.

(** A wallet with 0.82456098 SOL at 150.5 USD. *)
Definition shown_state : DashboardState :=
  mkState (Some (41228049 # 50000000)) (Some (301 # 2)) [] [] false None true [].

Lemma render_amounts_within_half_cent_witness :
  showBalance shown_state = true /\
  exists t1 t2 rest,
    flat_map texts (find_class "balance" (render shown_state true (Some "WalletA"))) =
      "$" :: t1 :: t2 :: " " :: "SOL" :: rest /\
    (exists q1, read_decimal t1 = Some q1 /\ (Qabs (q1 - (41228049 # 50000000) * (301 # 2)) <= 1 # 200)%Q) /\
    (exists q2, read_decimal t2 = Some q2 /\ (Qabs (q2 - (41228049 # 50000000)) <= 1 # 200)%Q).
Proof.
  split; [reflexivity|].
  apply render_amounts_within_half_cent; reflexivity.
Defined.

(** The printed amounts of that wallet. *)
Example shown_state_texts :
  flat_map texts (find_class "balance" (render shown_state true (Some "WalletA"))) =
  ["$"; "124.10"; "0.82"; " "; "SOL"; "0"; " NFTs"; "0"; " Stakes"].
Proof. vm_compute. reflexivity. Qed.
