(* ===== verification/Phases.v ===== *)
(** * Termination of the suspended cycles and the phases of spec 4.4

    Two views of the interleaving semantics of [Async].

    The weight of a state counts the resumptions its suspended cycles
    still have to make: two for a cycle waiting on a [Promise.all] that
    will resolve (the transaction fetch follows), one otherwise.  Every
    resumption removes exactly one unit, so the cycles in flight always
    terminate, after exactly as many resumptions as the weight says,
    whatever the order in which the scheduler resumes them.

    [phase_of] abstracts a state into the four phases of the
    controller's state machine (spec 4.4): [Disconnected], [Loading],
    [Ready], [Failed] (the spec's Error).  [phase_step] is the spec's
    transition relation with the event of each transition and its
    condition on the answers of the resumed cycle.  [phase_inv] (loading
    means no error; every suspended cycle waits for its key's answers)
    holds in every reachable state, and from there every step of the
    code is a [phase_step].  Two of its transitions are not in the
    spec: a disconnect while loading, and a stale cycle of an earlier
    wallet that fails after the current wallet's cycles succeeded (Ready
    to Failed), which is shown to happen. *)

From Stdlib Require Import String List Bool QArith Lia.
From S2P Require Import Prelude JsRuntime Web3Api Endpoints Dashboard Async.
Import ListNotations.
Open Scope string_scope.
Open Scope list_scope.
Open Scope nat_scope.

(** ** The weight of the cycles in flight *)

Definition pending_weight (p : pending) : nat :=
  match p with
  | AwaitPortfolio (Ok _) => 2
  | _ => 1
  end.

Definition weight (s : astate) : nat :=
  list_sum (map (fun t => pending_weight (t_pending t)) (tasks s)).

Lemma list_sum_app l1 l2 : list_sum (l1 ++ l2) = list_sum l1 + list_sum l2.
Proof. induction l1 as [|x l1 IH]; simpl; lia. Qed.


(** ** The phases of the controller *)

Inductive phase := Disconnected | Loading | Ready | Failed.

Definition phase_of (s : astate) : phase :=
  match rendered s with
  | Some (true, Some _) =>
      if loading (w_state (ui s)) then Loading
      else match error (w_state (ui s)) with Some _ => Failed | None => Ready end
  | _ => Disconnected
  end.

(** The phase is a function of the dependencies, the loading flag and
    the error. *)
Definition phase_from (r : option deps) (ld : bool) (e : option string) : phase :=
  match r with
  | Some (true, Some _) => if ld then Loading else match e with Some _ => Failed | None => Ready end
  | _ => Disconnected
  end.

Lemma phase_of_from s :
  phase_of s = phase_from (rendered s) (loading (w_state (ui s))) (error (w_state (ui s))).
Proof. reflexivity. Qed.

(** A cycle succeeds when all five of its fetches do. *)
Definition cycle_ok (a : answers) : bool :=
  match portfolio_answer a, ans_txs a with
  | Ok _, Ok _ => true
  | _, _ => false
  end.

Section PhaseMachine.
Variable R : Remote.
Variable env : option string.

(** The transitions of spec 4.4, each with the event that triggers it:
    a connected key starts Loading (connect, or identity change from any
    phase); a disconnect or a missing key ends in Disconnected; a click
    changes nothing; the resumption of a cycle of [k] ends Loading in
    Ready only when all of [k]'s fetches succeeded, moves to Failed only
    when one of them failed (also from Ready: the stale failure the spec
    does not have), and keeps Loading only when [k]'s portfolio batch
    succeeded (the transaction fetch follows). *)
Inductive phase_step : phase -> label -> phase -> Prop :=
| ps_connect p pk : phase_step p (l_wallet true (Some pk)) Loading
| ps_disconnect p c o : c && is_some o = false -> phase_step p (l_wallet c o) Disconnected
| ps_toggle p : phase_step p l_toggle p
| ps_ready k : cycle_ok (cycle_answers R env k) = true -> phase_step Loading (l_resume k) Ready
| ps_fail p k : cycle_ok (cycle_answers R env k) = false -> p = Loading \/ p = Ready ->
    phase_step p (l_resume k) Failed
| ps_loading k v : portfolio_answer (cycle_answers R env k) = Ok v ->
    phase_step Loading (l_resume k) Loading
| ps_stay p k : p <> Loading -> phase_step p (l_resume k) p.

(** A suspended cycle waits for the answers the services give its key. *)
Definition task_wf (t : task) : Prop :=
  match t_pending t with
  | AwaitPortfolio r => r = portfolio_answer (cycle_answers R env (t_key t))
  | AwaitTransactions r =>
      r = ans_txs (cycle_answers R env (t_key t)) /\
      exists v, portfolio_answer (cycle_answers R env (t_key t)) = Ok v
  end.

(** What the phases rely on: loading means no error yet, and every
    suspended cycle waits for its key's answers. *)
Definition phase_inv (s : astate) : Prop :=
  (loading (w_state (ui s)) = true -> error (w_state (ui s)) = None) /\
  Forall task_wf (tasks s).

End PhaseMachine.

#[export] Hint Constructors phase_step : dash.

Lemma toggle_phase s :
  phase_of (mkAState (fst (toggleBalance (ui s))) (rendered s) (tasks s)) = phase_of s.
Proof. destruct s as [[st tr] r ts]. reflexivity. Qed.

Section PhaseSteps.
Variable R : Remote.
Variable env : option string.


(** C14. Termination: a run of resumptions from any state makes exactly
    as many steps as the weight of the cycles in flight goes down; in
    particular no schedule resumes the suspended cycles forever, and
    every run that settles them all has exactly [weight s] steps. *)
Theorem resumes_terminate s ls s' :
  steps R env s ls s' -> resumes_only ls -> length ls + weight s' = weight s.
Proof.
  induction 1 as [s|s l s1 ls s2 Hs Hss IH]; intros Ho; [reflexivity|].
  inversion Ho as [|l0 ls0 [pk ->] Ho']; subst. specialize (IH Ho'). simpl.
  enough (weight s1 + 1 = weight s) by lia.
  inversion Hs as [| |s0 pre t post w' next Ht Hr]; subst.
  unfold weight; simpl. rewrite Ht, !map_app, !list_sum_app. simpl.
  pose proof (proj2 (resume_run R env t (ui s))) as Hn. rewrite Hr in Hn. simpl in Hn.
  subst next. destruct t as [pk' [[v|e]|[tx|e]]]; simpl; lia.
Qed.

(** The cycles a wallet change starts wait for their key's answers. *)
Lemma cycle_task_wf pk : task_wf R env (cycle_task R env pk).
Proof. reflexivity. Qed.

Lemma resume_next_wf t :
  task_wf R env t -> Forall (task_wf R env) (option_to_list (resume_next (R, env) t)).
Proof.
  destruct t as [k [[v|e]|[tx|e]]]; unfold resume_next, task_wf; cbn; intros H;
    repeat constructor; eauto.
Qed.

Lemma astep_phase_inv s l s' : phase_inv R env s -> astep R env s l s' -> phase_inv R env s'.
Proof.
  intros [Hl Hall] H; destruct H as [s c pk w' ts' _ Hr|s|s pre t post w' next Ht Hr].
  - unfold run_hooks in Hr. rewrite run_hook_run in Hr.
    destruct c, pk; rewrite run_hook_run in Hr; injection Hr as <- <-; split; cbn; auto;
      try discriminate.
    rewrite <- app_assoc. apply Forall_app; split; [exact Hall|].
    repeat constructor; apply cycle_task_wf.
  - destruct (ui s) as [[] tr]; split; [exact Hl | exact Hall].
  - destruct (resume_run R env t (ui s)) as [Hst Hn]. rewrite Hr in Hst, Hn. cbn [fst snd] in Hst, Hn.
    subst next. rewrite Ht in Hall. apply Forall_app in Hall as [Hpre Hrest].
    inversion Hrest as [|? ? Ht' Hpost]; subst. split; cbn [ui tasks].
    + rewrite Hst. destruct t as [k [[[[[b p] tk] sk]|e]|[tx|e]]]; cbn; auto; discriminate.
    + apply Forall_app; split; [exact Hpre|]. apply Forall_app; split; [|exact Hpost].
      now apply resume_next_wf.
Qed.

Lemma reachable_phase_inv s : reachable R env s -> phase_inv R env s.
Proof.
  intros [ls H]. remember init_astate as s0 eqn:E0.
  assert (H0 : phase_inv R env s0) by (subst; split; [discriminate | constructor]).
  clear E0. induction H; eauto using astep_phase_inv.
Qed.

(** A resumption of a cycle of [k], as a transition of the phases. *)
Lemma resume_phase_step r k p st :
  (loading st = true -> error st = None) -> task_wf R env (mkTask k p) ->
  phase_step R env (phase_from r (loading st) (error st)) (l_resume k)
    (phase_from r (loading (resume_effect p st)) (error (resume_effect p st))).
Proof.
  intros Hinv Hwf. unfold task_wf in Hwf; cbn [t_pending t_key] in Hwf.
  destruct st as [b0 p0 t0 s0 l0 e0 sb0 tx0]; cbn in Hinv.
  destruct p as [[[[[b pr] t] stk]|e]|[tx|e]].
  - cbn. destruct r as [[[|] [pk|]]|]; cbn; try (apply ps_stay; discriminate).
    destruct l0; [eapply ps_loading; symmetry; exact Hwf|].
    destruct e0; apply ps_stay; discriminate.
  - assert (Hk : cycle_ok (cycle_answers R env k) = false)
      by (unfold cycle_ok; rewrite <- Hwf; reflexivity).
    cbn. destruct r as [[[|] [pk|]]|]; cbn; try (apply ps_stay; discriminate).
    destruct l0; [apply ps_fail; auto|].
    destruct e0; [apply ps_stay; discriminate | apply ps_fail; auto].
  - destruct Hwf as [Ht [v Hv]].
    assert (Hk : cycle_ok (cycle_answers R env k) = true)
      by (unfold cycle_ok; rewrite Hv, <- Ht; reflexivity).
    cbn. destruct r as [[[|] [pk|]]|]; cbn; try (apply ps_stay; discriminate).
    destruct l0; [rewrite (Hinv eq_refl); apply ps_ready; exact Hk|].
    destruct e0; apply ps_stay; discriminate.
  - destruct Hwf as [Ht [v Hv]].
    assert (Hk : cycle_ok (cycle_answers R env k) = false)
      by (unfold cycle_ok; rewrite Hv, <- Ht; reflexivity).
    cbn. destruct r as [[[|] [pk|]]|]; cbn; try (apply ps_stay; discriminate).
    destruct l0; [apply ps_fail; auto|].
    destruct e0; [apply ps_stay; discriminate | apply ps_fail; auto].
Qed.

(** C12. Refinement of the state machine of spec 4.4, with the event of
    each transition: in every reachable state, a step of the code moves
    the phase along [phase_step]: a connected key starts Loading, a
    disconnect ends in Disconnected, a click changes nothing, and the
    resumption of a cycle of [k] ends Loading in Ready only if all of
    [k]'s fetches succeeded, moves to Failed only if one of them failed,
    and stays in Loading only if [k]'s portfolio batch succeeded.  The
    transitions the spec does not have are a disconnect while loading
    and a stale failure moving Ready to Failed. *)
Theorem astep_phase s l s' :
  reachable R env s -> astep R env s l s' -> phase_step R env (phase_of s) l (phase_of s').
Proof.
  intros Hreach H. destruct (reachable_phase_inv s Hreach) as [Hl Hall].
  destruct H as [s c pk w' ts' _ Hr|s|s pre t post w' next Ht Hr].
  - unfold run_hooks in Hr. rewrite run_hook_run in Hr.
    destruct c, pk; rewrite run_hook_run in Hr; injection Hr as <- _; rewrite (phase_of_from (mkAState _ _ _));
      cbn [phase_from rendered w_state ui loading with_error with_loading];
      [apply ps_connect | apply ps_disconnect; reflexivity ..].
  - rewrite toggle_phase. apply ps_toggle.
  - rewrite !phase_of_from; cbn [rendered ui].
    destruct (resume_run R env t (ui s)) as [Hst _]. rewrite Hr in Hst. cbn [fst] in Hst.
    rewrite Hst. rewrite Ht in Hall. apply Forall_app in Hall as [_ Hrest].
    inversion Hrest as [|? ? Hwf _]; subst.
    destruct t as [k p]. apply resume_phase_step; assumption.
Qed.

End PhaseSteps.

Section StaleFailure.
Variable R : Remote.
Variable env : option string.

(** C13. The extra Ready-to-Failed transition happens: after a switch
    from a wallet [pkA] whose portfolio query fails to a wallet [pkB]
    whose queries succeed, [pkB]'s cycles may settle first (Ready), and
    a stale cycle of [pkA] then moves the dashboard of [pkB] to Failed,
    which spec 4.4 does not allow (only a cycle of the current wallet
    may fail it). *)
Theorem stale_failure_ready_to_failed pkA pkB e b p t st tx :
  pkA <> pkB ->
  portfolio_answer (cycle_answers R env pkA) = Throw e ->
  cycle_answers R env pkB = mkAnswers (Ok b) (Ok p) (Ok t) (Ok st) (Ok tx) ->
  exists ls s s', steps R env init_astate ls s /\ astep R env s (l_resume pkA) s' /\
    rendered s = Some (true, Some pkB) /\ phase_of s = Ready /\ phase_of s' = Failed.
Proof.
  intros Hne HA HB.
  destruct (run_hooks_connected R env pkA (ui init_astate) []) as [w1 H1].
  pose proof (astep_wallet R env init_astate true (Some pkA) w1 _ eq_refl H1) as S1.
  set (s1 := mkAState w1 (Some (true, Some pkA)) _) in S1.
  destruct (run_hooks_run R env true (Some pkB) w1 (tasks s1)) as (w2 & ts2 & H2' & _ & E2 & _).
  destruct (run_hooks_connected R env pkB w1 (tasks s1)) as [w2' H2].
  rewrite H2 in H2'. injection H2' as <- <-.
  assert (Hd : deps_changed (rendered s1) (true, Some pkB) = true).
  { unfold s1; cbn [rendered deps_changed].
    destruct (deps_eq_dec _ _) as [E|E]; [injection E; congruence | reflexivity]. }
  pose proof (astep_wallet R env s1 true (Some pkB) w2' _ Hd H2) as S2.
  set (s2 := mkAState w2' _ _) in S2.
  destruct (task_completes R env s2 [cycle_task R env pkA; cycle_task R env pkA]
              (cycle_task R env pkB) [cycle_task R env pkB] eq_refl)
    as (ls3 & s3 & S3 & _ & T3 & R3 & E3).
  destruct (task_completes R env s3 [cycle_task R env pkA; cycle_task R env pkA]
              (cycle_task R env pkB) [] T3) as (ls4 & s4 & S4 & _ & T4 & R4 & E4).
  destruct (resume R env (cycle_task R env pkA) (ui s4)) as [w5 next] eqn:Hr.
  pose proof (astep_resume R env s4 [] (cycle_task R env pkA) [cycle_task R env pkA] w5 next T4 Hr)
    as S5.
  exists (l_wallet true (Some pkA) :: l_wallet true (Some pkB) :: ls3 ++ ls4), s4,
    (mkAState w5 (rendered s4) ([] ++ option_to_list next ++ [cycle_task R env pkA])).
  split; [eapply steps_cons; [exact S1|]; eapply steps_cons; [exact S2|];
          eapply steps_trans; [exact S3 | exact S4]|].
  split; [exact S5|].
  destruct (resume_run R env (cycle_task R env pkA) (ui s4)) as [Hst _].
  rewrite Hr in Hst. cbn [fst] in Hst.
  rewrite !phase_of_from. cbn [rendered ui]. rewrite Hst, R4, R3.
  unfold cycle_task at 1. cbn [t_pending].
  rewrite E4, E3, !(finish_effect_ready R env pkB b p t st tx _ HB). cbn.
  rewrite E2, HA. auto.
Qed.

End StaleFailure.


(** ** The work of a run *)

Definition is_resume (l : label) : bool := match l with l_resume _ => true | _ => false end.
Definition is_wallet (l : label) : bool := match l with l_wallet _ _ => true | _ => false end.

Section Work.
Variable R : Remote.
Variable env : option string.

Lemma pending_weight_le2 p : pending_weight p <= 2.
Proof. destruct p as [[]|[]]; simpl; lia. Qed.

(** What one step does to the weight: a wallet change adds at most two
    cycles of two segments, a click nothing, a resumption takes one. *)
Lemma astep_weight s l s' :
  astep R env s l s' ->
  if is_resume l then weight s' + 1 = weight s
  else weight s' <= weight s + (if is_wallet l then 4 else 0).
Proof.
  intros H; destruct H as [s c pk w' ts' _ Hr|s|s pre t post w' next Ht Hr]; cbn.
  - unfold run_hooks in Hr. rewrite !run_hook_run in Hr.
    destruct c, pk; rewrite ?run_hook_run in Hr; injection Hr as _ <-; unfold weight;
      cbn [tasks]; rewrite ?map_app, ?list_sum_app; unfold list_sum;
      cbn [map t_pending fold_right]; try lia.
    match goal with |- context [pending_weight ?x] => pose proof (pending_weight_le2 x) end.
    lia.
  - unfold weight, list_sum; cbn [tasks]; lia.
  - unfold weight; cbn [tasks]. rewrite Ht, !map_app, !list_sum_app.
    pose proof (proj2 (resume_run R env t (ui s))) as Hn. rewrite Hr in Hn. cbn in Hn.
    subst next. unfold list_sum.
    destruct t as [pk' [[v|e]|[tx|e]]];
      cbn [map t_pending fold_right option_to_list resume_next pending_weight]; lia.
Qed.

(** C15. Bound on the work of a run: along any run from any state, the
    resumptions made plus the weight left never exceed the weight at the
    start plus four per wallet change; from the initial state, a run
    with [n] wallet changes makes at most [4 n] resumptions. *)
Theorem run_work_bound s ls s' :
  steps R env s ls s' ->
  length (filter is_resume ls) + weight s' <= weight s + 4 * length (filter is_wallet ls).
Proof.
  induction 1 as [s|s l s1 ls s2 Hs Hss IH]; [cbn; lia|].
  pose proof (astep_weight s l s1 Hs) as Hw.
  destruct l; cbn in Hw |- *; lia.
Qed.

End Work.

(** ** Concrete runs *)

Lemma resumes_terminate_witness :
  length interleaved_labels + weight interleaved_state = weight connected_state.
Proof.
  apply (resumes_terminate zero_accounts_remote None connected_state interleaved_labels
           interleaved_state).
  - apply (run_schedule_sound zero_accounts_remote None connected_state
             [c_resume 0; c_resume 1; c_resume 1; c_resume 0]). vm_compute. reflexivity.
  - vm_compute. repeat constructor; eexists; reflexivity.
Defined.

(** The first resumption after connecting: the portfolio lands. *)
Definition first_resume : label * astate :=
  Eval vm_compute in
  match step_fun zero_accounts_remote None connected_state (c_resume 0) with
  | Some x => x
  | None => (l_toggle, connected_state)
  end.

Lemma astep_phase_witness :
  let '(l, s') := first_resume in
  phase_step zero_accounts_remote None (phase_of connected_state) l (phase_of s').
Proof.
  apply (astep_phase zero_accounts_remote None).
  - apply final_state_reachable. vm_compute. discriminate.
  - apply step_fun_sound with (ch := c_resume 0). vm_compute. reflexivity.
Defined.

(** ["WalletA"]'s balance query fails on every endpoint; ["WalletB"]'s
    queries succeed. *)
Definition stale_remote : Remote :=
  mkRemote (fun _ pk => if String.eqb pk "WalletA" then Throw (Error "503") else Ok (41 # 50)%Q)
           (Ok 150%Q) (fun _ _ => Ok []) (fun _ _ => Ok []) (fun _ _ => Ok [sample_tx]).

Lemma stale_failure_ready_to_failed_witness :
  exists ls s s', steps stale_remote None init_astate ls s /\
    astep stale_remote None s (l_resume "WalletA") s' /\
    rendered s = Some (true, Some "WalletB") /\ phase_of s = Ready /\ phase_of s' = Failed.
Proof.
  apply (stale_failure_ready_to_failed stale_remote None "WalletA" "WalletB" all_failed
           (41 # 50)%Q 150%Q [] [] [sample_tx]); [discriminate | reflexivity | reflexivity].
Defined.

(** Two wallet changes, then every cycle in flight resumed to its end. *)
Definition busy_schedule : list choice :=
  [c_wallet true (Some "WalletA"); c_resume 0; c_wallet true (Some "WalletB");
   c_resume 0; c_resume 0; c_resume 0; c_resume 0; c_resume 0; c_resume 0; c_resume 0].

Definition busy_run : list label * astate :=
  Eval vm_compute in
  match run_schedule two_wallets_remote None init_astate busy_schedule with
  | Some r => r
  | None => ([], init_astate)
  end.

Lemma run_work_bound_witness :
  length (filter is_resume (fst busy_run)) + weight (snd busy_run) <=
  weight init_astate + 4 * length (filter is_wallet (fst busy_run)) /\
  length (filter is_resume (fst busy_run)) = 8.
Proof.
  split; [|vm_compute; reflexivity].
  apply (run_work_bound two_wallets_remote None).
  apply (run_schedule_sound two_wallets_remote None init_astate busy_schedule).
  vm_compute. reflexivity.
Defined.
