(* ===== verification/Amounts.v ===== *)
(** * The fetchers' contract: non-negative amounts

    Spec 4.2 promises that the balance and the price services return
    non-negative decimals.  The class [NonNegRemote] states that promise
    of the remote services to the dashboard; the dashboard's theorems
    below are proved against the class, and each concrete remote of the
    development discharges it.  Under the promise, every reachable state
    holds non-negative amounts, every cycle in flight carries
    non-negative amounts, and the shown balance card prints both
    amounts without a sign. *)

From Stdlib Require Import String List Bool QArith Lqa.
From S2P Require Import Prelude JsRuntime Web3Api Endpoints Dashboard Async View Format.
Import ListNotations.
Open Scope string_scope.
Open Scope list_scope.

Class NonNegRemote (R : Remote) := {
  balance_nonneg : forall ep pk b, rpc_getBalance R ep pk = Ok b -> (0 <= b)%Q;
  price_nonneg : forall p, price_api R = Ok p -> (0 <= p)%Q
}.

(** The runner resolves with some endpoint's answer. *)
Lemma query_outcome_ok {A} (q : string -> result A) eps v :
  query_outcome q eps = Ok v -> exists ep, q ep = Ok v.
Proof.
  unfold query_outcome, outcome_of.
  induction eps as [|e eps IH]; simpl; [discriminate|].
  destruct (truthy e) as [ep|]; [|exact IH].
  destruct (q ep) as [v'|x] eqn:Hq; simpl.
  - intros H; injection H as <-. eauto.
  - destruct (first_success q eps) as [fs o]. exact IH.
Qed.

Definition nonneg_opt (o : option Q) : Prop :=
  match o with Some b => (0 <= b)%Q | None => True end.

Definition pending_nonneg (p : pending) : Prop :=
  match p with
  | AwaitPortfolio (Ok (b, pr, _, _)) => (0 <= b)%Q /\ (0 <= pr)%Q
  | _ => True
  end.

Definition amounts_ok (s : astate) : Prop :=
  nonneg_opt (solBalance (w_state (ui s))) /\ nonneg_opt (solPrice (w_state (ui s))) /\
  Forall (fun t => pending_nonneg (t_pending t)) (tasks s).

Section Amounts.
Context (R : Remote) `{!NonNegRemote R} (env : option string).

Lemma cycle_task_nonneg pk : pending_nonneg (t_pending (cycle_task R env pk)).
Proof.
  unfold cycle_task, portfolio_answer, cycle_answers, all4; cbn [t_pending ans_balance ans_price
    ans_tokens ans_stakes].
  destruct (query_outcome (fun ep => rpc_getBalance R ep pk) _) as [b|] eqn:Hb; [|exact I].
  destruct (price_api R) as [p|] eqn:Hp; [|exact I].
  destruct (query_outcome (fun ep => rpc_getTokenAccounts R ep pk) _); [|exact I].
  destruct (query_outcome (fun ep => rpc_getStakeAccounts R ep pk) _); [|exact I].
  destruct (query_outcome_ok _ _ _ Hb) as [ep Hep].
  split; [exact (balance_nonneg ep pk b Hep) | exact (price_nonneg p Hp)].
Qed.

Lemma astep_amounts s l s' : amounts_ok s -> astep R env s l s' -> amounts_ok s'.
Proof.
  intros (Hb & Hp & Ht) H.
  destruct H as [s c pk w' ts' _ Hr|s|s pre t post w' next Hts Hr]; unfold amounts_ok; cbn.
  - unfold run_hooks in Hr. rewrite !run_hook_run in Hr.
    destruct c, pk; rewrite ?run_hook_run in Hr; injection Hr as <- <-; cbn; auto;
      rewrite <- app_assoc; repeat split; auto;
      apply Forall_app; split; auto; repeat constructor; apply cycle_task_nonneg.
  - destruct (ui s) as [st tr]. auto.
  - destruct (resume_run R env t (ui s)) as [Hst Hn]. rewrite Hr in Hst, Hn. cbn in Hst, Hn.
    rewrite Hst. rewrite Hts in Ht. apply Forall_app in Ht as [Hpre Hpost].
    apply Forall_cons_iff in Hpost as [Htp Hpost'].
    destruct t as [pk [[[[[b pr] tk] sk]|e]|[tx|e]]]; cbn in Hn |- *; subst next; cbn in Htp |- *;
      repeat split; try apply Forall_app; try tauto; try (split; auto).
    constructor; [exact I | exact Hpost'].
Qed.

End Amounts.

Section AmountTheorems.
Context (R : Remote) `{!NonNegRemote R} (env : option string).

Lemma reachable_amounts s : reachable R env s -> amounts_ok s.
Proof.
  intros [ls H]. remember init_astate as s0 eqn:E0.
  assert (H0 : amounts_ok s0) by (subst; repeat split; constructor).
  clear E0. induction H; eauto using astep_amounts.
Qed.

(** C25. Invariant under the fetchers' contract (spec 4.2): in every
    reachable state the balance and the price held are non-negative,
    whatever the interleaving of the cycles. *)
Theorem reachable_amounts_nonneg s b p :
  reachable R env s ->
  (solBalance (w_state (ui s)) = Some b -> (0 <= b)%Q) /\
  (solPrice (w_state (ui s)) = Some p -> (0 <= p)%Q).
Proof.
  intros Hr. destruct (reachable_amounts s Hr) as (Hb & Hp & _).
  split; intros E; [rewrite E in Hb | rewrite E in Hp]; exact Hb || exact Hp.
Qed.

(** C32. In every reachable state whose balance is shown, the balance
    card prints the net worth and the balance without a sign: each
    starts with a digit. *)
Theorem reachable_amounts_unsigned s publicKey b p :
  reachable R env s -> showBalance (w_state (ui s)) = true ->
  solBalance (w_state (ui s)) = Some b -> solPrice (w_state (ui s)) = Some p ->
  exists c1 s1 c2 s2 rest,
    flat_map texts (find_class "balance" (render (w_state (ui s)) true publicKey)) =
      "$" :: String c1 s1 :: String c2 s2 :: " " :: "SOL" :: rest /\
    is_digit c1 = true /\ is_digit c2 = true.
Proof.
  intros Hr Hs Hb Hp. destruct (reachable_amounts s Hr) as (Hb' & Hp' & _).
  rewrite Hb in Hb'. rewrite Hp in Hp'. cbn in Hb', Hp'.
  rewrite (find_class_balance _ publicKey b p Hb Hp). unfold balance_cards. rewrite Hs. cbn.
  destruct (toFixed2_nonneg_head (b * p)) as (c1 & s1 & E1 & D1);
    [apply Qle_bool_iff; apply Qmult_le_0_compat; assumption|].
  destruct (toFixed2_nonneg_head b) as (c2 & s2 & E2 & D2); [apply Qle_bool_iff; assumption|].
  rewrite E1, E2. do 5 eexists. split; [reflexivity | split; assumption].
Qed.

End AmountTheorems.

(** ** The concrete remotes keep the contract *)

#[export] Instance two_wallets_nonneg : NonNegRemote two_wallets_remote.
Proof.
  split.
  - intros ep pk b. cbn. destruct (String.eqb pk "WalletA"); intros H; injection H as <-; lra.
  - intros p H. injection H as <-. lra.
Qed.

(** Connect ["WalletA"], let the portfolio land, show the balance. *)
Definition shown_schedule : list choice :=
  [c_wallet true (Some "WalletA"); c_resume 0; c_toggle].

(** A remote outside the contract: the balance query answers [-3]. *)
Definition negative_remote : Remote :=
  mkRemote (fun _ _ => Ok (-3)%Q) (Ok 150%Q) (fun _ _ => Ok []) (fun _ _ => Ok [])
           (fun _ _ => Ok []).

(** Under the contract the shown run holds non-negative amounts; the same
    run against a remote that breaks the contract reaches a negative
    balance, so the hypothesis [NonNegRemote] is what the invariant
    rests on. *)
Lemma reachable_amounts_nonneg_witness :
  ((solBalance (w_state (ui (final_state two_wallets_remote shown_schedule))) = Some 3%Q ->
    (0 <= 3)%Q) /\
   (solPrice (w_state (ui (final_state two_wallets_remote shown_schedule))) = Some 150%Q ->
    (0 <= 150)%Q)) /\
  reachable negative_remote None (final_state negative_remote shown_schedule) /\
  solBalance (w_state (ui (final_state negative_remote shown_schedule))) = Some (-3)%Q.
Proof.
  split; [|split].
  - apply (reachable_amounts_nonneg two_wallets_remote None).
    apply final_state_reachable. vm_compute. discriminate.
  - apply final_state_reachable. vm_compute. discriminate.
  - vm_compute. reflexivity.
Defined.

Lemma reachable_amounts_unsigned_witness :
  exists c1 s1 c2 s2 rest,
    flat_map texts (find_class "balance"
      (render (w_state (ui (final_state two_wallets_remote shown_schedule))) true
              (Some "WalletA"))) =
      "$" :: String c1 s1 :: String c2 s2 :: " " :: "SOL" :: rest /\
    is_digit c1 = true /\ is_digit c2 = true.
Proof.
  apply (reachable_amounts_unsigned two_wallets_remote None _ _ 3%Q 150%Q).
  - apply final_state_reachable. vm_compute. discriminate.
  - vm_compute. reflexivity.
  - vm_compute. reflexivity.
  - vm_compute. reflexivity.
Defined.
