(* ===== verification/Observations.v ===== *)
(** * What the outside world observes of every reachable state

    Two observations of the interleaving semantics of [Async].

    The requests: every connection and every JSON-RPC request in the
    trace of any run goes to a present entry of [RPC_ENDPOINTS env]
    (the environment override, the Helius URL, [clusterApiUrl]), and the
    only HTTP request is the price query (spec 6: the services the
    dashboard consumes).  The proof follows each segment's trace: the
    runner only connects to the endpoints it walks
    ([first_success_present]).

    The screen: in a connected reachable state, [render] shows what the
    phase of spec 4.4 promises: the spinner and no link while loading,
    the fixed error message and no link after a failure, and exactly the
    transactions' explorer links when ready. *)

From Stdlib Require Import String List Bool QArith Permutation.
From S2P Require Import Prelude JsRuntime Web3Api Endpoints Dashboard Async View Phases.
Import ListNotations.
Open Scope string_scope.
Open Scope list_scope.

(** ** Requests *)

(** An event is allowed when the request it records targets a present
    entry of the endpoint list, or is the price query. *)
Definition event_ok (env : option string) (ev : event) : Prop :=
  match ev with
  | ev_connect ep | ev_rpc ep _ => In ep (present_endpoints (RPC_ENDPOINTS env))
  | ev_http url => url = "getSolPriceInUSD"
  | ev_console_error _ _ | ev_console_log _ => True
  end.

Lemma first_success_present {A} (q : string -> result A) eps :
  Forall (fun f => In (fst f) (present_endpoints eps)) (fst (first_success q eps)) /\
  (forall ep v, snd (first_success q eps) = Some (ep, v) -> In ep (present_endpoints eps)).
Proof.
  induction eps as [|e eps [IHf IHs]]; simpl; [split; [constructor | discriminate]|].
  destruct (truthy e) as [ep|]; [|split; assumption].
  destruct (q ep) as [v|x]; simpl.
  - split; [constructor|]. intros ep' v' H; injection H as <- _. left; reflexivity.
  - destruct (first_success q eps) as [fs o]; simpl in *. split.
    + constructor; [left; reflexivity|]. eapply Forall_impl; [|exact IHf]. simpl; auto.
    + intros ep' v' H. right. exact (IHs ep' v' H).
Qed.

Section Requests.
Variable R : Remote.
Variable env : option string.

Lemma query_events_ok {A} method (q : string -> result A) :
  Forall (event_ok env) (query_events method q (RPC_ENDPOINTS env)).
Proof.
  unfold query_events. destruct (first_success_present q (RPC_ENDPOINTS env)) as [Hf Hs].
  destruct (first_success q (RPC_ENDPOINTS env)) as [fs o]; simpl in *.
  apply Forall_app; split.
  - induction fs as [|f fs IH]; simpl; [constructor|].
    inversion Hf as [|? ? Hf1 Hf']; subst.
    do 3 (constructor; [simpl; auto|]). apply IH; auto.
  - destruct o as [[ep v]|]; simpl; [|constructor].
    specialize (Hs ep v eq_refl). repeat constructor; exact Hs.
Qed.

Lemma portfolio_events_ok pk : Forall (event_ok env) (portfolio_events R env pk).
Proof.
  unfold portfolio_events.
  apply Forall_app; split; [apply query_events_ok|].
  apply Forall_app; split; [constructor; [reflexivity | constructor]|].
  apply Forall_app; split; apply query_events_ok.
Qed.

Lemma tx_events_ok pk : Forall (event_ok env) (tx_events R env pk).
Proof. apply query_events_ok. Qed.

(** The events a resumption appends. *)
Lemma resume_trace t w :
  exists evs, w_trace (fst (resume R env t w)) = w_trace w ++ evs /\ Forall (event_ok env) evs.
Proof.
  destruct w as [st tr].
  destruct t as [pk [[v|e]|[tx|e]]]; unfold resume; cbn -[apply_portfolio tx_fetch].
  - rewrite apply_portfolio_run, tx_fetch_run. cbn. eexists; split; [reflexivity|].
    apply tx_events_ok.
  - exists [ev_console_error "Error fetching data:" e]. split; [reflexivity|]. repeat constructor.
  - exists []. split; [now rewrite app_nil_r | constructor].
  - exists [ev_console_error "Error fetching data:" e]. split; [reflexivity|]. repeat constructor.
Qed.

Lemma astep_trace_ok s l s' :
  Forall (event_ok env) (w_trace (ui s)) -> astep R env s l s' ->
  Forall (event_ok env) (w_trace (ui s')).
Proof.
  intros Hs H; destruct H as [s c pk w' ts' _ Hr|s|s pre t post w' next Ht Hr]; cbn.
  - unfold run_hooks in Hr. rewrite !run_hook_run in Hr.
    destruct c, pk; rewrite ?run_hook_run in Hr; injection Hr as <- _; cbn [w_trace]; auto.
    rewrite <- app_assoc. apply Forall_app; split; [|apply Forall_app; split];
      auto using portfolio_events_ok.
  - destruct (ui s) as [st tr]. exact Hs.
  - destruct (resume_trace t (ui s)) as (evs & E & Hevs). rewrite Hr in E. cbn in E.
    rewrite E. apply Forall_app; split; assumption.
Qed.

End Requests.

(** ** Every request of the duplicated cycle, twice *)

(** The events a suspended cycle still appends before it ends. *)
Definition rest_events (R : Remote) (env : option string) (t : task) : list event :=
  match t_pending t with
  | AwaitPortfolio (Ok _) =>
      tx_events R env (t_key t) ++
      match ans_txs (cycle_answers R env (t_key t)) with
      | Ok _ => []
      | Throw e => [ev_console_error "Error fetching data:" e]
      end
  | AwaitPortfolio (Throw e) | AwaitTransactions (Throw e) =>
      [ev_console_error "Error fetching data:" e]
  | AwaitTransactions (Ok _) => []
  end.

Section Pending.
Variable R : Remote.
Variable env : option string.

(** A resumption appends what the cycle had left, less what the cycle it
    suspends again still has left. *)
Lemma resume_rest t w :
  w_trace (fst (resume R env t w)) ++
    flat_map (rest_events R env) (option_to_list (snd (resume R env t w))) =
  w_trace w ++ rest_events R env t.
Proof.
  destruct w as [st tr].
  destruct t as [pk [[v|e]|[tx|e]]]; unfold resume, rest_events; cbn -[apply_portfolio tx_fetch].
  - rewrite apply_portfolio_run, tx_fetch_run. cbn.
    destruct (ans_txs (cycle_answers R env pk)); cbn; now rewrite <- app_assoc, ?app_nil_r.
  - apply app_nil_r.
  - now rewrite !app_nil_r.
  - apply app_nil_r.
Qed.

(** The trace so far and what the suspended cycles still append. *)
Definition all_events (s : astate) : list event :=
  w_trace (ui s) ++ flat_map (rest_events R env) (tasks s).

Lemma astep_resume_all_events s k s' :
  astep R env s (l_resume k) s' -> Permutation (all_events s') (all_events s).
Proof.
  intros Hs. inversion Hs as [| |s0 pre t post w' next Ht Hr]; subst.
  unfold all_events. cbn [ui tasks]. rewrite Ht, !flat_map_app. cbn [flat_map].
  pose proof (resume_rest t (ui s)) as E. rewrite Hr in E. cbn [fst snd] in E.
  set (o := flat_map (rest_events R env) (option_to_list next)) in *.
  transitivity ((w_trace w' ++ o) ++ flat_map (rest_events R env) pre ++
                flat_map (rest_events R env) post).
  - rewrite <- app_assoc. apply Permutation_app_head.
    rewrite !app_assoc. apply Permutation_app_tail, Permutation_app_comm.
  - rewrite E, <- app_assoc. apply Permutation_app_head.
    rewrite !app_assoc. apply Permutation_app_tail, Permutation_app_comm.
Qed.

Lemma steps_resumes_all_events s ls s' :
  steps R env s ls s' -> resumes_only ls -> Permutation (all_events s') (all_events s).
Proof.
  induction 1 as [|s l s1 ls s2 Hs _ IH]; intros Ho; [reflexivity|].
  inversion Ho as [|? ? [k ->] Ho']; subst.
  etransitivity; [exact (IH Ho')|]. exact (astep_resume_all_events s k s1 Hs).
Qed.

(** One cycle's events: the batch and what its suspension still appends. *)
Lemma cycle_events_rest pk :
  cycle_events R env pk = portfolio_events R env pk ++ rest_events R env (cycle_task R env pk).
Proof.
  unfold cycle_events, rest_events, cycle_task. cbn [t_pending t_key].
  destruct (portfolio_answer (cycle_answers R env pk)); reflexivity.
Qed.

End Pending.

Lemma steps_resumes_trace R env s ls s' :
  steps R env s ls s' -> resumes_only ls ->
  exists evs, w_trace (ui s') = w_trace (ui s) ++ evs.
Proof.
  induction 1 as [s|s l s1 ls s2 Hs _ IH]; intros Ho; [exists []; apply eq_sym, app_nil_r|].
  inversion Ho as [|? ? [k ->] Ho']; subst. destruct (IH Ho') as [evs2 E2].
  inversion Hs as [| |s0 pre t post w' next Ht Hr]; subst.
  destruct (resume_trace R env t (ui s)) as (evs1 & E1 & _). rewrite Hr in E1.
  cbn [ui fst] in E1, E2. exists (evs1 ++ evs2). rewrite E2, E1. apply eq_sym, app_assoc.
Qed.

Section Duplicate.
Variable R : Remote.
Variable env : option string.

(** C17. The duplicated hook (lines 67-73 and 114-120): from a settled
    state, a change to a connected wallet starts two identical cycles,
    and every interleaving of their resumptions that settles has issued
    every request and logged every error of one cycle exactly twice: the
    events appended are a permutation of two copies of [cycle_events]. *)
Theorem duplicate_cycles_requests s s1 ls s' pk :
  tasks s = [] -> astep R env s (l_wallet true (Some pk)) s1 ->
  steps R env s1 ls s' -> resumes_only ls -> tasks s' = [] ->
  exists evs, w_trace (ui s') = w_trace (ui s) ++ evs /\
              Permutation evs (cycle_events R env pk ++ cycle_events R env pk).
Proof.
  intros H0 Hw Hs Ho Ht.
  pose proof (steps_resumes_all_events R env s1 ls s' Hs Ho) as P.
  destruct (steps_resumes_trace R env s1 ls s' Hs Ho) as [evs E].
  inversion Hw as [? ? ? w1 ts1 _ Hr| |]; subst. rewrite H0 in Hr.
  unfold run_hooks in Hr. rewrite !run_hook_run in Hr. injection Hr as <- <-.
  unfold all_events in P. rewrite Ht, E in P. cbn [ui tasks w_trace flat_map app] in *.
  set (pe := portfolio_events R env pk) in *.
  set (r := rest_events R env (cycle_task R env pk)) in *.
  change (mkTask pk (AwaitPortfolio (portfolio_answer (cycle_answers R env pk))))
    with (cycle_task R env pk) in P. fold r in P.
  rewrite app_nil_r, <- !app_assoc in P. apply Permutation_app_inv_l in P.
  exists (pe ++ pe ++ evs). split; [rewrite E; now rewrite <- !app_assoc|].
  rewrite !cycle_events_rest. fold pe r. rewrite !app_nil_r in P.
  transitivity (pe ++ pe ++ r ++ r); [exact P|].
  rewrite <- !app_assoc. apply Permutation_app_head.
  rewrite !app_assoc. apply Permutation_app_tail, Permutation_app_comm.
Qed.

End Duplicate.

(** ** The screen *)

(** What [render] shows of the loading flag and of a truthy error. *)
Lemma texts_render_loading s publicKey :
  loading s = true -> In "Loading..." (texts (render s true publicKey)).
Proof.
  intros Hl. unfold render. rewrite Hl.
  cbn -[toFixed2 obfuscateValue string_of_nat explorer_url tx_item balance_cards pie_chart
        error_line].
  rewrite ?flat_map_app_distr, ?in_app_iff. simpl. intuition.
Qed.

Lemma texts_render_error s publicKey e :
  error s = Some e -> is_truthy_str e = true -> In e (texts (render s true publicKey)).
Proof.
  intros He Ht. unfold render, error_line. rewrite He, Ht.
  cbn -[toFixed2 obfuscateValue string_of_nat explorer_url tx_item balance_cards pie_chart].
  destruct (loading s); rewrite ?flat_map_app_distr, ?in_app_iff; simpl; intuition.
Qed.

Section Observed.
Variable R : Remote.
Variable env : option string.

(** C22. Safety of the requests (spec 6): in every reachable state,
    every connection and every JSON-RPC request of the trace went to a
    present entry of [RPC_ENDPOINTS env], and every HTTP request is the
    price query. *)
Theorem reachable_requests_confined s :
  reachable R env s -> Forall (event_ok env) (w_trace (ui s)).
Proof.
  intros [ls H]. remember init_astate as s0 eqn:E0.
  assert (H0 : Forall (event_ok env) (w_trace (ui s0))) by (subst; constructor).
  clear E0. induction H; eauto using astep_trace_ok.
Qed.

(** C29. The screen of each phase (spec 4.4): in a connected reachable
    state the view shows the spinner and no link while loading, the
    fixed error message and no link after a failure, and exactly the
    transactions' explorer links when ready. *)
Theorem render_by_phase s pk :
  reachable R env s -> rendered s = Some (true, Some pk) ->
  match phase_of s with
  | Loading => In "Loading..." (texts (render (w_state (ui s)) true (Some pk))) /\
               hrefs (render (w_state (ui s)) true (Some pk)) = []
  | Failed => In fetch_error_msg (texts (render (w_state (ui s)) true (Some pk))) /\
              hrefs (render (w_state (ui s)) true (Some pk)) = []
  | Ready => hrefs (render (w_state (ui s)) true (Some pk)) =
             map (fun tx => explorer_url (signature tx)) (transactions (w_state (ui s)))
  | Disconnected => False
  end.
Proof.
  intros Hr Hd. destruct (reachable_inv R env s Hr) as [He _].
  unfold phase_of. rewrite Hd, hrefs_render. unfold list_shown.
  destruct (loading (w_state (ui s))) eqn:Hl.
  - split; [now apply texts_render_loading | reflexivity].
  - destruct He as [He|He]; rewrite He; [reflexivity|].
    assert (Ht : is_truthy_str fetch_error_msg = true) by reflexivity.
    rewrite Ht. split; [now apply texts_render_error | reflexivity].
Qed.

End Observed.

(** ** Concrete runs *)

Lemma reachable_requests_confined_witness :
  Forall (event_ok None) (w_trace (ui (final_state two_wallets_remote
    [c_wallet true (Some "WalletA"); c_resume 0; c_wallet true (Some "WalletB")]))).
Proof.
  apply (reachable_requests_confined two_wallets_remote None).
  apply final_state_reachable. vm_compute. discriminate.
Defined.

Definition ready_schedule : list choice :=
  [c_wallet true (Some "WalletA"); c_resume 0; c_resume 0].

Lemma render_by_phase_witness :
  hrefs (render (w_state (ui (final_state two_wallets_remote ready_schedule))) true
                (Some "WalletA")) =
  [explorer_url "3xPr"].
Proof.
  pose proof (render_by_phase two_wallets_remote None
                (final_state two_wallets_remote ready_schedule) "WalletA") as H.
  assert (Hp : phase_of (final_state two_wallets_remote ready_schedule) = Ready)
    by (vm_compute; reflexivity).
  assert (Hr : reachable two_wallets_remote None (final_state two_wallets_remote ready_schedule))
    by (apply final_state_reachable; vm_compute; discriminate).
  assert (Hd : rendered (final_state two_wallets_remote ready_schedule) =
               Some (true, Some "WalletA")) by (vm_compute; reflexivity).
  rewrite Hp in H. cbv iota in H.
  refine (eq_trans (H Hr Hd) _). vm_compute. reflexivity.
Defined.

(** Connect [WalletA] and settle its two cycles, the second first. *)
Definition dup_connected : astate :=
  Eval vm_compute in
  match step_fun two_wallets_remote None init_astate (c_wallet true (Some "WalletA")) with
  | Some (_, s) => s
  | None => init_astate
  end.

Definition dup_settled : list label * astate :=
  Eval vm_compute in
  match run_schedule two_wallets_remote None dup_connected
          [c_resume 1; c_resume 0; c_resume 0; c_resume 0] with
  | Some r => r
  | None => ([], dup_connected)
  end.

Lemma duplicate_cycles_requests_witness :
  exists evs, w_trace (ui (snd dup_settled)) = w_trace (ui init_astate) ++ evs /\
    Permutation evs (cycle_events two_wallets_remote None "WalletA" ++
                     cycle_events two_wallets_remote None "WalletA").
Proof.
  apply (duplicate_cycles_requests two_wallets_remote None init_astate dup_connected
           (fst dup_settled) (snd dup_settled) "WalletA").
  - reflexivity.
  - apply (step_fun_sound two_wallets_remote None init_astate (c_wallet true (Some "WalletA"))).
    vm_compute. reflexivity.
  - apply (run_schedule_sound two_wallets_remote None dup_connected
             [c_resume 1; c_resume 0; c_resume 0; c_resume 0]).
    vm_compute. reflexivity.
  - vm_compute. repeat constructor; eexists; reflexivity.
  - vm_compute. reflexivity.
Defined.
