(* ===== verification/Page.v ===== *)
(** * The home page: wallet provider, header and dashboard

    [page/page.tsx] renders [<WalletContextProvider>] around [<Header/>]
    and [<Dashboard/>]; the provider and the header's
    [WalletMultiButton] are loaded with [next/dynamic] and [ssr: false],
    so each renders nothing until its module has arrived.  The provider
    ([../web3/adapter], not under [src/]) is modelled from spec 6: it
    exposes the wallet's [connected] flag and key ([useWallet]) and a
    [Connection] ([useConnection]).

    A [page_state] records which dynamic modules have arrived, the
    provider's context, the page's console and the dashboard's
    [astate] once it is mounted.  [page_step] is the page's reaction to
    one event: a module arriving (the provider mounts the header, which
    logs, and the dashboard, whose hooks run with the current wallet),
    a change of the provider's wallet (the dashboard's hooks run when
    their dependencies changed), or a step of the dashboard itself.

    The theorems: the page projects onto the dashboard's semantics, so
    every theorem of [Async] holds of the composed page; the dashboard
    always ran its hooks on the provider's current wallet; before the
    provider arrives nothing is rendered and no request is issued; the
    [Connection] of [useConnection] never reaches the dashboard. *)

From Stdlib Require Import String List Bool QArith.
From S2P Require Import Prelude JsRuntime Web3Api Endpoints Dashboard Async View.
Import ListNotations.
Open Scope string_scope.
Open Scope list_scope.
Local Open Scope js_scope.

(** ** The header ([component/header/page.tsx]) *)

(** The static import of [../../images/logo.png]. *)
Definition logo : string := "/images/logo.png".

(** A component loaded by [next/dynamic] with [ssr: false]: nothing
    (the default [loading] renders [null]) until its module arrived. *)
Definition dynamic (loaded : bool) (inner : list vnode) : list vnode :=
  if loaded then inner else [].

Definition WalletMultiButton (loaded : bool) : list vnode :=
  dynamic loaded [elem "WalletMultiButton" [] []].

(** The tree the header returns; the [" "] before the comment is JSX
    text on the line of [<div>], kept by JSX. *)
Definition header_tree (button_loaded : bool) : vnode :=
  elem "div" (cls "header")
    [elem "img" [(className, "logo"); (src, logo); (alt, "Logo")] [];
     elem "div" (cls "profile")
       [elem "img" [(className, "profile-pic"); (src, logo); (alt, "Profile")] []];
     elem "div" [] (text " " :: WalletMultiButton button_loaded)].

Definition Header {S} (button_loaded : bool) : JS S vnode :=
  console_log "Rendering Header component";;
  js_ret (header_tree button_loaded).

(** ** The wallet provider ([../web3/adapter], from spec 6) *)

Record wallet_ctx := mkCtx {
  w_connected : bool;
  w_publicKey : option PublicKey;
  w_connection : Connection
}.

(** ** The page *)

Record page_state := mkPage {
  button_loaded : bool;
  ctx : wallet_ctx;
  page_log : list event;
  dash : option astate   (** [None] until the provider has arrived *)
}.

Definition init_page (c : wallet_ctx) : page_state := mkPage false c [] None.

Inductive page_event :=
| pe_load_provider
| pe_load_button
| pe_wallet (connected : bool) (publicKey : option PublicKey)
| pe_dash (ch : choice).

(** What [HomePage] renders: the provider's children once it arrived. *)
Definition page_view (ps : page_state) : list vnode :=
  match dash ps with
  | None => []
  | Some d =>
      [header_tree (button_loaded ps);
       render (w_state (ui d)) (w_connected (ctx ps)) (w_publicKey (ctx ps))]
  end.

Section PageSemantics.
Variable R : Remote.
Variable env : option string.

(** The dashboard's hooks after a render with wallet [c]: they run when
    their dependencies changed since the render that last ran them. *)
Definition dash_render (c : wallet_ctx) (d : astate) : option astate :=
  if deps_changed (rendered d) (w_connected c, w_publicKey c) then
    option_map snd (step_fun R env d (c_wallet (w_connected c) (w_publicKey c)))
  else Some d.

Definition page_step (ps : page_state) (e : page_event) : option page_state :=
  match e with
  | pe_load_provider =>
      match dash ps with
      | Some _ => None
      | None =>
          let '(hw, _) := Header (button_loaded ps) (mk_world tt (page_log ps)) in
          option_map (fun d => mkPage (button_loaded ps) (ctx ps) (w_trace hw) (Some d))
                     (dash_render (ctx ps) init_astate)
      end
  | pe_load_button =>
      if button_loaded ps then None
      else Some (mkPage true (ctx ps) (page_log ps) (dash ps))
  | pe_wallet c pk =>
      let ctx' := mkCtx c pk (w_connection (ctx ps)) in
      match dash ps with
      | None => Some (mkPage (button_loaded ps) ctx' (page_log ps) None)
      | Some d =>
          option_map (fun d' => mkPage (button_loaded ps) ctx' (page_log ps) (Some d'))
                     (dash_render ctx' d)
      end
  | pe_dash ch =>
      match ch, dash ps with
      | c_wallet _ _, _ | _, None => None
      | _, Some d =>
          option_map (fun '(_, d') => mkPage (button_loaded ps) (ctx ps) (page_log ps) (Some d'))
                     (step_fun R env d ch)
      end
  end.

Fixpoint run_page (ps : page_state) (es : list page_event) : option page_state :=
  match es with
  | [] => Some ps
  | e :: es' =>
      match page_step ps e with
      | None => None
      | Some ps' => run_page ps' es'
      end
  end.

End PageSemantics.

(** ** The page projects onto the dashboard *)

Lemma deps_changed_false last d : deps_changed last d = false -> last = Some d.
Proof.
  destruct last as [d'|]; simpl; [|discriminate].
  destruct (deps_eq_dec d' d) as [->|]; [reflexivity|discriminate].
Qed.

Section Projection.
Variable R : Remote.
Variable env : option string.

(** What the page knows of its dashboard: it is a state of the
    dashboard's semantics, and its hooks last ran on the provider's
    current wallet. *)
Definition dash_ok (ps : page_state) : Prop :=
  match dash ps with
  | None => True
  | Some d => reachable R env d /\ rendered d = Some (w_connected (ctx ps), w_publicKey (ctx ps))
  end.

Lemma reachable_step d l d' : reachable R env d -> astep R env d l d' -> reachable R env d'.
Proof.
  intros [ls H] Hs. exists (ls ++ [l]). eapply steps_trans; [exact H|eauto with dash].
Qed.

Lemma dash_render_ok c d d' :
  reachable R env d -> dash_render R env c d = Some d' ->
  reachable R env d' /\ rendered d' = Some (w_connected c, w_publicKey c).
Proof.
  unfold dash_render. intros Hr.
  destruct (deps_changed (rendered d) (w_connected c, w_publicKey c)) eqn:Hd.
  - destruct (step_fun R env d (c_wallet (w_connected c) (w_publicKey c)))
      as [[l d1]|] eqn:Hs; simpl; [|discriminate].
    intros H; injection H as <-. split; [eapply reachable_step; eauto using step_fun_sound|].
    simpl in Hs. rewrite Hd in Hs.
    destruct (run_hooks R env _ _ _); injection Hs as _ <-. reflexivity.
  - intros H; injection H as <-. split; [exact Hr | now apply deps_changed_false].
Qed.

Lemma step_fun_rendered d ch l d' :
  (forall c pk, ch <> c_wallet c pk) -> step_fun R env d ch = Some (l, d') ->
  rendered d' = rendered d.
Proof.
  destruct ch as [c pk| |i]; simpl; intros Hch.
  - now destruct (Hch c pk).
  - now intros H; injection H as _ <-.
  - destruct (nth_error (tasks d) i); [|discriminate].
    destruct (resume R env t (ui d)). now intros H; injection H as _ <-.
Qed.

Lemma page_step_ok ps e ps' : dash_ok ps -> page_step R env ps e = Some ps' -> dash_ok ps'.
Proof.
  unfold dash_ok. destruct e as [| |c pk|ch]; simpl.
  - destruct (dash ps); [discriminate|]. intros _.
    destruct (dash_render R env (ctx ps) init_astate) as [d|] eqn:Hd; [|discriminate].
    intros H; injection H as <-. simpl.
    eapply dash_render_ok; [exists []; constructor | exact Hd].
  - destruct (button_loaded ps); [discriminate|]. now intros Hok H; injection H as <-.
  - destruct (dash ps) as [d|].
    + intros [Hr _]. destruct (dash_render R env _ d) as [d'|] eqn:Hd; [|discriminate].
      intros H; injection H as <-. exact (dash_render_ok _ _ _ Hr Hd).
    + now intros _ H; injection H as <-.
  - destruct ch as [c pk| |i]; [discriminate| |];
      (destruct (dash ps) as [d|]; [|discriminate]); intros [Hr Hren];
      (destruct (step_fun R env d _) as [[l d']|] eqn:Hs; [|discriminate]);
      simpl; intros H; injection H as <-; simpl;
      (split; [eapply reachable_step; eauto using step_fun_sound|]);
      (erewrite step_fun_rendered; [exact Hren| |exact Hs]; intros ? ? ?; discriminate).
Qed.

Lemma run_page_ok ps es ps' : dash_ok ps -> run_page R env ps es = Some ps' -> dash_ok ps'.
Proof.
  revert ps; induction es as [|e es IH]; simpl; intros ps Hok.
  - now intros H; injection H as <-.
  - destruct (page_step R env ps e) as [ps1|] eqn:Hs; [|discriminate].
    apply IH. exact (page_step_ok _ _ _ Hok Hs).
Qed.

End Projection.

(** ** The provider's [Connection] is never read *)

(** What a page state shows of itself once the provider's connection is
    forgotten. *)
Definition forget_connection (ps : page_state) :=
  (button_loaded ps, w_connected (ctx ps), w_publicKey (ctx ps), page_log ps, dash ps).

Definition option_rel {A B} (P : A -> B -> Prop) (x : option A) (y : option B) : Prop :=
  match x, y with
  | Some a, Some b => P a b
  | None, None => True
  | _, _ => False
  end.

Section Connection.
Variable R : Remote.
Variable env : option string.

Lemma page_step_forget ps1 ps2 e :
  forget_connection ps1 = forget_connection ps2 ->
  option_rel (fun a b => forget_connection a = forget_connection b)
    (page_step R env ps1 e) (page_step R env ps2 e).
Proof.
  destruct ps1 as [b1 [c1 pk1 conn1] l1 d1], ps2 as [b2 [c2 pk2 conn2] l2 d2].
  unfold forget_connection; simpl. intros H; injection H as <- <- <- <- <-.
  destruct e as [| |c pk|ch]; simpl.
  - destruct d1; simpl; [exact I|].
    destruct (dash_render R env _ init_astate); reflexivity.
  - destruct b1; simpl; [exact I | reflexivity].
  - destruct d1 as [d|]; simpl; [|reflexivity].
    destruct (dash_render R env _ d); reflexivity.
  - destruct ch as [c pk| |i], d1 as [d|]; cbn -[step_fun]; try exact I; try reflexivity;
      match goal with |- context [step_fun R env d ?ch] =>
        destruct (step_fun R env d ch) as [[? ?]|]; reflexivity end.
Qed.

Lemma run_page_forget ps1 ps2 es :
  forget_connection ps1 = forget_connection ps2 ->
  option_rel (fun a b => forget_connection a = forget_connection b)
    (run_page R env ps1 es) (run_page R env ps2 es).
Proof.
  revert ps1 ps2; induction es as [|e es IH]; simpl; intros ps1 ps2 H; [exact H|].
  generalize (page_step_forget ps1 ps2 e H).
  destruct (page_step R env ps1 e), (page_step R env ps2 e); simpl; try tauto.
  apply IH.
Qed.

Lemma page_view_forget ps1 ps2 :
  forget_connection ps1 = forget_connection ps2 -> page_view ps1 = page_view ps2.
Proof.
  destruct ps1 as [b1 [c1 pk1 conn1] l1 d1], ps2 as [b2 [c2 pk2 conn2] l2 d2].
  unfold forget_connection; simpl. intros H; injection H as <- <- <- <- <-. reflexivity.
Qed.

End Connection.

Lemma page_step_unmounted R env ps e ps' :
  page_step R env ps e = Some ps' -> e <> pe_load_provider -> dash ps = None ->
  dash ps' = None /\ page_log ps' = page_log ps.
Proof.
  intros Hs He Hd. destruct e as [| |c pk|[c pk| |i]]; [congruence|..];
    simpl in Hs; rewrite ?Hd in Hs; try discriminate.
  - destruct (button_loaded ps); [discriminate|]. injection Hs as <-. now split.
  - injection Hs as <-. now split.
Qed.

(** ** Theorems of the page *)

Section PageTheorems.
Variable R : Remote.
Variable env : option string.

(** C16. Composition: every run of the home page, from any initial
    wallet, leaves the mounted dashboard in a state of the dashboard's
    own interleaving semantics, whose hooks last ran on the wallet the
    provider currently exposes: no wallet change is lost, even one
    made before the provider's module arrived. *)
Theorem page_refines_dashboard c es ps d :
  run_page R env (init_page c) es = Some ps -> dash ps = Some d ->
  reachable R env d /\ rendered d = Some (w_connected (ctx ps), w_publicKey (ctx ps)).
Proof.
  intros Hr Hd. generalize (run_page_ok R env (init_page c) _ _ I Hr). unfold dash_ok. now rewrite Hd.
Qed.

(** C33. Until the provider's module arrives the page renders nothing,
    logs nothing and has no dashboard, hence issues no request, whatever
    the wallet does. *)
Theorem page_blank_before_provider c es ps :
  run_page R env (init_page c) es = Some ps -> ~ In pe_load_provider es ->
  page_view ps = [] /\ dash ps = None /\ page_log ps = [].
Proof.
  change (@nil event) with (page_log (init_page c)).
  assert (Hd : dash (init_page c) = None) by reflexivity. revert Hd.
  generalize (init_page c) as ps0. induction es as [|e es IH]; simpl; intros ps0 Hd Hr Hin.
  - injection Hr as <-. unfold page_view. now rewrite Hd.
  - destruct (page_step R env ps0 e) as [ps1|] eqn:Hs; [|discriminate].
    destruct (page_step_unmounted R env ps0 e ps1 Hs (fun H => Hin (or_introl H)) Hd)
      as [Hd1 Hl1].
    rewrite <- Hl1. apply (IH ps1 Hd1 Hr). tauto.
Qed.

(** C34. The [Connection] of [useConnection()] (line 28) never reaches
    the dashboard: two providers exposing the same wallet over different
    connections give the same view, console and dashboard states under
    every sequence of events. *)
Theorem page_connection_unused c1 c2 es :
  w_connected c1 = w_connected c2 -> w_publicKey c1 = w_publicKey c2 ->
  option_map (fun ps => (page_view ps, page_log ps, dash ps)) (run_page R env (init_page c1) es) =
  option_map (fun ps => (page_view ps, page_log ps, dash ps)) (run_page R env (init_page c2) es).
Proof.
  intros Hc Hp.
  assert (H : forget_connection (init_page c1) = forget_connection (init_page c2))
    by (unfold forget_connection; simpl; congruence).
  generalize (run_page_forget R env _ _ es H).
  destruct (run_page R env (init_page c1) es) as [ps1|],
           (run_page R env (init_page c2) es) as [ps2|]; simpl; try tauto.
  intros Hf. rewrite (page_view_forget _ _ Hf).
  unfold forget_connection in Hf. congruence.
Qed.

End PageTheorems.

(** ** Concrete runs *)

Definition provider_ctx (conn : string) : wallet_ctx :=
  mkCtx false None (mkConnection conn).

(** The wallet connects before the provider's module arrives, then
    switches; the first cycle is suspended when the page is checked. *)
Definition page_events : list page_event :=
  [pe_wallet true (Some "WalletA"); pe_load_button; pe_load_provider;
   pe_wallet true (Some "WalletB"); pe_dash (c_resume 0)].

Definition devnet : wallet_ctx := provider_ctx "https://api.devnet.solana.com".

Definition page_final_state : page_state :=
  Eval vm_compute in
  match run_page two_wallets_remote None (init_page devnet) page_events with
  | Some ps => ps
  | None => init_page devnet
  end.

Definition page_final_dash : astate :=
  Eval vm_compute in match dash page_final_state with Some d => d | None => init_astate end.

Lemma page_refines_dashboard_witness :
  run_page two_wallets_remote None (init_page devnet) page_events = Some page_final_state /\
  dash page_final_state = Some page_final_dash /\
  rendered page_final_dash = Some (true, Some "WalletB").
Proof.
  assert (Hf : run_page two_wallets_remote None (init_page devnet) page_events =
               Some page_final_state) by (vm_compute; reflexivity).
  assert (Hd : dash page_final_state = Some page_final_dash) by (vm_compute; reflexivity).
  split; [exact Hf|]. split; [exact Hd|].
  rewrite (proj2 (page_refines_dashboard two_wallets_remote None _ _ _ _ Hf Hd)).
  vm_compute. reflexivity.
Defined.

Lemma page_blank_before_provider_witness :
  page_view (init_page devnet) = [] /\
  exists ps, run_page two_wallets_remote None (init_page (provider_ctx "x"))
               [pe_wallet true (Some "WalletA"); pe_load_button] = Some ps /\
             page_view ps = [] /\ dash ps = None /\ page_log ps = [].
Proof.
  split; [reflexivity|].
  destruct (run_page two_wallets_remote None (init_page (provider_ctx "x"))
              [pe_wallet true (Some "WalletA"); pe_load_button]) as [ps|] eqn:Hr;
    [|vm_compute in Hr; discriminate].
  exists ps. split; [reflexivity|].
  apply (page_blank_before_provider two_wallets_remote None (provider_ctx "x")
           [pe_wallet true (Some "WalletA"); pe_load_button]); [exact Hr|].
  simpl. intros [H|[H|[]]]; discriminate.
Defined.

Lemma page_connection_unused_witness :
  option_map (fun ps => (page_view ps, page_log ps, dash ps))
    (run_page two_wallets_remote None (init_page devnet)
       page_events) =
  option_map (fun ps => (page_view ps, page_log ps, dash ps))
    (run_page two_wallets_remote None (init_page (provider_ctx "https://rpc.example.org"))
       page_events).
Proof. apply page_connection_unused; reflexivity. Defined.
