(* ===== verification/Config.v ===== *)
(** * The environment override of the endpoint list

    The first entry of [RPC_ENDPOINTS] is
    [process.env.REACT_APP_SOLANA_RPC_ENDPOINT] (line 11), and the loop
    skips it when it is falsy (line 42).  Two endpoint lists are
    equivalent ([same_present]) when the loop walks the same present
    endpoints; two values of the variable are equivalent ([env_equiv])
    when they are equally truthy.  These equivalences are coarser than
    equality, and the runner, the queries and the answers of a cycle
    respect them ([Proper] instances), so that [setoid_rewrite] moves a
    statement from one configuration to an equivalent one.  The
    theorems: the sequential fetch cycle, state and trace, is the same
    for every two equivalent values of the variable; and so is the whole
    interleaving semantics of [Async]: the hooks' synchronous prefixes
    and the resumptions are [Proper], hence so are [astep], [steps] and
    [reachable].  In particular an empty variable behaves exactly as an
    unset one (spec 3: absent or empty entries are skipped). *)

From Stdlib Require Import String List Bool QArith Morphisms Setoid RelationClasses.
From S2P Require Import Prelude JsRuntime Web3Api Endpoints Dashboard Async.
Import ListNotations.
Open Scope string_scope.
Open Scope list_scope.
Local Open Scope js_scope.

Definition same_present (l1 l2 : list (option string)) : Prop :=
  present_endpoints l1 = present_endpoints l2.

#[export] Instance same_present_equiv : Equivalence same_present.
Proof. unfold same_present; split; repeat intro; congruence. Qed.

Definition env_equiv (e1 e2 : option string) : Prop := truthy e1 = truthy e2.

#[export] Instance env_equiv_equiv : Equivalence env_equiv.
Proof. unfold env_equiv; split; repeat intro; congruence. Qed.

(** The list the loop walks: the present endpoints, each truthy. *)
Definition present_list (l : list (option string)) : list (option string) :=
  map Some (present_endpoints l).

Lemma truthy_present e ep : truthy e = Some ep -> truthy (Some ep) = Some ep.
Proof.
  destruct e as [s|]; simpl; [|discriminate].
  destruct (String.eqb s "") eqn:E; [discriminate|]. intros H; injection H as <-.
  now rewrite E.
Qed.

Section Runner.
Context {S A : Type} (f : Connection -> JS S A).

Lemma tryRPCEndpoints_from_present_list l w :
  tryRPCEndpoints_from f l w = tryRPCEndpoints_from f (present_list l) w.
Proof.
  revert w; induction l as [|e l IH]; intros w; [reflexivity|].
  unfold present_list. cbn [present_endpoints tryRPCEndpoints_from].
  destruct (truthy e) as [ep|] eqn:He; [|apply IH].
  cbn [map tryRPCEndpoints_from]. rewrite (truthy_present e ep He).
  unfold js_bind at 1 5. destruct (try_catch _ _ w) as [w1 [[r|]|x]]; [reflexivity| |reflexivity].
  apply IH.
Qed.

#[export] Instance tryRPCEndpoints_from_proper :
  Proper (same_present ==> pointwise_relation (world S) eq) (tryRPCEndpoints_from f).
Proof.
  intros l1 l2 H w. rewrite tryRPCEndpoints_from_present_list, (tryRPCEndpoints_from_present_list l2).
  unfold present_list. now rewrite H.
Qed.

End Runner.

Lemma first_success_present_list {B} (q : string -> result B) l :
  first_success q l = first_success q (present_list l).
Proof.
  induction l as [|e l IH]; [reflexivity|].
  unfold present_list. cbn [present_endpoints first_success].
  destruct (truthy e) as [ep|] eqn:He; [|exact IH].
  cbn [map first_success]. rewrite (truthy_present e ep He).
  destruct (q ep); [reflexivity|]. now rewrite IH.
Qed.

#[export] Instance first_success_proper {B} (q : string -> result B) :
  Proper (same_present ==> eq) (first_success q).
Proof.
  intros l1 l2 H. rewrite first_success_present_list, (first_success_present_list q l2).
  unfold present_list. now rewrite H.
Qed.

#[export] Instance query_outcome_proper {B} (q : string -> result B) :
  Proper (same_present ==> eq) (query_outcome q).
Proof. intros l1 l2 H. unfold query_outcome. now rewrite H. Qed.

#[export] Instance query_events_proper {B} method (q : string -> result B) :
  Proper (same_present ==> eq) (query_events method q).
Proof. intros l1 l2 H. unfold query_events. now rewrite H. Qed.

#[export] Instance RPC_ENDPOINTS_proper : Proper (env_equiv ==> same_present) RPC_ENDPOINTS.
Proof. intros e1 e2 H. unfold same_present, env_equiv in *. simpl. now rewrite H. Qed.

#[export] Instance cycle_answers_proper R : Proper (env_equiv ==> eq ==> eq) (cycle_answers R).
Proof. intros e1 e2 H pk pk' <-. unfold cycle_answers. now rewrite H. Qed.

#[export] Instance portfolio_events_proper R : Proper (env_equiv ==> eq ==> eq) (portfolio_events R).
Proof. intros e1 e2 H pk pk' <-. unfold portfolio_events. now rewrite H. Qed.

#[export] Instance tx_events_proper R : Proper (env_equiv ==> eq ==> eq) (tx_events R).
Proof. intros e1 e2 H pk pk' <-. unfold tx_events. now rewrite H. Qed.

#[export] Instance cycle_events_proper R : Proper (env_equiv ==> eq ==> eq) (cycle_events R).
Proof.
  intros e1 e2 H pk pk' <-. unfold cycle_events.
  now rewrite (portfolio_events_proper R e1 e2 H pk pk eq_refl),
    (tx_events_proper R e1 e2 H pk pk eq_refl), (cycle_answers_proper R e1 e2 H pk pk eq_refl).
Qed.

(** ** The interleaving semantics respects the equivalence *)

(** The synchronous prefix of a hook and a resumption depend on the
    variable only through the requests and answers of the cycle. *)
#[export] Instance run_hook_proper R :
  Proper (env_equiv ==> eq ==> eq ==> eq ==> eq) (run_hook R).
Proof.
  intros e1 e2 H c _ <- pk _ <- [w ts] _ <-. rewrite !run_hook_run.
  destruct c, pk; [now rewrite H | reflexivity ..].
Qed.

#[export] Instance run_hooks_proper R :
  Proper (env_equiv ==> eq ==> eq ==> eq ==> eq) (run_hooks R).
Proof. intros e1 e2 H c _ <- pk _ <- cfg _ <-. unfold run_hooks. now rewrite H. Qed.

#[export] Instance resume_proper R : Proper (env_equiv ==> eq ==> eq ==> eq) (resume R).
Proof.
  intros e1 e2 H t _ <- w _ <-.
  destruct t as [pk [[v|e]|[tx|e]]]; unfold resume; cbn [t_pending t_key]; [|reflexivity ..].
  rewrite apply_portfolio_run; cbv iota. rewrite !tx_fetch_run. now rewrite H.
Qed.

Section Lift.
Variable R : Remote.

Lemma astep_env_impl e1 e2 s l s' :
  env_equiv e1 e2 -> astep R e1 s l s' -> astep R e2 s l s'.
Proof.
  intros H Hs; destruct Hs as [s c pk w' ts' Hd Hr|s|s pre t post w' next Ht Hr].
  - apply astep_wallet; [exact Hd|]. now rewrite <- H.
  - apply astep_toggle.
  - eapply astep_resume; [exact Ht|]. now rewrite <- H.
Qed.

Lemma steps_env_impl e1 e2 s ls s' :
  env_equiv e1 e2 -> steps R e1 s ls s' -> steps R e2 s ls s'.
Proof.
  intros H Hs; induction Hs; econstructor; eauto using astep_env_impl.
Qed.

End Lift.

#[export] Instance astep_proper R : Proper (env_equiv ==> eq ==> eq ==> eq ==> iff) (astep R).
Proof.
  intros e1 e2 H s _ <- l _ <- s' _ <-.
  split; apply astep_env_impl; [exact H | symmetry; exact H].
Qed.

#[export] Instance reachable_proper R : Proper (env_equiv ==> eq ==> iff) (reachable R).
Proof.
  intros e1 e2 H s _ <-. unfold reachable.
  split; intros [ls Hs]; exists ls; eapply steps_env_impl; eauto; now symmetry.
Qed.

(** The sequential fetch cycle, state and trace, depends on the
    environment variable only through its truthiness. *)
Theorem fetchAllData_env_equiv R e1 e2 publicKey w :
  env_equiv e1 e2 -> fetchAllData R e1 publicKey w = fetchAllData R e2 publicKey w.
Proof.
  intros H. destruct publicKey as [pk|]; [|reflexivity].
  rewrite !fetchAllData_run. now rewrite H.
Qed.

(** C24. The whole interleaving semantics depends on the environment
    variable only through its truthiness: for two equally truthy values
    the same runs exist, with the same labels, the same intermediate
    states and hence the same traces of requests and logs, whatever the
    order of wallet changes, clicks and resumptions. *)
Theorem steps_env_equiv R e1 e2 s ls s' :
  env_equiv e1 e2 -> (steps R e1 s ls s' <-> steps R e2 s ls s').
Proof. intros H; split; apply steps_env_impl; [exact H | now symmetry]. Qed.

(** A connect and one resumption, scheduled with the variable unset. *)
Definition unset_run : list label * astate :=
  Eval vm_compute in
  match run_schedule two_wallets_remote None init_astate
          [c_wallet true (Some "WalletA"); c_resume 0] with
  | Some r => r
  | None => ([], init_astate)
  end.

Lemma steps_env_equiv_witness :
  steps two_wallets_remote (Some "") init_astate (fst unset_run) (snd unset_run).
Proof.
  apply (steps_env_equiv two_wallets_remote (Some "") None); [reflexivity|].
  apply (run_schedule_sound two_wallets_remote None init_astate
           [c_wallet true (Some "WalletA"); c_resume 0]).
  vm_compute. reflexivity.
Defined.
