(* ===== verification/Controller.v ===== *)
(** * The cycle guard of spec 9 as an abstract controller

    Spec 9 notes the race of overlapping cycles (a stale cycle lands
    last, [stale_cycle_after_wallet_switch]) and asks for a cycle guard:
    a cycle's results apply only while it is the latest one.  What such
    a guard promises is the atomic controller [atomic_step]: a wallet
    change to a connected key applies the sequential result
    [fetch_spec] of one cycle, any other wallet change is [resetState],
    a click flips the toggle, and a resumption is invisible.

    The code has no guard, but the schedule can provide one: a run is
    [guarded] when no wallet change happens while a cycle is suspended.
    The refinement theorem: every guarded run of the interleaving
    semantics of [Async] between two settled states ends in the state of
    the atomic controller run on the same labels, clicks inside a cycle
    included, although each wallet change starts two cycles (the
    duplicated hook) whose four resumptions interleave with the clicks
    in any order.  The simulation relation [sim] pairs a settled state
    with the equal abstract state, and a state in the middle of the
    cycles of [pk] with the [fetch_spec] they converge to (the overwrite
    masks of [Async.conv_inv]).  [run_guarded] is an executable
    scheduler that refuses an unguarded wallet change.

    The controller of spec 4.4 itself differs from [atomic_step] on
    failures: its Error state discards the prior data ([spec44_fetch]).
    The last theorem characterises exactly when one cycle of the code
    ends in the state it prescribes. *)

From Stdlib Require Import String List Bool QArith.
From S2P Require Import Prelude JsRuntime Web3Api Endpoints Dashboard Async.
Import ListNotations.
Open Scope string_scope.
Open Scope list_scope.

Definition flip_balance (st : DashboardState) : DashboardState :=
  with_showBalance (negb (showBalance st)) st.

(** ** The controller of spec 4.4, literally

    Spec 4.4 makes a cycle end Ready with the new snapshot and records,
    or Error with the generic message and the prior data discarded (a
    full reset, spec 7). *)
Definition spec44_fetch (st : DashboardState) (a : answers) : DashboardState :=
  match portfolio_answer a, ans_txs a with
  | Ok (b, p, t, sk), Ok tx => mkState (Some b) (Some p) t sk false None (showBalance st) tx
  | _, _ => with_error (Some fetch_error_msg) (cleared st)
  end.

(** No portfolio and no transactions on the screen. *)
Definition no_data (st : DashboardState) : Prop :=
  solBalance st = None /\ solPrice st = None /\ tokenAccounts st = [] /\
  stakeAccounts st = [] /\ transactions st = [].

Section Controller.
Variable R : Remote.
Variable env : option string.

(** The controller a cycle guard gives: each label's effect at once. *)
Definition atomic_step (st : DashboardState) (l : label) : DashboardState :=
  match l with
  | l_wallet true (Some pk) => fetch_spec st (cycle_answers R env pk)
  | l_wallet _ _ => cleared st
  | l_toggle => flip_balance st
  | l_resume _ => st
  end.

Definition atomic_run (st : DashboardState) (ls : list label) : DashboardState :=
  fold_left atomic_step ls st.

(** The runs of the code in which no wallet change overlaps a cycle. *)
Inductive guarded : astate -> list label -> astate -> Prop :=
| guarded_refl s : guarded s [] s
| guarded_cons s l s1 ls s2 :
    astep R env s l s1 -> (forall c pk, l = l_wallet c pk -> tasks s = []) ->
    guarded s1 ls s2 -> guarded s (l :: ls) s2.

(** [run_schedule] that refuses a wallet change while a cycle is
    suspended. *)
Fixpoint run_guarded (s : astate) (chs : list choice) : option (list label * astate) :=
  match chs with
  | [] => Some ([], s)
  | ch :: chs' =>
      match ch, tasks s with
      | c_wallet _ _, _ :: _ => None
      | _, _ =>
          match step_fun R env s ch with
          | None => None
          | Some (l, s1) =>
              match run_guarded s1 chs' with
              | None => None
              | Some (ls, s2) => Some (l :: ls, s2)
              end
          end
      end
  end.

(** The simulation relation: settled and equal to the abstract state,
    or inside the cycles of [pk] started from [S0], which converge to
    the abstract state. *)
Definition sim (s : astate) (A : DashboardState) : Prop :=
  (tasks s = [] /\ w_state (ui s) = A) \/
  (exists pk S0, conv_inv pk S0 (cycle_answers R env pk) s /\
                 fetch_spec S0 (cycle_answers R env pk) = A).

End Controller.

(** ** The toggle commutes with the cycle *)

Lemma toggle_state (w : world DashboardState) :
  w_state (fst (toggleBalance w)) = flip_balance (w_state w).
Proof. destruct w as [[] tr]. reflexivity. Qed.

Lemma fetch_spec_flip S0 a : fetch_spec (flip_balance S0) a = flip_balance (fetch_spec S0 a).
Proof.
  destruct S0. unfold fetch_spec.
  destruct (portfolio_answer a) as [[[[b p] t] st]|e]; [destruct (ans_txs a)|]; reflexivity.
Qed.

Lemma overwrite_flip m T s :
  overwrite m (flip_balance T) (flip_balance s) = flip_balance (overwrite m T s).
Proof. destruct T, s. reflexivity. Qed.

Lemma started_flip S0 : started (flip_balance S0) = flip_balance (started S0).
Proof. destruct S0. reflexivity. Qed.

(** A click inside the cycles of [pk] moves them to the flipped start. *)
Lemma conv_inv_toggle pk S0 a s :
  conv_inv pk S0 a s ->
  conv_inv pk (flip_balance S0) a (mkAState (fst (toggleBalance (ui s))) (rendered s) (tasks s)).
Proof.
  intros [Hall [m (Hst & Hle & Hcov)]]. split; [exact Hall|].
  exists m. split; [|split; assumption]. cbn [ui].
  rewrite toggle_state, Hst. unfold target. rewrite fetch_spec_flip, started_flip.
  symmetry. apply overwrite_flip.
Qed.

Section Simulation.
Variable R : Remote.
Variable env : option string.

Lemma sim_settled s A : sim R env s A -> tasks s = [] -> w_state (ui s) = A.
Proof.
  intros [[_ H]|(pk & S0 & Hc & <-)] Ht; [exact H|].
  exact (conv_inv_settled R env pk S0 _ eq_refl s Hc Ht).
Qed.

(** One step of the code is one step of the controller. *)
Lemma sim_step s l s' A :
  sim R env s A -> astep R env s l s' -> (forall c pk, l = l_wallet c pk -> tasks s = []) ->
  sim R env s' (atomic_step R env A l).
Proof.
  intros Hsim Hs Hg. pose proof Hs as Hs0.
  destruct Hs as [s c pk w' ts' _ Hr|s|s pre t post w' next Ht Hr].
  - specialize (Hg c pk eq_refl). pose proof (sim_settled s A Hsim Hg) as HA.
    rewrite Hg in Hr. destruct c; destruct pk as [pk|].
    1: right; exists pk, A; split; [|reflexivity];
       exact (conv_inv_start R env pk A _ eq_refl (ui s) w' ts' _ HA Hr).
    all: left; unfold run_hooks in Hr; rewrite !run_hook_run in Hr;
      injection Hr as <- <-; split; [reflexivity|]; cbn; rewrite HA; reflexivity.
  - destruct Hsim as [[Ht HA]|(pk & S0 & Hc & HA)].
    + left. split; [exact Ht|]. cbn [ui atomic_step]. now rewrite toggle_state, HA.
    + right. exists pk, (flip_balance S0). split; [now apply conv_inv_toggle|].
      cbn [atomic_step]. now rewrite fetch_spec_flip, HA.
  - destruct Hsim as [[Hnil _]|(pk & S0 & Hc & HA)].
    + rewrite Hnil in Ht. destruct pre; discriminate.
    + right. exists pk, S0. split; [|exact HA].
      exact (proj1 (conv_inv_resume R env pk S0 _ eq_refl s _ _ Hc Hs0 (ex_intro _ _ eq_refl))).
Qed.

Lemma guarded_sim s ls s' A :
  sim R env s A -> guarded R env s ls s' -> sim R env s' (atomic_run R env A ls).
Proof.
  intros H Hg; revert A H; induction Hg as [|s l s1 ls s2 Hs Hw Hg IH]; intros A H;
    [exact H|].
  apply IH. eapply sim_step; eauto.
Qed.

(** Guarded runs are runs of the code. *)
Lemma guarded_steps s ls s' : guarded R env s ls s' -> steps R env s ls s'.
Proof. induction 1; eauto with dash. Qed.

Lemma step_fun_wallet s ch c pk s' :
  step_fun R env s ch = Some (l_wallet c pk, s') -> exists c' pk', ch = c_wallet c' pk'.
Proof.
  destruct ch as [c' pk'| |i]; simpl; [eauto|discriminate|].
  destruct (nth_error (tasks s) i); [|discriminate].
  destruct (resume R env t (ui s)). discriminate.
Qed.

Lemma run_guarded_sound s chs ls s' :
  run_guarded R env s chs = Some (ls, s') -> guarded R env s ls s'.
Proof.
  revert s ls; induction chs as [|ch chs IH]; intros s ls; simpl.
  - intros H; injection H as <- <-. constructor.
  - assert (Hrun : forall l s1, step_fun R env s ch = Some (l, s1) ->
              (forall c pk, ch = c_wallet c pk -> tasks s = []) ->
              match run_guarded R env s1 chs with
              | Some (ls0, s2) => Some (l :: ls0, s2) | None => None end = Some (ls, s') ->
              guarded R env s ls s').
    { intros l s1 Hs Hc. destruct (run_guarded R env s1 chs) as [[ls1 s2]|] eqn:Hr;
        [|discriminate].
      intros H; injection H as <- <-. econstructor; [eapply step_fun_sound; exact Hs| |now apply IH].
      intros c pk ->. destruct (step_fun_wallet s ch c pk s1 Hs) as (c' & pk' & ->). eauto. }
    destruct ch as [c pk| |i]; [destruct (tasks s) eqn:Ht; [|discriminate]|..];
      (destruct (step_fun R env s _) as [[l s1]|] eqn:Hs; [|discriminate]);
      apply (Hrun l s1 eq_refl); intros ? ? ?; congruence.
Qed.

End Simulation.

Section Refinement.
Variable R : Remote.
Variable env : option string.

(** C11. Refinement of the controller of spec 9: along every run of the
    interleaving semantics in which no wallet change happens while a
    cycle is suspended, from a settled state to a settled state, the
    dashboard ends in the state of the atomic controller run on the same
    labels.  The duplicated hook's two cycles, their four resumptions
    and the clicks between them interleave in any order and still give
    one sequential cycle per wallet change. *)
Theorem guarded_run_refines s ls s' :
  tasks s = [] -> guarded R env s ls s' -> tasks s' = [] ->
  w_state (ui s') = atomic_run R env (w_state (ui s)) ls.
Proof.
  intros H0 Hg Ht. apply (sim_settled R env); [|exact Ht].
  apply (guarded_sim R env s ls s'); [left; auto | exact Hg].
Qed.

End Refinement.

(** ** A concrete guarded run *)

(** Connect [WalletA], click between the resumptions of its two cycles,
    settle, then switch to [WalletB] and settle. *)
Definition guarded_choices : list choice :=
  [c_wallet true (Some "WalletA"); c_resume 0; c_toggle; c_resume 1; c_resume 0; c_resume 0;
   c_wallet true (Some "WalletB"); c_resume 0; c_resume 0; c_resume 0; c_resume 0].

Definition guarded_result : list label * astate :=
  Eval vm_compute in
  match run_guarded two_wallets_remote None init_astate guarded_choices with
  | Some r => r
  | None => ([], init_astate)
  end.

Lemma guarded_run_refines_witness :
  w_state (ui (snd guarded_result)) =
  atomic_run two_wallets_remote None initialState (fst guarded_result).
Proof.
  apply (guarded_run_refines two_wallets_remote None init_astate); [reflexivity| |].
  - apply (run_guarded_sound two_wallets_remote None init_astate guarded_choices).
    vm_compute. reflexivity.
  - vm_compute. reflexivity.
Defined.

(** ** The code against the controller of spec 4.4 *)

(** C23. Error behaviour against spec 4.4 and 7: one cycle of
    [fetchAllData] ends in the state the spec's controller prescribes
    exactly when all five fetches succeed, or when the portfolio batch
    fails on a dashboard that showed no data.  When only the transaction
    fetch fails the code never agrees (it keeps the new portfolio beside
    the previous transactions), and when the batch fails it agrees only
    if there was nothing to discard. *)
Theorem fetchAllData_spec44 R env pk (w : world DashboardState) :
  w_state (fst (fetchAllData R env (Some pk) w)) =
    spec44_fetch (w_state w) (cycle_answers R env pk) <->
  (exists v tx, portfolio_answer (cycle_answers R env pk) = Ok v /\
                ans_txs (cycle_answers R env pk) = Ok tx) \/
  (exists e, portfolio_answer (cycle_answers R env pk) = Throw e /\ no_data (w_state w)).
Proof.
  rewrite fetchAllData_run. cbn [fst w_state].
  unfold fetch_spec, spec44_fetch, no_data.
  destruct (w_state w) as [b0 p0 t0 sk0 l0 e0 sb0 tx0].
  destruct (portfolio_answer (cycle_answers R env pk)) as [[[[b p] t] sk]|e];
    [destruct (ans_txs (cycle_answers R env pk)) as [tx|e]|].
  - split; [intros _; left; eauto | reflexivity].
  - split; [discriminate|].
    intros [(v & tx & _ & H)|(e' & H & _)]; discriminate.
  - cbn. split.
    + intros H; injection H as -> -> -> -> ->. right; exists e; repeat split.
    + intros [(v & tx & H & _)|(e' & _ & -> & -> & -> & -> & ->)]; [discriminate|reflexivity].
Qed.

(** A failed batch after a shown portfolio: the code keeps the stale
    balance, the spec discards it. *)
Lemma fetchAllData_spec44_witness :
  ~ (w_state (fst (fetchAllData balance_down_remote None (Some "Wallet1")
                     (mk_world earlier_state []))) =
     spec44_fetch earlier_state (cycle_answers balance_down_remote None "Wallet1")).
Proof.
  rewrite (fetchAllData_spec44 balance_down_remote None "Wallet1" (mk_world earlier_state [])).
  intros [(v & tx & H & _)|(e & _ & H & _)]; vm_compute in H; discriminate.
Defined.
